(** * CompNet: shape-and-dataflow model of the UNet (ACDC) and VNet (LA) models

    The two Python files define encoder/decoder segmentation networks on top
    of PyTorch.  The numeric kernels (convolution, normalisation, dropout)
    belong to PyTorch; what the repository itself fixes is the wiring: which
    layer is applied to which tensor, in which order, how feature lists are
    split, masked, recombined and decoded, and which attributes of the model
    object are touched on the way.

    The embedding keeps exactly that.  A tensor is its shape (as a list of
    dimension sizes, batch first) together with a symbolic term recording how
    it was computed.  Every PyTorch operator is given by its shape contract
    (which inputs it rejects, which output shape it yields) and a term
    constructor.  Python exceptions are values of [PyError]; the mutable
    attributes of the model object, the random-number generator and the log of
    encoder/decoder invocations are threaded through a state-and-error monad
    whose state survives a raised exception, as the attributes of a Python
    object do. *)

From Stdlib Require Import List String Arith ZArith Lia ZifyNat QArith
  Bool PeanoNat DecimalString PrimFloat.
Import ListNotations.

Close Scope Q_scope.
Open Scope nat_scope.
Open Scope list_scope.

Set Implicit Arguments.

(** Python's [float] is an IEEE 754 double: probabilities are primitive
    floats, and a decimal literal denotes the nearest double, as it does in
    Python. *)
Set Warnings "-inexact-float".

(* ================================================================== *)
(** ** Python results *)

Inductive PyError : Type :=
| AssertionError
| IndexError
| ValueError
| KeyError
| RuntimeError.

Inductive Result (A : Type) : Type :=
| Ok (a : A)
| Raise (e : PyError).

Arguments Ok {A} a.
Arguments Raise {A} e.

Definition rbind {A B} (r : Result A) (f : A -> Result B) : Result B :=
  match r with
  | Ok a => f a
  | Raise e => Raise e
  end.

Declare Scope result_scope.
Delimit Scope result_scope with res.
Notation "x <-- r ;; k" := (rbind r (fun x => k))
  (at level 61, r at next level, right associativity) : result_scope.

(** [l[i]] on a Python list. *)
Definition py_index {A} (l : list A) (i : nat) : Result A :=
  match nth_error l i with
  | Some a => Ok a
  | None => Raise IndexError
  end.

(* ================================================================== *)
(** ** Tensors: shapes and symbolic terms *)

Definition Shape := list nat.

(** The layers of [torch.nn] used by the two files.  [name] identifies the
    learned parameters of a layer (two convolutions with equal
    hyper-parameters are still different functions); [d] is the number of
    spatial dimensions (2 for the [*2d] classes, 3 for [*3d]). *)
Inductive DropKind : Type :=
| PlainDrop      (* nn.Dropout *)
| Drop2d         (* nn.Dropout2d *)
| Drop3d         (* nn.Dropout3d *)
| AlphaDrop      (* nn.AlphaDropout *)
| FeatureAlpha.  (* nn.FeatureAlphaDropout *)

Inductive Layer : Type :=
| Conv (name : string) (d cin cout k stride pad : nat)
| ConvTranspose (name : string) (d cin cout k stride : nat)
| BatchNorm (name : string) (d c : nat)
| GroupNorm (name : string) (groups c : nat)
| InstanceNorm (d c : nat)
| ReLU
| LeakyReLU
| Dropout (kind : DropKind) (p : float)
| MaxPool (d k : nat)
| Upsample (scale : nat) (mode : string) (align_corners : bool).

Inductive Expr : Type :=
| EVar (name : string)
| EApply (l : Layer) (e : Expr)
| ERandDrop (seed : nat) (l : Layer) (e : Expr)
| ECat (dim : nat) (a b : Expr)
| EChunk (i : nat) (e : Expr)
| EMask (seed : nat) (p_keep : Q) (like : Shape)
| EOneMinus (a : Expr)
| EMul (a b : Expr)
| EAdd (a b : Expr).

Record Tensor : Type := mkTensor { shape : Shape; expr : Expr }.

Definition batch (t : Tensor) : nat := hd 0 (shape t).

(* ------------------------------------------------------------------ *)
(** *** Shape contracts of the PyTorch operators *)

Definition prod_dims (s : Shape) : nat := fold_right Nat.mul 1 s.

(** Output length of a convolution / pooling window along one axis. *)
Definition conv_out (k stride pad s : nat) : Result nat :=
  if k <=? s + 2 * pad
  then Ok ((s + 2 * pad - k) / stride + 1)
  else Raise RuntimeError.

(** Output length of a transposed convolution along an axis of length
    [s >= 1]: [(s - 1) * stride + k].  An empty axis is rejected by the
    layer, see [layer_shape]. *)
Definition convT_out (k stride s : nat) : nat := s * stride + k - stride.

Fixpoint map_res {A B} (f : A -> Result B) (l : list A) : Result (list B) :=
  match l with
  | [] => Ok []
  | a :: l' =>
      match f a with
      | Raise e => Raise e
      | Ok b =>
          match map_res f l' with
          | Raise e => Raise e
          | Ok bs => Ok (b :: bs)
          end
      end
  end.

(** [layer_shape training l s]: the shape [l] returns on an input of shape
    [s], or the exception it raises.  Inputs are in batched layout
    [N :: C :: spatial], the layout both models are fed with.  The
    convolutions, [InstanceNorm3d] and [MaxPool2d] of [torch.nn] also take
    one unbatched sample ([C :: spatial]); that use is outside the
    embedding, and a statement that concludes the rank of an input from a
    call of such a layer alone is made for batched inputs only. *)
Definition layer_shape (training : bool) (l : Layer) (s : Shape) : Result Shape :=
  match l with
  | Conv _ d cin cout k stride pad =>
      match s with
      | n :: c :: sp =>
          if (c =? cin) && (List.length sp =? d)
          then match map_res (conv_out k stride pad) sp with
               | Ok sp' => Ok (n :: cout :: sp')
               | Raise e => Raise e
               end
          else Raise RuntimeError
      | _ => Raise RuntimeError
      end
  | ConvTranspose _ d cin cout k stride =>
      match s with
      | n :: c :: sp =>
          if (c =? cin) && (List.length sp =? d)
          then if forallb (Nat.leb 1) sp
               then Ok (n :: cout :: map (convT_out k stride) sp)
               else Raise RuntimeError
          else Raise RuntimeError
      | _ => Raise RuntimeError
      end
  | BatchNorm _ d c' =>
      match s with
      | n :: c :: sp =>
          if negb (List.length sp =? d) then Raise ValueError
          else if training && (n * prod_dims sp =? 1) then Raise ValueError
          else if negb (c =? c') then Raise RuntimeError
          else Ok s
      | _ => Raise ValueError
      end
  | GroupNorm _ g c' =>
      match s with
      | n :: c :: sp =>
          if (n * c / g * prod_dims sp =? 1) then Raise ValueError
          else if negb (c =? c') then Raise RuntimeError
          else Ok s
      | _ => Raise RuntimeError
      end
  | InstanceNorm d _ =>
      match s with
      | n :: c :: sp =>
          if negb (List.length sp =? d) then Raise ValueError
          else if prod_dims sp =? 1 then Raise ValueError
          else Ok s
      | _ => Raise ValueError
      end
  | ReLU | LeakyReLU | Dropout _ _ => Ok s
  | MaxPool d k =>
      match s with
      | n :: c :: sp =>
          if List.length sp =? d
          then match map_res (conv_out k k 0) sp with
               | Ok sp' => Ok (n :: c :: sp')
               | Raise e => Raise e
               end
          else Raise RuntimeError
      | _ => Raise RuntimeError
      end
  | Upsample scale _ _ =>
      match s with
      | n :: c :: sp => Ok (n :: c :: map (fun x => x * scale) sp)
      | _ => Raise RuntimeError
      end
  end.

(** Broadcasting of two shapes, aligned from the last axis. *)
Fixpoint broadcast_rev (a b : Shape) : Result Shape :=
  match a, b with
  | [], _ => Ok b
  | _, [] => Ok a
  | x :: a', y :: b' =>
      match broadcast_rev a' b' with
      | Raise e => Raise e
      | Ok r =>
          if x =? y then Ok (x :: r)
          else if x =? 1 then Ok (y :: r)
          else if y =? 1 then Ok (x :: r)
          else Raise RuntimeError
      end
  end.

Definition broadcast (a b : Shape) : Result Shape :=
  match broadcast_rev (rev a) (rev b) with
  | Ok r => Ok (rev r)
  | Raise e => Raise e
  end.

Fixpoint shape_eqb (a b : Shape) : bool :=
  match a, b with
  | [], [] => true
  | x :: a', y :: b' => (x =? y) && shape_eqb a' b'
  | _, _ => false
  end.

(** Shape of [torch.cat((a, b), dim)]: same rank, equal sizes off [dim]. *)
Fixpoint cat_shape (dim : nat) (a b : Shape) : Result Shape :=
  match dim, a, b with
  | 0, x :: a', y :: b' =>
      if shape_eqb a' b' then Ok ((x + y) :: a') else Raise RuntimeError
  | S dim', x :: a', y :: b' =>
      if x =? y
      then match cat_shape dim' a' b' with
           | Ok r => Ok (x :: r)
           | Raise e => Raise e
           end
      else Raise RuntimeError
  | _, _, _ => Raise RuntimeError
  end.

(** Sizes of the pieces of [t.chunk(2)] along the batch axis: pieces of
    [ceil(n/2)] rows until the rows run out, and two empty pieces when there
    are no rows at all. *)
Definition chunk2_sizes (n : nat) : list nat :=
  let size := (n + 1) / 2 in
  if n =? 0 then [0; 0]
  else if n <=? size then [n]
  else [size; n - size].

(* ================================================================== *)
(** ** The interpreter state and its monad *)

(** What a forward pass can leave behind: entries of the invocation log. *)
Inductive Event : Type :=
| EvEncoder
| EvDecoder
| EvPert.

Definition event_eqb (a b : Event) : bool :=
  match a, b with
  | EvEncoder, EvEncoder | EvDecoder, EvDecoder | EvPert, EvPert => true
  | _, _ => false
  end.

(** [count ev tr]: how many times [ev] occurs in the log [tr]. *)
Definition count (ev : Event) (tr : list Event) : nat :=
  List.length (filter (event_eqb ev) tr).

(** [self_attrs] holds the attributes of the model object that a method
    may assign to; [rng] is the state of the random generator (the next
    unused seed); [trace] is the invocation log, newest entry first. *)
Record World (Self : Type) : Type := mkWorld {
  self_attrs : Self;
  rng : nat;
  trace : list Event
}.

Arguments mkWorld {Self} _ _ _.

Section Monad.
Variable Self : Type.

Definition M (A : Type) : Type := World Self -> World Self * Result A.

Definition ret {A} (a : A) : M A := fun w => (w, Ok a).

Definition raise {A} (e : PyError) : M A := fun w => (w, Raise e).

Definition bind {A B} (m : M A) (f : A -> M B) : M B :=
  fun w =>
    match m w with
    | (w', Ok a) => f a w'
    | (w', Raise e) => (w', Raise e)
    end.

Definition lift {A} (r : Result A) : M A := fun w => (w, r).

Definition fresh : M nat :=
  fun w => (mkWorld (self_attrs w) (S (rng w)) (trace w), Ok (rng w)).

Definition log (ev : Event) : M unit :=
  fun w => (mkWorld (self_attrs w) (rng w) (ev :: trace w), Ok tt).

Definition get_self : M Self := fun w => (w, Ok (self_attrs w)).

Definition set_self (s : Self) : M unit :=
  fun w => (mkWorld s (rng w) (trace w), Ok tt).

(** A list comprehension / [for] loop that appends to a result list. *)
Fixpoint mapM {A B} (f : A -> M B) (l : list A) : M (list B) :=
  match l with
  | [] => ret []
  | a :: l' =>
      bind (f a) (fun b => bind (mapM f l') (fun bs => ret (b :: bs)))
  end.
End Monad.

Arguments ret {Self A} a.
Arguments raise {Self A} e.
Arguments bind {Self A B} m f.
Arguments lift {Self A} r.
Arguments fresh {Self}.
Arguments log {Self} ev.
Arguments get_self {Self}.
Arguments set_self {Self} s.
Arguments mapM {Self A B} f l.

Declare Scope monad_scope.
Delimit Scope monad_scope with monad.
Notation "x <- m ;; k" := (bind m (fun x => k))
  (at level 61, m at next level, right associativity) : monad_scope.
Notation "m ;;; k" := (bind m (fun _ => k))
  (at level 61, right associativity) : monad_scope.
Notation "' ( x , y ) <- m ;; k" := (bind m (fun '(x, y) => k))
  (at level 61, m at next level, right associativity, x name, y name)
  : monad_scope.

Open Scope monad_scope.

(* ================================================================== *)
(** ** Tensor operations *)

Section TensorOps.
Variable Self : Type.

(** Dropout draws fresh randomness while the module is in training mode
    and is the identity in evaluation mode; every other layer is a
    deterministic function of its input. *)
Definition apply_layer (training : bool) (l : Layer) (t : Tensor) : M Self Tensor :=
  match layer_shape training l (shape t) with
  | Raise e => raise e
  | Ok s' =>
      match l with
      | Dropout _ _ =>
          if training
          then seed <- fresh ;; ret (mkTensor s' (ERandDrop seed l (expr t)))
          else ret t
      | _ => ret (mkTensor s' (EApply l (expr t)))
      end
  end.

(** Calling an [nn.Sequential] built from [ops] on [t]. *)
Fixpoint sequential (training : bool) (ops : list Layer) (t : Tensor) : M Self Tensor :=
  match ops with
  | [] => ret t
  | l :: ops' => t' <- apply_layer training l t ;; sequential training ops' t'
  end.

Definition torch_cat (dim : nat) (a b : Tensor) : M Self Tensor :=
  match cat_shape dim (shape a) (shape b) with
  | Ok s => ret (mkTensor s (ECat dim (expr a) (expr b)))
  | Raise e => raise e
  end.

Fixpoint chunk_pieces (i : nat) (sizes : list nat) (t : Tensor) : list Tensor :=
  match sizes with
  | [] => []
  | n :: sizes' =>
      mkTensor (n :: tl (shape t)) (EChunk i (expr t))
        :: chunk_pieces (S i) sizes' t
  end.

(** [t.chunk(2)]: the tuple of pieces along axis 0. *)
Definition chunk2 (t : Tensor) : M Self (list Tensor) :=
  match shape t with
  | [] => raise RuntimeError
  | n :: _ => ret (chunk_pieces 0 (chunk2_sizes n) t)
  end.

(** [a, b = tuple]: unpacking a tuple into exactly two names. *)
Definition unpack2 (l : list Tensor) : M Self (Tensor * Tensor) :=
  match l with
  | [a; b] => ret (a, b)
  | _ => raise ValueError
  end.

(** [(torch.rand_like(t) < p_keep).float()]. *)
Definition rand_mask (p_keep : Q) (t : Tensor) : M Self Tensor :=
  seed <- fresh ;; ret (mkTensor (shape t) (EMask seed p_keep (shape t))).

(** [1 - t]. *)
Definition one_minus (t : Tensor) : Tensor :=
  mkTensor (shape t) (EOneMinus (expr t)).

Definition torch_mul (a b : Tensor) : M Self Tensor :=
  match broadcast (shape a) (shape b) with
  | Ok s => ret (mkTensor s (EMul (expr a) (expr b)))
  | Raise e => raise e
  end.

Definition torch_add (a b : Tensor) : M Self Tensor :=
  match broadcast (shape a) (shape b) with
  | Ok s => ret (mkTensor s (EAdd (expr a) (expr b)))
  | Raise e => raise e
  end.

(** [features[i]]. *)
Definition feat_index (l : list Tensor) (i : nat) : M Self Tensor :=
  lift (py_index l i).
End TensorOps.

Arguments apply_layer {Self} training l t.
Arguments sequential {Self} training ops t.
Arguments torch_cat {Self} dim a b.
Arguments chunk2 {Self} t.
Arguments unpack2 {Self} l.
Arguments rand_mask {Self} p_keep t.
Arguments torch_mul {Self} a b.
Arguments torch_add {Self} a b.
Arguments feat_index {Self} l i.

(** Constructing [nn.Dropout(p)] (and its 2d/3d variants) checks [p]. *)
Definition Dropout_init (kind : DropKind) (p : float) : Result Layer :=
  if (PrimFloat.ltb p 0 || PrimFloat.ltb 1 p)%bool then Raise ValueError
  else Ok (Dropout kind p).

(** Constructing [nn.GroupNorm(g, c)] checks divisibility. *)
Definition GroupNorm_init (name : string) (g c : nat) : Result Layer :=
  if c mod g =? 0 then Ok (GroupNorm name g c) else Raise ValueError.

(** What a forward call hands back: one tensor or a tuple of tensors. *)
Inductive Output : Type :=
| Single (t : Tensor)
| Tuple (ts : list Tensor).

(* ================================================================== *)
(** ** ACDC/model/unet.py *)

Module UNet.

(** The [params] dict literal of [UNet.__init__]; its six keys are always
    present, so it is a record.  A dict that lacks a key, on which
    [Encoder] and [Decoder] raise [KeyError], is outside the embedding. *)
Record Params : Type := mkParams {
  in_chns : nat;
  feature_chns : list nat;
  dropout : list float;
  class_num : nat;
  bilinear : bool;
  acti_func : string
}.

(** [ConvBlock.conv_conv]: the seven layers of the [nn.Sequential].  Here
    and in every other constructor the allocation of the parameters of a
    layer is taken to succeed (see [max_channels]); what is left is the
    validation that [torch.nn] performs on the arguments. *)
Definition ConvBlock : Type := list Layer.

Definition ConvBlock_init (name : string) (in_channels out_channels : nat)
    (dropout_p : float) : Result ConvBlock :=
  (drop <-- Dropout_init PlainDrop dropout_p ;;
   Ok [ Conv (name ++ ".0") 2 in_channels out_channels 3 1 1;
        BatchNorm (name ++ ".1") 2 out_channels;
        LeakyReLU;
        drop;
        Conv (name ++ ".4") 2 out_channels out_channels 3 1 1;
        BatchNorm (name ++ ".5") 2 out_channels;
        LeakyReLU ])%res.

Definition ConvBlock_forward {Self} (training : bool) (cb : ConvBlock)
    (x : Tensor) : M Self Tensor :=
  sequential training cb x.

(** The dropouts sit in a plain Python list, not in a registered
    container, so they stay in training mode whatever the model's mode. *)
Record PertDropout : Type := mkPert {
  p : float;
  dropouts : list Layer;
  len : nat
}.

Definition PertDropout_init (p : float) : Result PertDropout :=
  (weak <-- Dropout_init Drop2d (p * 0.5)%float ;;
   strong <-- Dropout_init Drop2d (p * 1.5)%float ;;
   let ds := [weak; strong] in
   Ok (mkPert p ds (List.length ds)))%res.

Definition PertDropout_len (pd : PertDropout) : nat := len pd.

Definition PertDropout_forward {Self} (pd : PertDropout) (x : list Tensor)
    : M Self (list (list Tensor)) :=
  log EvPert ;;;
  mapM (fun pert_dropout =>
          mapM (fun feat => apply_layer true pert_dropout feat) x)
       (dropouts pd).

(** [DownBlock.maxpool_conv]. *)
Definition DownBlock : Type := list Layer.

Definition DownBlock_init (name : string) (in_channels out_channels : nat)
    (dropout_p : float) : Result DownBlock :=
  (cb <-- ConvBlock_init (name ++ ".1") in_channels out_channels dropout_p ;;
   Ok (MaxPool 2 2 :: cb))%res.

Definition DownBlock_forward {Self} (training : bool) (db : DownBlock)
    (x : Tensor) : M Self Tensor :=
  sequential training db x.

(** The attribute [conv1x1] exists exactly when [bilinear] is true. *)
Inductive UpSampler : Type :=
| Bilinear (conv1x1 up : Layer)
| Transposed (up : Layer).

Record UpBlock : Type := mkUpBlock {
  sampler : UpSampler;
  conv : ConvBlock
}.

Definition UpBlock_init (name : string) (in_channels1 in_channels2
    out_channels : nat) (dropout_p : float) (bilinear : bool) : Result UpBlock :=
  (let smp :=
     if bilinear
     then Bilinear (Conv (name ++ ".conv1x1") 2 in_channels1 in_channels2 1 1 0)
                   (Upsample 2 "bilinear" true)
     else Transposed (ConvTranspose (name ++ ".up") 2 in_channels1 in_channels2 2 2)
   in
   cb <-- ConvBlock_init (name ++ ".conv") (in_channels2 * 2) out_channels
            dropout_p ;;
   Ok (mkUpBlock smp cb))%res.

Definition UpBlock_forward {Self} (training : bool) (ub : UpBlock)
    (x1 x2 : Tensor) : M Self Tensor :=
  x1 <- match sampler ub with
        | Bilinear c1 up =>
            x1 <- apply_layer training c1 x1 ;; apply_layer training up x1
        | Transposed up => apply_layer training up x1
        end ;;
  x <- torch_cat 1 x2 x1 ;;
  ConvBlock_forward training (conv ub) x.

Record Encoder : Type := mkEncoder {
  enc_params : Params;
  in_conv : ConvBlock;
  down1 : DownBlock;
  down2 : DownBlock;
  down3 : DownBlock;
  down4 : DownBlock
}.

Definition Encoder_init (params : Params) : Result Encoder :=
  (let ft_chns := feature_chns params in
   let dropout := dropout params in
   if negb (List.length ft_chns =? 5) then Raise AssertionError else
   c0 <-- py_index ft_chns 0 ;;
   p0 <-- py_index dropout 0 ;;
   in_conv <-- ConvBlock_init "encoder.in_conv" (in_chns params) c0 p0 ;;
   c0 <-- py_index ft_chns 0 ;;
   c1 <-- py_index ft_chns 1 ;;
   p1 <-- py_index dropout 1 ;;
   down1 <-- DownBlock_init "encoder.down1" c0 c1 p1 ;;
   c1 <-- py_index ft_chns 1 ;;
   c2 <-- py_index ft_chns 2 ;;
   p2 <-- py_index dropout 2 ;;
   down2 <-- DownBlock_init "encoder.down2" c1 c2 p2 ;;
   c2 <-- py_index ft_chns 2 ;;
   c3 <-- py_index ft_chns 3 ;;
   p3 <-- py_index dropout 3 ;;
   down3 <-- DownBlock_init "encoder.down3" c2 c3 p3 ;;
   c3 <-- py_index ft_chns 3 ;;
   c4 <-- py_index ft_chns 4 ;;
   p4 <-- py_index dropout 4 ;;
   down4 <-- DownBlock_init "encoder.down4" c3 c4 p4 ;;
   Ok (mkEncoder params in_conv down1 down2 down3 down4))%res.

Definition Encoder_forward {Self} (training : bool) (enc : Encoder)
    (x : Tensor) : M Self (list Tensor) :=
  log EvEncoder ;;;
  x0 <- ConvBlock_forward training (in_conv enc) x ;;
  x1 <- DownBlock_forward training (down1 enc) x0 ;;
  x2 <- DownBlock_forward training (down2 enc) x1 ;;
  x3 <- DownBlock_forward training (down3 enc) x2 ;;
  x4 <- DownBlock_forward training (down4 enc) x3 ;;
  ret [x0; x1; x2; x3; x4].

Record Decoder : Type := mkDecoder {
  dec_params : Params;
  up1 : UpBlock;
  up2 : UpBlock;
  up3 : UpBlock;
  up4 : UpBlock;
  out_conv : Layer
}.

(** [UpBlock] is called without [bilinear], so its default [True] applies
    whatever [params['bilinear']] says. *)
Definition Decoder_init (params : Params) : Result Decoder :=
  (let ft_chns := feature_chns params in
   if negb (List.length ft_chns =? 5) then Raise AssertionError else
   c4 <-- py_index ft_chns 4 ;;
   c3 <-- py_index ft_chns 3 ;;
   up1 <-- UpBlock_init "decoder.up1" c4 c3 c3 0%float true ;;
   c2 <-- py_index ft_chns 2 ;;
   up2 <-- UpBlock_init "decoder.up2" c3 c2 c2 0%float true ;;
   c1 <-- py_index ft_chns 1 ;;
   up3 <-- UpBlock_init "decoder.up3" c2 c1 c1 0%float true ;;
   c0 <-- py_index ft_chns 0 ;;
   up4 <-- UpBlock_init "decoder.up4" c1 c0 c0 0%float true ;;
   Ok (mkDecoder params up1 up2 up3 up4
         (Conv "decoder.out_conv" 2 c0 (class_num params) 3 1 1)))%res.

Definition Decoder_forward {Self} (training : bool) (dec : Decoder)
    (feature : list Tensor) : M Self Tensor :=
  log EvDecoder ;;;
  x0 <- feat_index feature 0 ;;
  x1 <- feat_index feature 1 ;;
  x2 <- feat_index feature 2 ;;
  x3 <- feat_index feature 3 ;;
  x4 <- feat_index feature 4 ;;
  x <- UpBlock_forward training (up1 dec) x4 x3 ;;
  x <- UpBlock_forward training (up2 dec) x x2 ;;
  x <- UpBlock_forward training (up3 dec) x x1 ;;
  x <- UpBlock_forward training (up4 dec) x x0 ;;
  apply_layer training (out_conv dec) x.

(** The model object.  [training] is the mode shared by all registered
    submodules ([model.train()] / [model.eval()]). *)
Record UNet : Type := mkUNet {
  encoder : Encoder;
  decoder : Decoder;
  pert : PertDropout;
  training : bool
}.

Definition UNet_init (in_chns class_num : nat) : Result UNet :=
  (let params :=
     mkParams in_chns [16; 32; 64; 128; 256]
              [0.05; 0.1; 0.2; 0.3; 0.5]%float
              class_num false "relu" in
   encoder <-- Encoder_init params ;;
   decoder <-- Decoder_init params ;;
   pert <-- PertDropout_init 0.5%float ;;
   Ok (mkUNet encoder decoder pert true))%res.

(** The split loop of the ["strong"] branch: [f1, f2 = feats.chunk(2)]. *)
Definition split_halves {Self} (feature : list Tensor)
    : M Self (list (Tensor * Tensor)) :=
  mapM (fun feats => cs <- chunk2 feats ;; unpack2 cs) feature.

(** One iteration of the masking loop of the ["strong"] branch. *)
Definition mask_pair {Self} (p_keep : Q) (f12 : Tensor * Tensor)
    : M Self (Tensor * Tensor * Tensor) :=
  let '(f1, f2) := f12 in
  mask <- rand_mask p_keep f1 ;;
  weak_f <- torch_mul f1 mask ;;
  strong_f <- torch_mul f2 (one_minus mask) ;;
  complete_f <- torch_add weak_f strong_f ;;
  ret (weak_f, strong_f, complete_f).

(** [UNet.forward].  The parameters [need_ema], [both], [drop_rate] and
    [global_conf] are accepted and never read. *)
Definition forward (m : UNet) (x : Tensor) (need_fp : bool)
    (input_type : string) : M unit Output :=
  let dec := Decoder_forward (training m) (decoder m) in
  let plain feature := output <- dec feature ;; ret (Single output) in
  feature <- Encoder_forward (training m) (encoder m) x ;;
  if need_fp then
    if (input_type =? "normal")%string then
      cat <- mapM (fun feat =>
                     d <- apply_layer true (Dropout Drop2d 0.5%float) feat ;;
                     torch_cat 0 feat d) feature ;;
      outs <- dec cat ;;
      cs <- chunk2 outs ;;
      ret (Tuple cs)
    else if (input_type =? "strong")%string then
      let p_keep := (7 # 10)%Q in
      halves <- split_halves feature ;;
      let features1 := map fst halves in
      let features2 := map snd halves in
      masked <- mapM (mask_pair p_keep) (combine features1 features2) ;;
      let weak_features := map (fun t => fst (fst t)) masked in
      let strong_features := map (fun t => snd (fst t)) masked in
      let complete_features := map snd masked in
      pred_u_s1_clean <- dec features1 ;;
      pred_u_s2_clean <- dec features2 ;;
      pred_u_s1_weak <- dec weak_features ;;
      pred_u_s2_strong <- dec strong_features ;;
      pred_complete <- dec complete_features ;;
      ret (Tuple [pred_u_s1_clean; pred_u_s2_clean; pred_u_s1_weak;
                  pred_u_s2_strong; pred_complete])
    else plain feature
  else plain feature.

End UNet.

(* ================================================================== *)
(** ** LA/code/networks/vnet.py *)

Module VNet.

Definition stage_name (name : string) (i : nat) : string :=
  (name ++ "." ++ NilEmpty.string_of_uint (Nat.to_uint i))%string.

(** The normalisation chain of [ConvBlock]:
    [if "batchnorm" .. elif "groupnorm" .. elif "instancenorm" ..
     elif normalization != "none": assert False]. *)
Definition norm_ops (name normalization : string) (n_filters_out : nat)
    : Result (list Layer) :=
  (if (normalization =? "batchnorm")%string then
     Ok [BatchNorm name 3 n_filters_out]
   else if (normalization =? "groupnorm")%string then
     g <-- GroupNorm_init name 16 n_filters_out ;; Ok [g]
   else if (normalization =? "instancenorm")%string then
     Ok [InstanceNorm 3 n_filters_out]
   else if negb (normalization =? "none")%string then
     Raise AssertionError
   else Ok [])%res.

(** The body of [for i in range(n_stages)], run for [i, i+1, ...].  The
    stage's [nn.Conv3d] is constructed before the normalisation chain is
    looked at; its construction is taken to succeed (see
    [max_channels]). *)
Fixpoint ConvBlock_stages (name : string) (i todo : nat)
    (n_filters_in n_filters_out : nat) (normalization : string)
    : Result (list Layer) :=
  match todo with
  | 0 => Ok []
  | S todo' =>
      (let input_channel := if i =? 0 then n_filters_in else n_filters_out in
       let conv := Conv (stage_name name i) 3 input_channel n_filters_out 3 1 1 in
       norm <-- norm_ops (stage_name name i) normalization n_filters_out ;;
       rest <-- ConvBlock_stages name (S i) todo' n_filters_in n_filters_out
                  normalization ;;
       Ok (conv :: norm ++ ReLU :: rest))%res
  end.

(** [ConvBlock.conv]. *)
Definition ConvBlock : Type := list Layer.

Definition ConvBlock_init (name : string) (n_stages n_filters_in
    n_filters_out : nat) (normalization : string) : Result ConvBlock :=
  ConvBlock_stages name 0 n_stages n_filters_in n_filters_out normalization.

(** The normalisation chain of the two resampling blocks, entered only
    when [normalization != "none"]: its last branch is [else: assert False]. *)
Definition resample_norm (name normalization : string) (n_filters_out : nat)
    : Result (list Layer) :=
  (if (normalization =? "batchnorm")%string then
     Ok [BatchNorm name 3 n_filters_out]
   else if (normalization =? "groupnorm")%string then
     g <-- GroupNorm_init name 16 n_filters_out ;; Ok [g]
   else if (normalization =? "instancenorm")%string then
     Ok [InstanceNorm 3 n_filters_out]
   else Raise AssertionError)%res.

Definition DownsamplingConvBlock_init (name : string) (n_filters_in
    n_filters_out stride : nat) (normalization : string)
    : Result (list Layer) :=
  (let conv := Conv name 3 n_filters_in n_filters_out stride stride 0 in
   if negb (normalization =? "none")%string then
     norm <-- resample_norm name normalization n_filters_out ;;
     Ok (conv :: norm ++ [ReLU])
   else Ok [conv; ReLU])%res.

Definition UpsamplingDeconvBlock_init (name : string) (n_filters_in
    n_filters_out stride : nat) (normalization : string)
    : Result (list Layer) :=
  (let conv := ConvTranspose name 3 n_filters_in n_filters_out stride stride in
   if negb (normalization =? "none")%string then
     norm <-- resample_norm name normalization n_filters_out ;;
     Ok (conv :: norm ++ [ReLU])
   else Ok [conv; ReLU])%res.

Record PertDropout : Type := mkPert {
  p : float;
  dropouts : list Layer;
  len : nat
}.

(** The [dropout_type] dict: a missing key raises [KeyError]. *)
Definition dropout_type (type : string) : Result DropKind :=
  if (type =? "dropout")%string then Ok Drop3d
  else if (type =? "alpha")%string then Ok AlphaDrop
  else if (type =? "feature")%string then Ok FeatureAlpha
  else Raise KeyError.

Definition PertDropout_init (p : float) (type : string)
    : Result PertDropout :=
  (let top := (0.5 + p / 2)%float in
   let bottom := (0.5 - p / 2)%float in
   k <-- dropout_type type ;;
   weak <-- Dropout_init k bottom ;;
   k <-- dropout_type type ;;
   strong <-- Dropout_init k top ;;
   let ds := [weak; strong] in
   Ok (mkPert p ds (List.length ds)))%res.

Definition PertDropout_len (pd : PertDropout) : nat := len pd.

Definition PertDropout_forward {Self} (pd : PertDropout) (x : list Tensor)
    : M Self (list (list Tensor)) :=
  log EvPert ;;;
  mapM (fun pert_dropout =>
          mapM (fun feat => apply_layer true pert_dropout feat) x)
       (dropouts pd).

(** The model object, apart from [has_dropout]: that attribute is
    assigned by [forward] and therefore lives in the interpreter state
    ([self_attrs] of type [bool]). *)
Record VNet : Type := mkVNet {
  pert : PertDropout;
  block_one : ConvBlock;
  block_one_dw : list Layer;
  block_two : ConvBlock;
  block_two_dw : list Layer;
  block_three : ConvBlock;
  block_three_dw : list Layer;
  block_four : ConvBlock;
  block_four_dw : list Layer;
  block_five : ConvBlock;
  block_five_up : list Layer;
  block_six : ConvBlock;
  block_six_up : list Layer;
  block_seven : ConvBlock;
  block_seven_up : list Layer;
  block_eight : ConvBlock;
  block_eight_up : list Layer;
  block_nine : ConvBlock;
  out_conv : Layer;
  dropout : Layer;
  training : bool
}.

(** [VNet.__init__]; returns the object and the initial value of its
    [has_dropout] attribute. *)
Definition VNet_init (n_channels n_classes n_filters : nat)
    (normalization : string) (has_dropout : bool) (pert_gap : float)
    (pert_type : string) : Result (VNet * bool) :=
  (let nf := n_filters in
   let nm := normalization in
   pert <-- PertDropout_init pert_gap pert_type ;;
   b1 <-- ConvBlock_init "block_one" 1 n_channels nf nm ;;
   b1d <-- DownsamplingConvBlock_init "block_one_dw" nf (2 * nf) 2 nm ;;
   b2 <-- ConvBlock_init "block_two" 2 (nf * 2) (nf * 2) nm ;;
   b2d <-- DownsamplingConvBlock_init "block_two_dw" (nf * 2) (nf * 4) 2 nm ;;
   b3 <-- ConvBlock_init "block_three" 3 (nf * 4) (nf * 4) nm ;;
   b3d <-- DownsamplingConvBlock_init "block_three_dw" (nf * 4) (nf * 8) 2 nm ;;
   b4 <-- ConvBlock_init "block_four" 3 (nf * 8) (nf * 8) nm ;;
   b4d <-- DownsamplingConvBlock_init "block_four_dw" (nf * 8) (nf * 16) 2 nm ;;
   b5 <-- ConvBlock_init "block_five" 3 (nf * 16) (nf * 16) nm ;;
   b5u <-- UpsamplingDeconvBlock_init "block_five_up" (nf * 16) (nf * 8) 2 nm ;;
   b6 <-- ConvBlock_init "block_six" 3 (nf * 8) (nf * 8) nm ;;
   b6u <-- UpsamplingDeconvBlock_init "block_six_up" (nf * 8) (nf * 4) 2 nm ;;
   b7 <-- ConvBlock_init "block_seven" 3 (nf * 4) (nf * 4) nm ;;
   b7u <-- UpsamplingDeconvBlock_init "block_seven_up" (nf * 4) (nf * 2) 2 nm ;;
   b8 <-- ConvBlock_init "block_eight" 2 (nf * 2) (nf * 2) nm ;;
   b8u <-- UpsamplingDeconvBlock_init "block_eight_up" (nf * 2) nf 2 nm ;;
   b9 <-- ConvBlock_init "block_nine" 1 nf nf nm ;;
   drop <-- Dropout_init Drop3d 0.5%float ;;
   Ok (mkVNet pert b1 b1d b2 b2d b3 b3d b4 b4d b5 b5u b6 b6u b7 b7u b8 b8u b9
         (Conv "out_conv" 3 nf n_classes 1 1 0) drop true,
       has_dropout))%res.

Definition encoder (m : VNet) (input : Tensor) : M bool (list Tensor) :=
  let run := sequential (training m) in
  log EvEncoder ;;;
  x1 <- run (block_one m) input ;;
  x1_dw <- run (block_one_dw m) x1 ;;
  x2 <- run (block_two m) x1_dw ;;
  x2_dw <- run (block_two_dw m) x2 ;;
  x3 <- run (block_three m) x2_dw ;;
  x3_dw <- run (block_three_dw m) x3 ;;
  x4 <- run (block_four m) x3_dw ;;
  x4_dw <- run (block_four_dw m) x4 ;;
  x5 <- run (block_five m) x4_dw ;;
  has_dropout <- (get_self : M bool bool) ;;
  x5 <- (if has_dropout then apply_layer (training m) (dropout m) x5
         else ret x5) ;;
  ret [x1; x2; x3; x4; x5].

Definition decoder (m : VNet) (features : list Tensor) (no_drop : bool)
    : M bool Tensor :=
  let run := sequential (training m) in
  log EvDecoder ;;;
  x1 <- feat_index features 0 ;;
  x2 <- feat_index features 1 ;;
  x3 <- feat_index features 2 ;;
  x4 <- feat_index features 3 ;;
  x5 <- feat_index features 4 ;;
  x5_up <- run (block_five_up m) x5 ;;
  x5_up <- torch_add x5_up x4 ;;
  x6 <- run (block_six m) x5_up ;;
  x6_up <- run (block_six_up m) x6 ;;
  x6_up <- torch_add x6_up x3 ;;
  x7 <- run (block_seven m) x6_up ;;
  x7_up <- run (block_seven_up m) x7 ;;
  x7_up <- torch_add x7_up x2 ;;
  x8 <- run (block_eight m) x7_up ;;
  x8_up <- run (block_eight_up m) x8 ;;
  x8_up <- torch_add x8_up x1 ;;
  x9 <- run (block_nine m) x8_up ;;
  x9 <- (if negb no_drop then
           has_dropout <- (get_self : M bool bool) ;;
           if has_dropout then apply_layer (training m) (dropout m) x9
           else ret x9
         else ret x9) ;;
  apply_layer (training m) (out_conv m) x9.

Definition split_halves (features : list Tensor)
    : M bool (list (Tensor * Tensor)) :=
  mapM (fun feats => cs <- chunk2 feats ;; unpack2 cs) features.

Definition mask_pair (p_keep : Q) (f12 : Tensor * Tensor)
    : M bool (Tensor * Tensor * Tensor) :=
  let '(f1, f2) := f12 in
  mask <- rand_mask p_keep f1 ;;
  weak_f <- torch_mul f1 mask ;;
  strong_f <- torch_mul f2 (one_minus mask) ;;
  complete_f <- torch_add weak_f strong_f ;;
  ret (weak_f, strong_f, complete_f).

(** [VNet.forward].  [saved] is the local variable [has_dropout], bound
    only when [turnoff_drop] holds. *)
Definition forward (m : VNet) (input : Tensor) (turnoff_drop need_fp : bool)
    (input_type : string) : M bool Output :=
  saved <- (if turnoff_drop
            then has_dropout <- (get_self : M bool bool) ;;
                 set_self false ;;; ret (Some has_dropout)
            else ret None) ;;
  features <- encoder m input ;;
  let tail :=
    out <- decoder m features false ;;
    (if turnoff_drop
     then match saved with
          | Some has_dropout => set_self has_dropout
          | None => ret tt
          end
     else ret tt) ;;;
    ret (Single out) in
  if need_fp then
    if (input_type =? "normal")%string then
      features_perturbed <-
        mapM (fun feat => apply_layer (training m) (dropout m) feat) features ;;
      combined_features <-
        mapM (fun fp => torch_cat 0 (fst fp) (snd fp))
             (combine features features_perturbed) ;;
      outs <- decoder m combined_features true ;;
      cs <- chunk2 outs ;;
      ret (Tuple cs)
    else if (input_type =? "strong")%string then
      let p_keep := (7 # 10)%Q in
      halves <- split_halves features ;;
      let features1 := map fst halves in
      let features2 := map snd halves in
      masked <- mapM (mask_pair p_keep) (combine features1 features2) ;;
      let weak_features := map (fun t => fst (fst t)) masked in
      let strong_features := map (fun t => snd (fst t)) masked in
      let complete_features := map snd masked in
      pred_u_s1_clean <- decoder m features1 false ;;
      pred_u_s2_clean <- decoder m features2 false ;;
      pred_u_s1_weak <- decoder m weak_features false ;;
      pred_u_s2_strong <- decoder m strong_features false ;;
      pred_complete <- decoder m complete_features false ;;
      ret (Tuple [pred_u_s1_clean; pred_u_s2_clean; pred_u_s1_weak;
                  pred_u_s2_strong; pred_complete])
    else tail
  else tail.

End VNet.

(* ------------------------------------------------------------------ *)
(** *** The blocks of vnet.py that [VNet] does not instantiate *)

Module VNetBlocks.

(** The body of [for i in range(n_stages)] of [ResidualConvBlock]: as in
    [ConvBlock], but the ReLU is appended only [if i != n_stages - 1]. *)
Fixpoint ResidualConvBlock_stages (name : string) (i todo n_stages : nat)
    (n_filters_in n_filters_out : nat) (normalization : string)
    : Result (list Layer) :=
  match todo with
  | 0 => Ok []
  | S todo' =>
      (let input_channel := if i =? 0 then n_filters_in else n_filters_out in
       let conv :=
         Conv (VNet.stage_name name i) 3 input_channel n_filters_out 3 1 1 in
       norm <-- VNet.norm_ops (VNet.stage_name name i) normalization
                  n_filters_out ;;
       let relu := if negb (i =? n_stages - 1) then [ReLU] else [] in
       rest <-- ResidualConvBlock_stages name (S i) todo' n_stages
                  n_filters_in n_filters_out normalization ;;
       Ok (conv :: norm ++ relu ++ rest))%res
  end.

Record ResidualConvBlock : Type := mkResidual {
  conv : list Layer;
  relu : Layer
}.

Definition ResidualConvBlock_init (name : string) (n_stages n_filters_in
    n_filters_out : nat) (normalization : string) : Result ResidualConvBlock :=
  (ops <-- ResidualConvBlock_stages name 0 n_stages n_stages n_filters_in
             n_filters_out normalization ;;
   Ok (mkResidual ops ReLU))%res.

(** [x = self.conv(x) + x; x = self.relu(x)]. *)
Definition ResidualConvBlock_forward {Self} (training : bool)
    (rb : ResidualConvBlock) (x : Tensor) : M Self Tensor :=
  y <- sequential training (conv rb) x ;;
  x <- torch_add y x ;;
  apply_layer training (relu rb) x.



End VNetBlocks.

(* ================================================================== *)
(** ** Vocabulary of the statements *)

Definition is_ok {A} (r : Result A) : bool :=
  match r with Ok _ => true | Raise _ => false end.

(** A computation that touches nothing but the random generator. *)
Definition frame {Self A} (m : M Self A) : Prop :=
  forall w, trace (fst (m w)) = trace w /\ self_attrs (fst (m w)) = self_attrs w.

(** A computation that makes exactly one log entry [ev] and otherwise
    touches nothing but the random generator. *)
Definition logs_once {Self A} (ev : Event) (m : M Self A) : Prop :=
  forall w,
    trace (fst (m w)) = ev :: trace w /\ self_attrs (fst (m w)) = self_attrs w.

(** A computation whose only log entries are decoder invocations: at most
    [k] of them, and exactly [k] when it returns. *)
Definition decodes {Self A} (k : nat) (m : M Self A) : Prop :=
  forall w, exists j,
    j <= k /\
    trace (fst (m w)) = repeat EvDecoder j ++ trace w /\
    (is_ok (snd (m w)) = true -> j = k).

(** The shape an [nn.Sequential] yields, layer after layer. *)
Fixpoint seq_shape (training : bool) (ops : list Layer) (s : Shape)
    : Result Shape :=
  match ops with
  | [] => Ok s
  | l :: ops' =>
      match layer_shape training l s with
      | Ok s' => seq_shape training ops' s'
      | Raise e => Raise e
      end
  end.

(** Rank [r] and batch size [n] of a shape. *)
Definition lead (n r : nat) (s : Shape) : Prop :=
  List.length s = r /\ hd 0 s = n.

Definition output_arity (o : Output) : option nat :=
  match o with
  | Single _ => None
  | Tuple ts => Some (List.length ts)
  end.

Definition output_tensors (o : Output) : list Tensor :=
  match o with
  | Single t => [t]
  | Tuple ts => ts
  end.

(** The model with its [pert] attribute replaced. *)
Definition UNet_with_pert (m : UNet.UNet) (pd : UNet.PertDropout) : UNet.UNet :=
  UNet.mkUNet (UNet.encoder m) (UNet.decoder m) pd (UNet.training m).

Definition VNet_with_pert (m : VNet.VNet) (pd : VNet.PertDropout) : VNet.VNet :=
  VNet.mkVNet pd (VNet.block_one m) (VNet.block_one_dw m) (VNet.block_two m)
    (VNet.block_two_dw m) (VNet.block_three m) (VNet.block_three_dw m)
    (VNet.block_four m) (VNet.block_four_dw m) (VNet.block_five m)
    (VNet.block_five_up m) (VNet.block_six m) (VNet.block_six_up m)
    (VNet.block_seven m) (VNet.block_seven_up m) (VNet.block_eight m)
    (VNet.block_eight_up m) (VNet.block_nine m) (VNet.out_conv m)
    (VNet.dropout m) (VNet.training m).

(** [p] is what one decoder invocation of the model returns on [fs]. *)
Definition UNet_decoded (m : UNet.UNet) (fs : list Tensor) (p : Tensor) : Prop :=
  exists wa wb : World unit,
    UNet.Decoder_forward (UNet.training m) (UNet.decoder m) fs wa = (wb, Ok p).

Definition VNet_decoded (m : VNet.VNet) (fs : list Tensor) (p : Tensor) : Prop :=
  exists wa wb, VNet.decoder m fs false wa = (wb, Ok p).

(** The feature lists of the ["strong"] branch, read off the split halves
    and the masked triples. *)
Definition features1 (halves : list (Tensor * Tensor)) : list Tensor :=
  map fst halves.

Definition features2 (halves : list (Tensor * Tensor)) : list Tensor :=
  map snd halves.

Definition weak_features (masked : list (Tensor * Tensor * Tensor)) : list Tensor :=
  map (fun t => fst (fst t)) masked.

Definition strong_features (masked : list (Tensor * Tensor * Tensor)) : list Tensor :=
  map (fun t => snd (fst t)) masked.

Definition complete_features (masked : list (Tensor * Tensor * Tensor)) : list Tensor :=
  map snd masked.

(* ------------------------------------------------------------------ *)
(** *** Concrete models and inputs used in examples *)

Definition empty_params : UNet.Params :=
  UNet.mkParams 0 [] [] 0 false "".

Definition empty_unet : UNet.UNet :=
  UNet.mkUNet
    (UNet.mkEncoder empty_params [] [] [] [] [])
    (UNet.mkDecoder empty_params
       (UNet.mkUpBlock (UNet.Transposed ReLU) [])
       (UNet.mkUpBlock (UNet.Transposed ReLU) [])
       (UNet.mkUpBlock (UNet.Transposed ReLU) [])
       (UNet.mkUpBlock (UNet.Transposed ReLU) []) ReLU)
    (UNet.mkPert 0%float [] 0) true.

Definition empty_vnet : VNet.VNet :=
  VNet.mkVNet (VNet.mkPert 0%float [] 0) [] [] [] [] [] [] [] [] [] [] [] [] [] []
    [] [] [] ReLU ReLU true.

(** [UNet(1, 4)], the model built in the [__main__] block of unet.py. *)
Definition unet_1_4 : UNet.UNet :=
  match UNet.UNet_init 1 4 with
  | Ok m => m
  | Raise _ => empty_unet
  end.

(** [VNet(n_channels=1, n_classes=2)] as in the [__main__] block of vnet.py,
    and the same model built with [has_dropout=True]. *)
Definition vnet_1_2 : VNet.VNet :=
  match VNet.VNet_init 1 2 16 "none" false 0.5%float "dropout" with
  | Ok (m, _) => m
  | Raise _ => empty_vnet
  end.

(** An input batch of [n] samples with [c] channels and the given spatial
    extents. *)
Definition input_of (n c : nat) (spatial : list nat) : Tensor :=
  mkTensor (n :: c :: spatial) (EVar "x").

Definition world0 {Self} (s : Self) : World Self := mkWorld s 0 [].

(* ------------------------------------------------------------------ *)
(** *** Assertions, perturbation lists *)

(** The four values of [normalization] that the VNet blocks accept. *)
Definition valid_norms : list string :=
  ["none"; "batchnorm"; "groupnorm"; "instancenorm"]%string.

(** A result that is not an [AssertionError]. *)
Definition no_assert {A} (r : Result A) : Prop := r <> Raise AssertionError.

(** A computation that never ends in an [AssertionError]. *)
Definition never_asserts {Self A} (m : M Self A) : Prop :=
  forall w, no_assert (snd (m w)).



Definition dropout_p (l : Layer) : float :=
  match l with
  | Dropout _ p => p
  | _ => 0%float
  end.

(* ------------------------------------------------------------------ *)
(** *** The terms built by the ["strong"] branch *)

(** The tensor that a masking product [a * mask] corrupts. *)
Definition corrupted_source (e : Expr) : option Expr :=
  match e with
  | EMul a _ => Some a
  | _ => None
  end.

(** [h] is the pair of batch halves of the feature map [t]. *)
Definition is_split (t : Tensor) (h : Tensor * Tensor) : Prop :=
  expr (fst h) = EChunk 0 (expr t) /\ expr (snd h) = EChunk 1 (expr t).

(** [tr = (weak, strong, complete)] is what one iteration of the masking
    loop makes of the halves [h = (f1, f2)]: one random mask, shaped like
    [f1]; [weak = f1 * mask], [strong = f2 * (1 - mask)] and
    [complete = weak + strong]. *)
Definition is_masked (p_keep : Q) (h : Tensor * Tensor)
    (tr : Tensor * Tensor * Tensor) : Prop :=
  exists seed,
    let mask := EMask seed p_keep (shape (fst h)) in
    expr (fst (fst tr)) = EMul (expr (fst h)) mask /\
    expr (snd (fst tr)) = EMul (expr (snd h)) (EOneMinus mask) /\
    expr (snd tr) = EAdd (expr (fst (fst tr))) (expr (snd (fst tr))).

(* ------------------------------------------------------------------ *)
(** *** Shapes: total and partial specifications *)

(** [m] returns from every state, with a value satisfying [P]. *)
Definition returns_with {Self A} (m : M Self A) (P : A -> Prop) : Prop :=
  forall w, exists w' a, m w = (w', Ok a) /\ P a.

(** Whenever [m] returns, its value satisfies [P]. *)
Definition on_return {Self A} (m : M Self A) (P : A -> Prop) : Prop :=
  forall w w' a, m w = (w', Ok a) -> P a.

(** A computation that leaves the attributes of [self] as they were,
    whether it returns or raises. *)
Definition self_stable {Self A} (m : M Self A) : Prop :=
  forall w, self_attrs (fst (m w)) = self_attrs w.

(** The calls that reach the last lines of [forward]: [need_fp] is false
    or [input_type] names neither perturbation mode. *)
Definition plain_mode (need_fp : bool) (input_type : string) : bool :=
  negb need_fp ||
  (negb (input_type =? "normal")%string &&
   negb (input_type =? "strong")%string).

(** The keys of the [dropout_type] dict of vnet.py's [PertDropout]. *)
Definition dropout_type_keys : list string :=
  ["dropout"; "alpha"; "feature"]%string.

Definition is_relu (l : Layer) : bool :=
  match l with ReLU => true | _ => false end.

Definition is_conv (l : Layer) : bool :=
  match l with Conv _ _ _ _ _ _ _ => true | _ => false end.

(** The layers whose output has the shape of their input. *)
Definition keeps_shape (l : Layer) : bool :=
  match l with
  | BatchNorm _ _ _ | GroupNorm _ _ _ | InstanceNorm _ _
  | ReLU | LeakyReLU | Dropout _ _ => true
  | _ => false
  end.

Definition halve (sp : list nat) : list nat := map (fun x => x / 2) sp.

(** The shapes of a feature pyramid over a batch of [n] samples: level [i]
    has [nth i chns] channels and the spatial extents [sp] halved [i]
    times. *)
Fixpoint pyramid_shapes (n : nat) (chns : list nat) (sp : list nat)
    : list Shape :=
  match chns with
  | [] => []
  | c :: chns' => (n :: c :: sp) :: pyramid_shapes n chns' (halve sp)
  end.

(** When the normalisation layer selected by [normalization] accepts a
    batch of shape [n :: c :: sp]: BatchNorm3d wants more than one value
    per channel in training mode, GroupNorm(16, c) more than one value per
    group, InstanceNorm3d more than one spatial element. *)
Definition norm_passes (training : bool) (normalization : string)
    (n c : nat) (sp : list nat) : Prop :=
  if (normalization =? "batchnorm")%string then
    training = true -> n * prod_dims sp <> 1
  else if (normalization =? "groupnorm")%string then
    n * c / 16 * prod_dims sp <> 1
  else if (normalization =? "instancenorm")%string then
    prod_dims sp <> 1
  else True.

(** The channel counts of the five levels of a VNet with [nf] filters. *)
Definition VNet_chns (nf : nat) : list nat :=
  [nf; nf * 2; nf * 4; nf * 8; nf * 16].

(** The normalisation accepts every level of a list of batch shapes. *)
Definition norms_pass (training : bool) (normalization : string)
    (levels : list Shape) : Prop :=
  Forall (fun s => match s with
                   | n :: c :: sp => norm_passes training normalization n c sp
                   | _ => False
                   end) levels.

(** The blocks of [m] are the ones that [VNet.__init__] builds for
    [n_channels], [n_classes], [n_filters] and [normalization]. *)
Definition VNet_built (n_channels n_classes nf : nat) (nm : string)
    (m : VNet.VNet) : Prop :=
  VNet.ConvBlock_init "block_one" 1 n_channels nf nm = Ok (VNet.block_one m) /\
  VNet.DownsamplingConvBlock_init "block_one_dw" nf (2 * nf) 2 nm
    = Ok (VNet.block_one_dw m) /\
  VNet.ConvBlock_init "block_two" 2 (nf * 2) (nf * 2) nm
    = Ok (VNet.block_two m) /\
  VNet.DownsamplingConvBlock_init "block_two_dw" (nf * 2) (nf * 4) 2 nm
    = Ok (VNet.block_two_dw m) /\
  VNet.ConvBlock_init "block_three" 3 (nf * 4) (nf * 4) nm
    = Ok (VNet.block_three m) /\
  VNet.DownsamplingConvBlock_init "block_three_dw" (nf * 4) (nf * 8) 2 nm
    = Ok (VNet.block_three_dw m) /\
  VNet.ConvBlock_init "block_four" 3 (nf * 8) (nf * 8) nm
    = Ok (VNet.block_four m) /\
  VNet.DownsamplingConvBlock_init "block_four_dw" (nf * 8) (nf * 16) 2 nm
    = Ok (VNet.block_four_dw m) /\
  VNet.ConvBlock_init "block_five" 3 (nf * 16) (nf * 16) nm
    = Ok (VNet.block_five m) /\
  VNet.UpsamplingDeconvBlock_init "block_five_up" (nf * 16) (nf * 8) 2 nm
    = Ok (VNet.block_five_up m) /\
  VNet.ConvBlock_init "block_six" 3 (nf * 8) (nf * 8) nm
    = Ok (VNet.block_six m) /\
  VNet.UpsamplingDeconvBlock_init "block_six_up" (nf * 8) (nf * 4) 2 nm
    = Ok (VNet.block_six_up m) /\
  VNet.ConvBlock_init "block_seven" 3 (nf * 4) (nf * 4) nm
    = Ok (VNet.block_seven m) /\
  VNet.UpsamplingDeconvBlock_init "block_seven_up" (nf * 4) (nf * 2) 2 nm
    = Ok (VNet.block_seven_up m) /\
  VNet.ConvBlock_init "block_eight" 2 (nf * 2) (nf * 2) nm
    = Ok (VNet.block_eight m) /\
  VNet.UpsamplingDeconvBlock_init "block_eight_up" (nf * 2) nf 2 nm
    = Ok (VNet.block_eight_up m) /\
  VNet.ConvBlock_init "block_nine" 1 nf nf nm = Ok (VNet.block_nine m) /\
  VNet.out_conv m = Conv "out_conv" 3 nf n_classes 1 1 0 /\
  VNet.dropout m = Dropout Drop3d 0.5%float.

(* ------------------------------------------------------------------ *)
(** *** The terms built by the ["normal"] branch *)

(** [cs] are the pieces of [outs.chunk(2)], in order: one or two of
    them. *)
Definition is_chunks (outs : Tensor) (cs : list Tensor) : Prop :=
  (List.length cs = 1 \/ List.length cs = 2) /\
  forall i t, nth_error cs i = Some t -> expr t = EChunk i (expr outs).

(** [c] is [torch.cat((f, g))] along the batch axis. *)
Definition is_cat0 (f g c : Tensor) : Prop :=
  expr c = ECat 0 (expr f) (expr g).

(** [g] is what a layer [l] in mode [training] makes of [f]: a fresh random
    dropout of [f] when [l] is a dropout layer in training mode, [f]
    itself when it is one in evaluation mode. *)
Definition is_layer_output (training : bool) (l : Layer) (f g : Tensor)
    : Prop :=
  match l with
  | Dropout _ _ =>
      if training then exists seed, expr g = ERandDrop seed l (expr f)
      else g = f
  | _ => expr g = EApply l (expr f)
  end.

(** [p] is what one decoder invocation with [no_drop=True] returns on
    [fs]. *)
Definition VNet_decoded_no_drop (m : VNet.VNet) (fs : list Tensor)
    (p : Tensor) : Prop :=
  exists wa wb, VNet.decoder m fs true wa = (wb, Ok p).

(* ------------------------------------------------------------------ *)
(** *** Constructors and random draws *)

(** The constructors of [torch.nn] allocate the parameters of the layer
    they build, and fail when a size is more than the machine can hold.
    The embedding leaves allocation out.  What is stated about the outcome
    of a constructor is therefore stated for layers of at most
    [max_channels] channels, the largest count that the configurations of
    the repository itself reach ([feature_chns] up to 256 in unet.py,
    [16 * n_filters] with [n_filters = 16] in vnet.py). *)
Definition max_channels : nat := 256.

Definition modest (c : nat) : Prop := 1 <= c /\ c <= max_channels.

(** A probability that [nn.Dropout] accepts. *)
Definition valid_p (p : float) : Prop :=
  (PrimFloat.ltb p 0 || PrimFloat.ltb 1 p)%bool = false.

(** The [UpBlock] takes the bilinear path: a 1x1 convolution followed by
    [nn.Upsample]. *)
Definition is_bilinear (ub : UNet.UpBlock) : bool :=
  match UNet.sampler ub with
  | UNet.Bilinear _ _ => true
  | UNet.Transposed _ => false
  end.

Definition UNet_up_blocks (d : UNet.Decoder) : list UNet.UpBlock :=
  [UNet.up1 d; UNet.up2 d; UNet.up3 d; UNet.up4 d].

(** The model after [model.eval()]: the same modules, in evaluation
    mode. *)
Definition UNet_eval (m : UNet.UNet) : UNet.UNet :=
  UNet.mkUNet (UNet.encoder m) (UNet.decoder m) (UNet.pert m) false.

Definition VNet_eval (m : VNet.VNet) : VNet.VNet :=
  VNet.mkVNet (VNet.pert m) (VNet.block_one m) (VNet.block_one_dw m)
    (VNet.block_two m) (VNet.block_two_dw m) (VNet.block_three m)
    (VNet.block_three_dw m) (VNet.block_four m) (VNet.block_four_dw m)
    (VNet.block_five m) (VNet.block_five_up m) (VNet.block_six m)
    (VNet.block_six_up m) (VNet.block_seven m) (VNet.block_seven_up m)
    (VNet.block_eight m) (VNet.block_eight_up m) (VNet.block_nine m)
    (VNet.out_conv m) (VNet.dropout m) false.

(** A computation that leaves the random generator where it was, whether
    it returns or raises. *)
Definition rng_stable {Self A} (m : M Self A) : Prop :=
  forall w, rng (fst (m w)) = rng w.

(** A computation that has drawn exactly [k] seeds whenever it returns. *)
Definition draws {Self A} (k : nat) (m : M Self A) : Prop :=
  forall w w' a, m w = (w', Ok a) -> rng w' = rng w + k.

(* ================================================================== *)
(** ** The monad: running a bind *)

Section MonadFacts.
Context {Self : Type}.

Lemma bind_Ok {A B} (m : M Self A) (f : A -> M Self B) w w' a :
  m w = (w', Ok a) -> bind m f w = f a w'.
Proof. intros H. unfold bind. now rewrite H. Qed.

Lemma bind_Raise {A B} (m : M Self A) (f : A -> M Self B) w w' e :
  m w = (w', Raise e) -> bind m f w = (w', Raise e).
Proof. intros H. unfold bind. now rewrite H. Qed.

Lemma bind_inv {A B} (m : M Self A) (f : A -> M Self B) w w' b :
  bind m f w = (w', Ok b) ->
  exists w1 a, m w = (w1, Ok a) /\ f a w1 = (w', Ok b).
Proof.
  unfold bind. destruct (m w) as [w1 [a | e]]; intros H.
  - now exists w1, a.
  - discriminate.
Qed.

Lemma frame_ret {A} (a : A) : frame (ret (Self := Self) a).
Proof. intros w. now split. Qed.

Lemma frame_raise {A} e : frame (raise (Self := Self) (A := A) e).
Proof. intros w. now split. Qed.

Lemma frame_lift {A} (r : Result A) : frame (lift (Self := Self) r).
Proof. intros w. now split. Qed.

Lemma frame_fresh : frame (fresh (Self := Self)).
Proof. intros w. now split. Qed.

Lemma frame_get_self : frame (get_self (Self := Self)).
Proof. intros w. now split. Qed.

Lemma frame_bind {A B} (m : M Self A) (f : A -> M Self B) :
  frame m -> (forall a, frame (f a)) -> frame (bind m f).
Proof.
  intros Hm Hf w. unfold bind. specialize (Hm w).
  destruct (m w) as [w1 [a | e]]; cbn [fst] in *.
  - destruct (Hf a w1) as [H1 H2]. destruct Hm as [H3 H4].
    split; congruence.
  - exact Hm.
Qed.

Lemma frame_mapM {A B} (f : A -> M Self B) l :
  (forall a, frame (f a)) -> frame (mapM f l).
Proof.
  intros Hf. induction l as [| a l IH]; cbn [mapM].
  - apply frame_ret.
  - apply frame_bind; [apply Hf |]. intros b.
    apply frame_bind; [exact IH |]. intros bs. apply frame_ret.
Qed.

Lemma logs_once_bind {A} ev (m : M Self A) :
  frame m -> logs_once ev (bind (log ev) (fun _ => m)).
Proof.
  intros Hm w. unfold bind, log.
  destruct (Hm (mkWorld (self_attrs w) (rng w) (ev :: trace w))) as [H1 H2].
  split; [exact H1 | exact H2].
Qed.

Lemma frame_apply_layer tr l t : frame (apply_layer (Self := Self) tr l t).
Proof.
  unfold apply_layer. destruct (layer_shape tr l (shape t)).
  - destruct l; try apply frame_ret.
    destruct tr; [| apply frame_ret].
    apply frame_bind; [apply frame_fresh | intros; apply frame_ret].
  - apply frame_raise.
Qed.

Lemma frame_sequential tr ops : forall t,
  frame (sequential (Self := Self) tr ops t).
Proof.
  induction ops as [| l ops IH]; intros t; cbn [sequential].
  - apply frame_ret.
  - apply frame_bind; [apply frame_apply_layer | exact IH].
Qed.

Lemma frame_torch_cat d a b : frame (torch_cat (Self := Self) d a b).
Proof.
  unfold torch_cat. destruct (cat_shape d (shape a) (shape b));
    [apply frame_ret | apply frame_raise].
Qed.

Lemma frame_chunk2 t : frame (chunk2 (Self := Self) t).
Proof.
  unfold chunk2. destruct (shape t); [apply frame_raise | apply frame_ret].
Qed.

Lemma frame_unpack2 l : frame (unpack2 (Self := Self) l).
Proof.
  unfold unpack2. destruct l as [| a [| b [| c l]]];
    try apply frame_raise. apply frame_ret.
Qed.

Lemma frame_rand_mask p t : frame (rand_mask (Self := Self) p t).
Proof.
  unfold rand_mask. apply frame_bind; [apply frame_fresh |].
  intros. apply frame_ret.
Qed.

Lemma frame_torch_mul a b : frame (torch_mul (Self := Self) a b).
Proof.
  unfold torch_mul. destruct (broadcast (shape a) (shape b));
    [apply frame_ret | apply frame_raise].
Qed.

Lemma frame_torch_add a b : frame (torch_add (Self := Self) a b).
Proof.
  unfold torch_add. destruct (broadcast (shape a) (shape b));
    [apply frame_ret | apply frame_raise].
Qed.

Lemma frame_feat_index l i : frame (feat_index (Self := Self) l i).
Proof. apply frame_lift. Qed.
End MonadFacts.

Create HintDb frame.

Arguments bind_Ok {Self A B} [m] f [w w' a] _.
Arguments bind_Raise {Self A B} [m] f [w w' e] _.

#[export] Hint Resolve frame_ret frame_raise frame_lift frame_fresh
  frame_get_self frame_apply_layer frame_sequential frame_torch_cat
  frame_chunk2 frame_unpack2 frame_rand_mask frame_torch_mul frame_torch_add
  frame_feat_index : frame.

(** Decompose a goal [frame m] along the binds of [m]. *)
Ltac frame_steps :=
  repeat first
    [ apply frame_bind; [| intros ]
    | apply frame_mapM; intros
    | progress auto with frame
    | match goal with
      | |- frame (match ?x with _ => _ end) => destruct x
      | |- frame (if ?b then _ else _) => destruct b
      | |- frame (let '(_, _) := ?x in _) => destruct x
      end ].

(* ================================================================== *)
(** ** What the blocks of the two models log *)

Section Decodes.
Context {Self : Type}.

Lemma decodes_frame {A} (m : M Self A) : frame m -> decodes 0 m.
Proof.
  intros H w. exists 0. destruct (H w) as [Ht _].
  repeat split; auto.
Qed.

Lemma decodes_logs_once {A} (m : M Self A) :
  logs_once EvDecoder m -> decodes 1 m.
Proof.
  intros H w. exists 1. destruct (H w) as [Ht _].
  repeat split; auto.
Qed.

Lemma decodes_set_self s : decodes 0 (set_self (Self := Self) s).
Proof. intros w. exists 0. repeat split; auto. Qed.

Lemma decodes_bind {A B} k1 k2 (m : M Self A) (f : A -> M Self B) :
  decodes k1 m -> (forall a, decodes k2 (f a)) -> decodes (k2 + k1) (bind m f).
Proof.
  intros Hm Hf w. unfold bind.
  destruct (Hm w) as (j1 & Hj1 & Ht1 & Hk1).
  destruct (m w) as [w1 [a | e]]; cbn [fst snd] in *.
  - destruct (Hf a w1) as (j2 & Hj2 & Ht2 & Hk2).
    exists (j2 + j1). split; [lia |]. split.
    + rewrite Ht2, Ht1, repeat_app, app_assoc. reflexivity.
    + intros Hok. rewrite (Hk2 Hok), (Hk1 eq_refl). reflexivity.
  - exists j1. split; [lia |]. split; [exact Ht1 | discriminate].
Qed.

Lemma count_repeat_decoder ev j tr :
  ev <> EvDecoder -> count ev (repeat EvDecoder j ++ tr) = count ev tr.
Proof.
  intros Hne. unfold count. induction j as [| j IH]; cbn; auto.
  destruct ev; cbn; auto. congruence.
Qed.

Lemma count_decoder_repeat j tr :
  count EvDecoder (repeat EvDecoder j ++ tr) = j + count EvDecoder tr.
Proof.
  unfold count. induction j as [| j IH]; cbn; auto.
Qed.
End Decodes.

Module UNetLog.
Import UNet.

Lemma frame_UpBlock {Self} tr ub x1 x2 :
  frame (UpBlock_forward (Self := Self) tr ub x1 x2).
Proof.
  unfold UpBlock_forward, ConvBlock_forward. destruct (sampler ub);
    frame_steps.
Qed.

Lemma Encoder_logs {Self} tr enc x :
  logs_once EvEncoder (Encoder_forward (Self := Self) tr enc x).
Proof.
  unfold Encoder_forward. apply logs_once_bind.
  unfold ConvBlock_forward, DownBlock_forward. frame_steps.
Qed.

Lemma Decoder_logs {Self} tr dec feature :
  logs_once EvDecoder (Decoder_forward (Self := Self) tr dec feature).
Proof.
  unfold Decoder_forward. apply logs_once_bind.
  repeat (apply frame_bind; [first [apply frame_feat_index
                                   | apply frame_UpBlock] | intros]).
  apply frame_apply_layer.
Qed.

Lemma frame_split_halves {Self} feature :
  frame (split_halves (Self := Self) feature).
Proof. unfold split_halves. frame_steps. Qed.

Lemma frame_mask_pair {Self} p f12 :
  frame (mask_pair (Self := Self) p f12).
Proof. unfold mask_pair. destruct f12. frame_steps. Qed.
End UNetLog.

Module VNetLog.
Import VNet.

Lemma encoder_logs m x : logs_once EvEncoder (encoder m x).
Proof. unfold encoder. apply logs_once_bind. frame_steps. Qed.

Lemma decoder_logs m features no_drop :
  logs_once EvDecoder (decoder m features no_drop).
Proof.
  unfold decoder. apply logs_once_bind. frame_steps.
Qed.

Lemma frame_vnet_split_halves features : frame (split_halves features).
Proof. unfold split_halves. frame_steps. Qed.

Lemma frame_vnet_mask_pair p f12 : frame (mask_pair p f12).
Proof. unfold mask_pair. destruct f12. frame_steps. Qed.
End VNetLog.

#[export] Hint Resolve UNetLog.frame_UpBlock UNetLog.frame_split_halves
  UNetLog.frame_mask_pair VNetLog.frame_vnet_split_halves VNetLog.frame_vnet_mask_pair
  : frame.

Section DecodesBind.
Context {Self : Type}.

Lemma decodes_bind_quiet {A B} k (m : M Self A) (f : A -> M Self B) :
  decodes 0 m -> (forall a, decodes k (f a)) -> decodes k (bind m f).
Proof.
  intros Hm Hf. replace k with (k + 0) by lia. now apply decodes_bind.
Qed.

Lemma decodes_bind_frame {A B} k (m : M Self A) (f : A -> M Self B) :
  frame m -> (forall a, decodes k (f a)) -> decodes k (bind m f).
Proof. intros Hm. apply decodes_bind_quiet. now apply decodes_frame. Qed.

Lemma decodes_bind_decoder {A B} k (m : M Self A) (f : A -> M Self B) :
  logs_once EvDecoder m -> (forall a, decodes k (f a)) ->
  decodes (S k) (bind m f).
Proof.
  intros Hm Hf. replace (S k) with (k + 1) by lia.
  apply decodes_bind; [now apply decodes_logs_once | exact Hf].
Qed.
End DecodesBind.

(** Decompose a goal [decodes k m] along the binds of [m]. *)
Ltac decodes_steps :=
  repeat first
    [ match goal with
      | |- decodes (S _) (bind (UNet.Decoder_forward _ _ _) _) =>
          apply decodes_bind_decoder; [apply UNetLog.Decoder_logs | intros]
      | |- decodes (S _) (bind (VNet.decoder _ _ _) _) =>
          apply decodes_bind_decoder; [apply VNetLog.decoder_logs | intros]
      end
    | apply decodes_bind_frame; [solve [frame_steps] | intros]
    | apply decodes_bind_quiet; [apply decodes_set_self | intros]
    | apply decodes_set_self
    | apply decodes_frame; solve [frame_steps] ].

Lemma after_logs_once {Self A B} ev k (m : M Self A) (f : A -> M Self B) w :
  logs_once ev m -> (forall a, decodes k (f a)) ->
  exists j,
    trace (fst (bind m f w)) = repeat EvDecoder j ++ ev :: trace w /\
    (is_ok (snd (bind m f w)) = true -> j = k).
Proof.
  intros Hm Hf. unfold bind. destruct (Hm w) as [Ht _].
  destruct (m w) as [w1 [a | e]]; cbn [fst snd] in *.
  - destruct (Hf a w1) as (j & _ & Hj & Hk). exists j.
    split; [rewrite <- Ht; exact Hj | exact Hk].
  - exists 0. split; [exact Ht | discriminate].
Qed.

(** After the encoder entry, the log of a call only grows by decoder
    entries: five in the ["strong"] branch, one otherwise. *)
Lemma UNet_forward_trace m x fp ty w :
  exists j,
    trace (fst (UNet.forward m x fp ty w))
      = repeat EvDecoder j ++ EvEncoder :: trace w /\
    (is_ok (snd (UNet.forward m x fp ty w)) = true ->
     j = if fp && (ty =? "strong")%string then 5 else 1).
Proof.
  unfold UNet.forward. cbv zeta.
  apply after_logs_once; [apply UNetLog.Encoder_logs |].
  intros feature. destruct fp; cbn [andb]; [| decodes_steps].
  destruct (ty =? "normal")%string eqn:En.
  - apply String.eqb_eq in En. subst ty.
    cbn [String.eqb Ascii.eqb Bool.eqb]. decodes_steps.
  - destruct (ty =? "strong")%string; decodes_steps.
Qed.

Lemma after_prelude {Self A B C} ev k (pre : M Self C) (m : M Self A)
    (f : C -> A -> M Self B) w :
  (exists w0 c, pre w = (w0, Ok c) /\ trace w0 = trace w) ->
  logs_once ev m -> (forall c a, decodes k (f c a)) ->
  exists j,
    trace (fst (bind pre (fun c => bind m (f c)) w))
      = repeat EvDecoder j ++ ev :: trace w /\
    (is_ok (snd (bind pre (fun c => bind m (f c)) w)) = true -> j = k).
Proof.
  intros (w0 & c & Hpre & Ht0) Hm Hf.
  pose proof (fun B (g : C -> M Self B) => @bind_Ok Self C B pre g w w0 c Hpre) as E.
  rewrite E. rewrite <- Ht0.
  apply after_logs_once; [exact Hm | apply Hf].
Qed.

Lemma VNet_forward_trace m x td fp ty w :
  exists j,
    trace (fst (VNet.forward m x td fp ty w))
      = repeat EvDecoder j ++ EvEncoder :: trace w /\
    (is_ok (snd (VNet.forward m x td fp ty w)) = true ->
     j = if fp && (ty =? "strong")%string then 5 else 1).
Proof.
  unfold VNet.forward. cbv zeta.
  apply after_prelude.
  - destruct td; do 2 eexists; (split; [reflexivity |]); reflexivity.
  - apply VNetLog.encoder_logs.
  - intros saved features.
    assert (Htail : decodes 1
      (bind (VNet.decoder m features false)
         (fun out =>
            bind (if td
                  then match saved with
                       | Some has_dropout => set_self has_dropout
                       | None => ret tt
                       end
                  else ret tt)
              (fun _ => ret (Single out))))).
    { decodes_steps; destruct td; try destruct saved; decodes_steps. }
    destruct fp; cbn [andb]; [| exact Htail].
    destruct (ty =? "normal")%string eqn:En.
    + apply String.eqb_eq in En. subst ty.
      cbn [String.eqb Ascii.eqb Bool.eqb]. decodes_steps.
    + destruct (ty =? "strong")%string; [decodes_steps | exact Htail].
Qed.

(* ================================================================== *)
(** ** Running framed computations *)

Lemma frame_run {Self A} (m : M Self A) w w' r :
  frame m -> m w = (w', r) ->
  trace w' = trace w /\ self_attrs w' = self_attrs w.
Proof. intros H E. specialize (H w). now rewrite E in H. Qed.

Lemma logs_once_run {Self A} ev (m : M Self A) w w' r :
  logs_once ev m -> m w = (w', r) ->
  trace w' = ev :: trace w /\ self_attrs w' = self_attrs w.
Proof. intros H E. specialize (H w). now rewrite E in H. Qed.

(** Split a hypothesis [bind m f w = (w', Ok b)] into its two runs. *)
Ltac inv_bind H :=
  let w1 := fresh "w" in
  let a := fresh "a" in
  let H1 := fresh "E" in
  apply bind_inv in H; destruct H as (w1 & a & H1 & H).

Lemma ret_inv {Self A} (a b : A) (w w' : World Self) :
  ret a w = (w', Ok b) -> w' = w /\ b = a.
Proof. unfold ret. intros H. inversion H. now split. Qed.

(** Read off what a run of a logging / framed computation leaves behind. *)
Ltac logs_in E Hs :=
  let go lem :=
    pose proof (@logs_once_run _ _ _ _ _ _ _ lem E) as [_ Hs]; clear E in
  match type of E with
  | VNet.decoder ?m ?f ?nd _ = _ => go (VNetLog.decoder_logs m f nd)
  | VNet.encoder ?m ?x _ = _ => go (VNetLog.encoder_logs m x)
  | UNet.Decoder_forward ?t ?d ?f _ = _ =>
      go (UNetLog.Decoder_logs (Self := unit) t d f)
  | UNet.Encoder_forward ?t ?e ?x _ = _ =>
      go (UNetLog.Encoder_logs (Self := unit) t e x)
  end.

Ltac frame_in E Hs :=
  match type of E with
  | ?m ?w = _ =>
      let F := fresh in
      assert (F : frame m) by frame_steps;
      pose proof (@frame_run _ _ _ _ _ _ F E) as [_ Hs]; clear F E
  end.

Lemma unet_1_4_built : UNet.UNet_init 1 4 = Ok unet_1_4.
Proof. reflexivity. Qed.

Lemma vnet_1_2_built :
  VNet.VNet_init 1 2 16 "none" false 0.5%float "dropout"
    = Ok (vnet_1_2, false).
Proof. reflexivity. Qed.

(* ================================================================== *)
(** ** The [has_dropout] attribute across [VNet.forward] *)

(** On the path that reaches the last line of [forward] the attribute is
    put back. *)
Lemma VNet_tail_restores m x td fp ty w w' o :
  fp = false \/ ((ty =? "normal")%string = false /\ (ty =? "strong")%string = false) ->
  VNet.forward m x td fp ty w = (w', Ok o) ->
  self_attrs w' = self_attrs w.
Proof.
  intros Hpath H. unfold VNet.forward in H. cbv zeta in H.
  inv_bind H.
  assert (Hsaved : (td = true -> a = Some (self_attrs w)) /\
                   (td = false -> self_attrs w0 = self_attrs w)).
  { destruct td; cbn in E; inversion E; subst; split; intros; congruence. }
  clear E. inv_bind H.
  logs_in E Hs1.
  assert (Htail :
    bind (VNet.decoder m a0 false)
      (fun out =>
         bind (if td
               then match a with
                    | Some has_dropout => set_self has_dropout
                    | None => ret tt
                    end
               else ret tt)
           (fun _ => ret (Single out))) w1 = (w', Ok o)).
  { destruct Hpath as [-> | [H1 H2]]; [exact H |].
    rewrite H1, H2 in H. destruct fp; exact H. }
  clear H. inv_bind Htail.
  logs_in E Hs2.
  inv_bind Htail. apply ret_inv in Htail as [-> _].
  destruct Hsaved as [Ht Hf]. destruct td.
  - rewrite (Ht eq_refl) in E. cbn in E. inversion E. reflexivity.
  - cbn in E. inversion E. subst. rewrite Hs2, Hs1. now apply Hf.
Qed.

(** On the two early-return paths the attribute stays switched off. *)
Lemma VNet_early_return_skips_restore m x ty w w' o :
  ty = "normal"%string \/ ty = "strong"%string ->
  VNet.forward m x true true ty w = (w', Ok o) ->
  self_attrs w' = false.
Proof.
  intros Hty H.
  unfold VNet.forward in H. cbv zeta in H.
  inv_bind H. cbn in E. inversion E. subst w0 a. clear E.
  inv_bind H.
  logs_in E Hs1.
  cbn [self_attrs] in Hs1.
  destruct Hty as [-> | ->]; cbn [String.eqb Ascii.eqb Bool.eqb] in H.
  - inv_bind H. frame_in E Hs2.
    inv_bind H. frame_in E Hs3.
    inv_bind H.
    logs_in E Hs4.
    inv_bind H. frame_in E Hs5.
    apply ret_inv in H as [-> _]. congruence.
  - inv_bind H. frame_in E Hs2.
    inv_bind H. frame_in E Hs3.
    inv_bind H.
    logs_in E Hs4.
    inv_bind H.
    logs_in E Hs5.
    inv_bind H.
    logs_in E Hs6.
    inv_bind H.
    logs_in E Hs7.
    inv_bind H.
    logs_in E Hs8.
    apply ret_inv in H as [-> _]. congruence.
Qed.

(** C1 (code at the failing input).  A model whose [has_dropout] attribute
    is [True] is called with [turnoff_drop=True], [need_fp=True] and
    [input_type="normal"] on a batch of four 16x16x16 volumes: the call
    returns normally, and [has_dropout] is [False] afterwards.  The
    assignment that restores the attribute sits after the early [return]. *)
Theorem C1_forward_leaves_has_dropout_off :
  let w := world0 true in
  let r := VNet.forward vnet_1_2 (input_of 4 1 [16; 16; 16]) true true
             "normal" w in
  self_attrs w = true /\ is_ok (snd r) = true /\ self_attrs (fst r) = false.
Proof. vm_compute. repeat split. Qed.

(* ================================================================== *)
(** ** One encoder pass, five decodes *)

Lemma UNet_strong_structure m x w w' o :
  UNet.forward m x true "strong" w = (w', Ok o) ->
  exists feature halves masked p1 p2 p3 p4 p5,
    (exists w1, UNet.Encoder_forward (UNet.training m) (UNet.encoder m) x w
                  = (w1, Ok feature)) /\
    (exists wa wb : World unit,
        UNet.split_halves feature wa = (wb, Ok halves)) /\
    (exists wa wb : World unit,
        mapM (UNet.mask_pair (7 # 10)%Q)
          (combine (features1 halves) (features2 halves)) wa
          = (wb, Ok masked)) /\
    o = Tuple [p1; p2; p3; p4; p5] /\
    UNet_decoded m (features1 halves) p1 /\
    UNet_decoded m (features2 halves) p2 /\
    UNet_decoded m (weak_features masked) p3 /\
    UNet_decoded m (strong_features masked) p4 /\
    UNet_decoded m (complete_features masked) p5.
Proof.
  intros H. unfold UNet.forward in H. cbv zeta in H.
  inv_bind H. cbn [String.eqb Ascii.eqb Bool.eqb] in H.
  inv_bind H. inv_bind H. inv_bind H. inv_bind H. inv_bind H. inv_bind H.
  inv_bind H. apply ret_inv in H as [_ ->].
  unfold UNet_decoded, features1, features2, weak_features, strong_features,
    complete_features.
  exists a, a0, a1, a2, a3, a4, a5, a6.
  repeat split; eauto.
Qed.

Lemma VNet_strong_structure m x td w w' o :
  VNet.forward m x td true "strong" w = (w', Ok o) ->
  exists features halves masked p1 p2 p3 p4 p5,
    (exists w0 w1, VNet.encoder m x w0 = (w1, Ok features)) /\
    (exists wa wb, VNet.split_halves features wa = (wb, Ok halves)) /\
    (exists wa wb,
        mapM (VNet.mask_pair (7 # 10)%Q)
          (combine (features1 halves) (features2 halves)) wa
          = (wb, Ok masked)) /\
    o = Tuple [p1; p2; p3; p4; p5] /\
    VNet_decoded m (features1 halves) p1 /\
    VNet_decoded m (features2 halves) p2 /\
    VNet_decoded m (weak_features masked) p3 /\
    VNet_decoded m (strong_features masked) p4 /\
    VNet_decoded m (complete_features masked) p5.
Proof.
  intros H. unfold VNet.forward in H. cbv zeta in H.
  inv_bind H. clear E.
  inv_bind H. cbn [String.eqb Ascii.eqb Bool.eqb] in H.
  inv_bind H. inv_bind H. inv_bind H. inv_bind H. inv_bind H. inv_bind H.
  inv_bind H. apply ret_inv in H as [_ ->].
  unfold VNet_decoded, features1, features2, weak_features, strong_features,
    complete_features.
  exists a0, a1, a2, a3, a4, a5, a6, a7.
  repeat split; eauto.
Qed.

(* ================================================================== *)
(** ** The perturbation module and the forward pass *)

(** C10.  Replacing the [pert] attribute of a model by any other
    perturbation module changes nothing about a forward call: same final
    state (random generator included), same result, for every input and every
    combination of flags.  Nor does any forward call ever enter
    [PertDropout.forward]. *)
Theorem C10_forward_ignores_pert :
  (forall m pd x fp ty w,
      UNet.forward (UNet_with_pert m pd) x fp ty w = UNet.forward m x fp ty w /\
      count EvPert (trace (fst (UNet.forward m x fp ty w)))
        = count EvPert (trace w)) /\
  (forall m pd x td fp ty w,
      VNet.forward (VNet_with_pert m pd) x td fp ty w
        = VNet.forward m x td fp ty w /\
      count EvPert (trace (fst (VNet.forward m x td fp ty w)))
        = count EvPert (trace w)).
Proof.
  split.
  - intros m pd x fp ty w. split; [reflexivity |].
    destruct (UNet_forward_trace m x fp ty w) as (j & Ht & _).
    rewrite Ht, count_repeat_decoder by discriminate. reflexivity.
  - intros m pd x td fp ty w. split; [reflexivity |].
    destruct (VNet_forward_trace m x td fp ty w) as (j & Ht & _).
    rewrite Ht, count_repeat_decoder by discriminate. reflexivity.
Qed.

(* ================================================================== *)
(** ** PertDropout *)




Lemma Dropout_init_ok kind p l :
  Dropout_init kind p = Ok l -> l = Dropout kind p.
Proof.
  unfold Dropout_init. destruct (_ || _)%bool; intros H; now inversion H.
Qed.





(* ================================================================== *)
(** ** Where assertions can fail *)

Lemma no_assert_Ok {A} (a : A) : no_assert (Ok a).
Proof. unfold no_assert. discriminate. Qed.

Lemma no_assert_rbind {A B} (r : Result A) (f : A -> Result B) :
  no_assert r -> (forall a, no_assert (f a)) -> no_assert (rbind r f).
Proof.
  intros Hr Hf. destruct r; cbn; [apply Hf |].
  unfold no_assert in *. intros H. apply Hr. congruence.
Qed.

Lemma no_assert_py_index {A} (l : list A) i : no_assert (py_index l i).
Proof. unfold py_index, no_assert. destruct (nth_error l i); discriminate. Qed.

Lemma no_assert_Dropout_init kind p : no_assert (Dropout_init kind p).
Proof. unfold Dropout_init, no_assert. destruct (_ || _)%bool; discriminate. Qed.

Lemma no_assert_GroupNorm_init name g c : no_assert (GroupNorm_init name g c).
Proof. unfold GroupNorm_init, no_assert. destruct (_ =? _); discriminate. Qed.

Create HintDb noassert.

#[export] Hint Resolve no_assert_Ok no_assert_py_index no_assert_Dropout_init
  no_assert_GroupNorm_init : noassert.

(** Decompose a goal [no_assert r] along the binds of [r]. *)
Ltac no_assert_steps :=
  repeat first
    [ apply no_assert_rbind; [| intros ]
    | progress auto with noassert
    | match goal with
      | |- no_assert (if ?b then _ else _) => destruct b
      | |- no_assert (Raise ?e) => unfold no_assert; discriminate
      end ].

Lemma no_assert_UNet_ConvBlock_init name cin cout p :
  no_assert (UNet.ConvBlock_init name cin cout p).
Proof. unfold UNet.ConvBlock_init. no_assert_steps. Qed.

#[export] Hint Resolve no_assert_UNet_ConvBlock_init : noassert.

Lemma no_assert_DownBlock_init name cin cout p :
  no_assert (UNet.DownBlock_init name cin cout p).
Proof. unfold UNet.DownBlock_init. no_assert_steps. Qed.

Lemma no_assert_UpBlock_init name c1 c2 cout p b :
  no_assert (UNet.UpBlock_init name c1 c2 cout p b).
Proof. unfold UNet.UpBlock_init. cbv zeta. no_assert_steps. Qed.

#[export] Hint Resolve no_assert_DownBlock_init no_assert_UpBlock_init
  : noassert.

Lemma Encoder_init_assert params :
  UNet.Encoder_init params = Raise AssertionError <->
  List.length (UNet.feature_chns params) <> 5.
Proof.
  unfold UNet.Encoder_init. cbv zeta.
  destruct (List.length (UNet.feature_chns params) =? 5) eqn:E; cbn [negb].
  - apply Nat.eqb_eq in E. split; [| congruence].
    intros H. exfalso. revert H.
    match goal with |- ?r = _ -> False => change (no_assert r) end.
    no_assert_steps.
  - apply Nat.eqb_neq in E. split; auto.
Qed.

Lemma Decoder_init_assert params :
  UNet.Decoder_init params = Raise AssertionError <->
  List.length (UNet.feature_chns params) <> 5.
Proof.
  unfold UNet.Decoder_init. cbv zeta.
  destruct (List.length (UNet.feature_chns params) =? 5) eqn:E; cbn [negb].
  - apply Nat.eqb_eq in E. split; [| congruence].
    intros H. exfalso. revert H.
    match goal with |- ?r = _ -> False => change (no_assert r) end.
    no_assert_steps.
  - apply Nat.eqb_neq in E. split; auto.
Qed.

Lemma norm_ops_assert name normalization c :
  VNet.norm_ops name normalization c = Raise AssertionError <->
  ~ In normalization valid_norms.
Proof.
  unfold VNet.norm_ops, valid_norms. cbn [In].
  destruct (normalization =? "batchnorm")%string eqn:Eb.
  { apply String.eqb_eq in Eb. split; [discriminate | intros H; exfalso; auto]. }
  destruct (normalization =? "groupnorm")%string eqn:Eg.
  { apply String.eqb_eq in Eg. split; [| intros H; exfalso; auto 6].
    intros H. exfalso. revert H.
    match goal with |- ?r = _ -> False => change (no_assert r) end.
    no_assert_steps. }
  destruct (normalization =? "instancenorm")%string eqn:Ei.
  { apply String.eqb_eq in Ei. split; [discriminate | intros H; exfalso; auto 6]. }
  destruct (normalization =? "none")%string eqn:En; cbn [negb].
  { apply String.eqb_eq in En. split; [discriminate | intros H; exfalso; auto]. }
  apply String.eqb_neq in Eb, Eg, Ei, En.
  split; [| reflexivity]. intros _ [H | [H | [H | [H | []]]]]; congruence.
Qed.

Lemma resample_norm_assert name normalization c :
  (normalization =? "none")%string = false ->
  (VNet.resample_norm name normalization c = Raise AssertionError <->
   ~ In normalization valid_norms).
Proof.
  intros En. unfold VNet.resample_norm, valid_norms. cbn [In].
  destruct (normalization =? "batchnorm")%string eqn:Eb.
  { apply String.eqb_eq in Eb. split; [discriminate | intros H; exfalso; auto]. }
  destruct (normalization =? "groupnorm")%string eqn:Eg.
  { apply String.eqb_eq in Eg. split; [| intros H; exfalso; auto 6].
    intros H. exfalso. revert H.
    match goal with |- ?r = _ -> False => change (no_assert r) end.
    no_assert_steps. }
  destruct (normalization =? "instancenorm")%string eqn:Ei.
  { apply String.eqb_eq in Ei. split; [discriminate | intros H; exfalso; auto 6]. }
  apply String.eqb_neq in Eb, Eg, Ei, En.
  split; [| reflexivity]. intros _ [H | [H | [H | [H | []]]]]; congruence.
Qed.

Lemma ConvBlock_stages_assert name fin fout normalization :
  forall todo i,
    VNet.ConvBlock_stages name i todo fin fout normalization
      = Raise AssertionError <->
    (1 <= todo /\ ~ In normalization valid_norms).
Proof.
  induction todo as [| todo IH]; intros i; cbn [VNet.ConvBlock_stages].
  - split; [discriminate | intros [H _]; lia].
  - cbv zeta.
    destruct (VNet.norm_ops (VNet.stage_name name i) normalization fout)
      as [norm | e] eqn:En; cbn [rbind].
    + assert (Hvalid : In normalization valid_norms).
      { destruct (in_dec string_dec normalization valid_norms) as [Hin | Hn];
          [exact Hin |].
        apply (norm_ops_assert (VNet.stage_name name i) normalization fout) in Hn.
        congruence. }
      destruct (VNet.ConvBlock_stages name (S i) todo fin fout normalization)
        as [rest | e] eqn:Er; cbn [rbind].
      * split; [discriminate | intros [_ H]; contradiction].
      * split; [| intros [_ H]; contradiction].
        intros H. inversion H. subst e.
        apply IH in Er. destruct Er as [_ Hn]. contradiction.
    + split.
      * intros H. inversion H. subst e. split; [lia |].
        now apply (norm_ops_assert (VNet.stage_name name i) normalization fout).
      * intros [_ Hn].
        apply (norm_ops_assert (VNet.stage_name name i) normalization fout) in Hn.
        congruence.
Qed.

Lemma resample_block_assert (conv : Layer) name normalization c :
  (if negb (normalization =? "none")%string
   then rbind (VNet.resample_norm name normalization c)
          (fun norm => Ok (conv :: norm ++ [ReLU]))
   else Ok [conv; ReLU]) = Raise AssertionError <->
  ~ In normalization valid_norms.
Proof.
  destruct (normalization =? "none")%string eqn:En; cbn [negb].
  - apply String.eqb_eq in En. subst. split; [discriminate |].
    intros H. exfalso. apply H. cbn. auto.
  - rewrite <- (@resample_norm_assert name normalization c En).
    destruct (VNet.resample_norm name normalization c); cbn [rbind];
      split; congruence.
Qed.

(* ------------------------------------------------------------------ *)
(** *** No assertion fails during a forward pass *)

Lemma no_assert_map_res_conv k stride pad sp :
  no_assert (map_res (conv_out k stride pad) sp).
Proof.
  unfold no_assert. induction sp as [| s sp IH]; cbn [map_res];
    [discriminate |].
  unfold conv_out at 1. destruct (k <=? s + 2 * pad); [| discriminate].
  destruct (map_res (conv_out k stride pad) sp); [discriminate | exact IH].
Qed.

Lemma no_assert_layer_shape tr l s : no_assert (layer_shape tr l s).
Proof.
  pose proof no_assert_map_res_conv as Hc. unfold no_assert in *.
  destruct l; cbn [layer_shape]; try discriminate;
    destruct s as [| n0 [| c0 sp0]]; try discriminate;
    repeat match goal with
           | |- (if ?b then _ else _) <> _ => destruct b
           | |- Ok _ <> _ => discriminate
           | |- Raise ValueError <> _ => discriminate
           | |- Raise RuntimeError <> _ => discriminate
           | |- match map_res (conv_out ?k ?st ?p) ?sp with _ => _ end <> _ =>
               specialize (Hc k st p sp);
               destruct (map_res (conv_out k st p) sp);
               [discriminate | exact Hc]
           end.
Qed.

Lemma no_assert_cat_shape : forall d a b, no_assert (cat_shape d a b).
Proof.
  unfold no_assert.
  induction d as [| d IH]; intros [| x a] [| y b]; cbn [cat_shape];
    try discriminate.
  - destruct (shape_eqb a b); discriminate.
  - destruct (x =? y); [| discriminate].
    specialize (IH a b). destruct (cat_shape d a b); [discriminate | exact IH].
Qed.

Lemma no_assert_broadcast_rev : forall a b, no_assert (broadcast_rev a b).
Proof.
  unfold no_assert.
  induction a as [| x a IH]; intros [| y b]; cbn [broadcast_rev];
    try discriminate.
  specialize (IH b). destruct (broadcast_rev a b); [| exact IH].
  destruct (x =? y); [discriminate |].
  destruct (x =? 1); [discriminate |].
  destruct (y =? 1); discriminate.
Qed.

Lemma no_assert_broadcast a b : no_assert (broadcast a b).
Proof.
  unfold broadcast. pose proof (no_assert_broadcast_rev (rev a) (rev b)) as H.
  unfold no_assert in *. destruct (broadcast_rev (rev a) (rev b));
    [discriminate | exact H].
Qed.

Section NeverAsserts.
Context {Self : Type}.

Lemma na_ret {A} (a : A) : never_asserts (ret (Self := Self) a).
Proof. intros w. apply no_assert_Ok. Qed.

Lemma na_raise {A} e :
  e <> AssertionError -> never_asserts (raise (Self := Self) (A := A) e).
Proof. intros He w. cbn. unfold no_assert. congruence. Qed.

Lemma na_lift {A} (r : Result A) :
  no_assert r -> never_asserts (lift (Self := Self) r).
Proof. intros H w. exact H. Qed.

Lemma na_fresh : never_asserts (fresh (Self := Self)).
Proof. intros w. apply no_assert_Ok. Qed.

Lemma na_log ev : never_asserts (log (Self := Self) ev).
Proof. intros w. apply no_assert_Ok. Qed.

Lemma na_get_self : never_asserts (get_self (Self := Self)).
Proof. intros w. apply no_assert_Ok. Qed.

Lemma na_set_self s : never_asserts (set_self (Self := Self) s).
Proof. intros w. apply no_assert_Ok. Qed.

Lemma na_bind {A B} (m : M Self A) (f : A -> M Self B) :
  never_asserts m -> (forall a, never_asserts (f a)) ->
  never_asserts (bind m f).
Proof.
  intros Hm Hf w. unfold bind. specialize (Hm w).
  destruct (m w) as [w1 [a | e]]; cbn [snd] in *.
  - apply Hf.
  - unfold no_assert in *. congruence.
Qed.

Lemma na_mapM {A B} (f : A -> M Self B) l :
  (forall a, never_asserts (f a)) -> never_asserts (mapM f l).
Proof.
  intros Hf. induction l as [| a l IH]; cbn [mapM].
  - apply na_ret.
  - apply na_bind; [apply Hf |]. intros b.
    apply na_bind; [exact IH |]. intros bs. apply na_ret.
Qed.

Lemma na_apply_layer tr l t : never_asserts (apply_layer (Self := Self) tr l t).
Proof.
  unfold apply_layer. pose proof (no_assert_layer_shape tr l (shape t)) as H.
  destruct (layer_shape tr l (shape t)) as [s | e].
  - destruct l; try apply na_ret.
    destruct tr; [| apply na_ret].
    apply na_bind; [apply na_fresh | intros; apply na_ret].
  - apply na_raise. unfold no_assert in H. congruence.
Qed.

Lemma na_sequential tr ops : forall t,
  never_asserts (sequential (Self := Self) tr ops t).
Proof.
  induction ops as [| l ops IH]; intros t; cbn [sequential].
  - apply na_ret.
  - apply na_bind; [apply na_apply_layer | exact IH].
Qed.

Lemma na_torch_cat d a b : never_asserts (torch_cat (Self := Self) d a b).
Proof.
  unfold torch_cat. pose proof (no_assert_cat_shape d (shape a) (shape b)) as H.
  destruct (cat_shape d (shape a) (shape b));
    [apply na_ret | apply na_raise; unfold no_assert in H; congruence].
Qed.

Lemma na_chunk2 t : never_asserts (chunk2 (Self := Self) t).
Proof.
  unfold chunk2. destruct (shape t);
    [apply na_raise; discriminate | apply na_ret].
Qed.

Lemma na_unpack2 l : never_asserts (unpack2 (Self := Self) l).
Proof.
  unfold unpack2. destruct l as [| a [| b [| c l]]];
    try (apply na_raise; discriminate). apply na_ret.
Qed.

Lemma na_rand_mask p t : never_asserts (rand_mask (Self := Self) p t).
Proof.
  unfold rand_mask. apply na_bind; [apply na_fresh | intros; apply na_ret].
Qed.

Lemma na_torch_mul a b : never_asserts (torch_mul (Self := Self) a b).
Proof.
  unfold torch_mul. pose proof (no_assert_broadcast (shape a) (shape b)) as H.
  destruct (broadcast (shape a) (shape b));
    [apply na_ret | apply na_raise; unfold no_assert in H; congruence].
Qed.

Lemma na_torch_add a b : never_asserts (torch_add (Self := Self) a b).
Proof.
  unfold torch_add. pose proof (no_assert_broadcast (shape a) (shape b)) as H.
  destruct (broadcast (shape a) (shape b));
    [apply na_ret | apply na_raise; unfold no_assert in H; congruence].
Qed.

Lemma na_feat_index l i : never_asserts (feat_index (Self := Self) l i).
Proof. apply na_lift. apply no_assert_py_index. Qed.
End NeverAsserts.

#[export] Hint Resolve na_ret na_fresh na_log na_get_self na_set_self
  na_apply_layer na_sequential na_torch_cat na_chunk2 na_unpack2 na_rand_mask
  na_torch_mul na_torch_add na_feat_index : noassert.

(** Decompose a goal [never_asserts m] along the binds of [m]. *)
Ltac na_steps :=
  repeat first
    [ apply na_bind; [| intros ]
    | apply na_mapM; intros
    | progress auto with noassert
    | match goal with
      | |- never_asserts (match ?x with _ => _ end) => destruct x
      | |- never_asserts (if ?b then _ else _) => destruct b
      | |- never_asserts (let '(_, _) := ?x in _) => destruct x
      end ].

Lemma na_UNet_forward m x fp ty : never_asserts (UNet.forward m x fp ty).
Proof.
  unfold UNet.forward, UNet.Encoder_forward, UNet.Decoder_forward,
    UNet.UpBlock_forward, UNet.ConvBlock_forward, UNet.DownBlock_forward,
    UNet.split_halves, UNet.mask_pair.
  cbv zeta. na_steps.
Qed.

Lemma na_VNet_forward m x td fp ty : never_asserts (VNet.forward m x td fp ty).
Proof.
  unfold VNet.forward, VNet.encoder, VNet.decoder, VNet.split_halves,
    VNet.mask_pair.
  cbv zeta. na_steps.
Qed.

(** C5 (as the code has it).  Assertions are checked by constructors only.
    Constructing an [Encoder] or a [Decoder] fails by assertion exactly when
    [feature_chns] does not have length 5.  Constructing a VNet [ConvBlock]
    fails by assertion exactly when [n_stages] is at least 1 and
    [normalization] is not one of the four accepted values: the check sits
    in the body of the loop over the stages, behind the construction of the
    stage's [nn.Conv3d].  The two resampling blocks (with the stride 2 that
    [VNet] uses) fail by assertion exactly when [normalization] is not one
    of the four; there too the convolution is built first.  The three
    statements about the VNet blocks are for channel counts from 1 to
    [max_channels].  No forward call of either model ends in an assertion
    failure. *)
Theorem C5_assertions_at_construction :
  (forall params,
      UNet.Encoder_init params = Raise AssertionError <->
      List.length (UNet.feature_chns params) <> 5) /\
  (forall params,
      UNet.Decoder_init params = Raise AssertionError <->
      List.length (UNet.feature_chns params) <> 5) /\
  (forall name n_stages n_filters_in n_filters_out normalization,
      modest n_filters_in -> modest n_filters_out ->
      (VNet.ConvBlock_init name n_stages n_filters_in n_filters_out
         normalization = Raise AssertionError <->
       (1 <= n_stages /\ ~ In normalization valid_norms))) /\
  (forall name n_filters_in n_filters_out normalization,
      modest n_filters_in -> modest n_filters_out ->
      (VNet.DownsamplingConvBlock_init name n_filters_in n_filters_out 2
         normalization = Raise AssertionError <->
       ~ In normalization valid_norms)) /\
  (forall name n_filters_in n_filters_out normalization,
      modest n_filters_in -> modest n_filters_out ->
      (VNet.UpsamplingDeconvBlock_init name n_filters_in n_filters_out 2
         normalization = Raise AssertionError <->
       ~ In normalization valid_norms)) /\
  (forall m x need_fp input_type,
      never_asserts (UNet.forward m x need_fp input_type)) /\
  (forall m x turnoff_drop need_fp input_type,
      never_asserts (VNet.forward m x turnoff_drop need_fp input_type)).
Proof.
  repeat apply conj.
  - apply Encoder_init_assert.
  - apply Decoder_init_assert.
  - intros. unfold VNet.ConvBlock_init. apply ConvBlock_stages_assert.
  - intros. unfold VNet.DownsamplingConvBlock_init. cbv zeta.
    apply resample_block_assert.
  - intros. unfold VNet.UpsamplingDeconvBlock_init. cbv zeta.
    apply resample_block_assert.
  - apply na_UNet_forward.
  - apply na_VNet_forward.
Qed.

Lemma C5_assertions_at_construction_witness :
  UNet.Encoder_init
    (UNet.mkParams 1 [16; 32; 64] [0.5; 0.5; 0.5]%float 4 false "relu")
    = Raise AssertionError /\
  VNet.ConvBlock_init "block_one" 1 1 16 "layernorm" = Raise AssertionError /\
  VNet.DownsamplingConvBlock_init "block_one_dw" 16 32 2 "layernorm"
    = Raise AssertionError /\
  VNet.UpsamplingDeconvBlock_init "block_five_up" 256 128 2 "layernorm"
    = Raise AssertionError.
Proof.
  assert (Hn : ~ In "layernorm"%string valid_norms).
  { cbn. intros [H | [H | [H | [H | []]]]]; discriminate. }
  repeat apply conj.
  - apply (proj1 C5_assertions_at_construction). cbn. lia.
  - apply (proj1 (proj2 (proj2 C5_assertions_at_construction))
             "block_one"%string 1 1 16 "layernorm"%string);
      [unfold modest, max_channels; lia | unfold modest, max_channels; lia |].
    split; [lia | exact Hn].
  - apply (proj1 (proj2 (proj2 (proj2 C5_assertions_at_construction)))
             "block_one_dw"%string 16 32 "layernorm"%string);
      [unfold modest, max_channels; lia | unfold modest, max_channels; lia
       | exact Hn].
  - apply (proj1 (proj2 (proj2 (proj2 (proj2 C5_assertions_at_construction))))
             "block_five_up"%string 256 128 "layernorm"%string);
      [unfold modest, max_channels; lia | unfold modest, max_channels; lia
       | exact Hn].
Defined.

(** Assertions are neither checked for every configuration nor the only
    way to fail.  A [ConvBlock] with no stage is constructed whatever
    [normalization] says: the loop body that holds the check does not run.
    [VNet(1, 2, n_filters=8, normalization="groupnorm")] fails in its
    constructor with the [ValueError] of [nn.GroupNorm(16, 8)];
    [PertDropout(0.5, "gaussian")] of vnet.py fails with the [KeyError] of
    the [dropout_type] lookup; and the forward call of [VNet(1, 2)] on a
    batch with three channels fails with a [RuntimeError]. *)
Lemma C5_counterexample :
  (VNet.ConvBlock_init "block" 0 1 16 "layernorm" = Ok [] /\
   ~ In "layernorm"%string valid_norms) /\
  VNet.VNet_init 1 2 8 "groupnorm" false 0.5%float "dropout"
    = Raise ValueError /\
  VNet.PertDropout_init 0.5%float "gaussian" = Raise KeyError /\
  snd (VNet.forward vnet_1_2 (input_of 1 3 [16; 16; 16]) false false "normal"
         (world0 false)) = Raise RuntimeError.
Proof.
  repeat apply conj; try reflexivity.
  cbn. intros [H | [H | [H | [H | []]]]]; discriminate.
Qed.

(* ================================================================== *)
(** ** What the ["strong"] branch corrupts *)

Lemma mapM_inv {Self A B} (f : A -> M Self B) : forall l w w' l',
  mapM f l w = (w', Ok l') ->
  Forall2 (fun a b => exists wa wb, f a wa = (wb, Ok b)) l l'.
Proof.
  induction l as [| a l IH]; intros w w' l' H; cbn [mapM] in H.
  - apply ret_inv in H as [_ ->]. constructor.
  - inv_bind H. inv_bind H. apply ret_inv in H as [_ ->].
    constructor; [eauto | eapply IH; eauto].
Qed.

Lemma combine_fst_snd {A B} (l : list (A * B)) :
  combine (map fst l) (map snd l) = l.
Proof.
  induction l as [| [a b] l IH]; cbn; [reflexivity | now rewrite IH].
Qed.

Lemma split_one {Self} t (w w1 : World Self) h :
  bind (chunk2 t) (fun cs => unpack2 cs) w = (w1, Ok h) -> is_split t h.
Proof.
  intros H. inv_bind H. unfold chunk2 in E.
  destruct (shape t) as [| n s]; [discriminate |].
  apply ret_inv in E as [_ ->]. unfold chunk2_sizes in H.
  destruct (n =? 0); [| destruct (n <=? (n + 1) / 2)];
    cbn [chunk_pieces unpack2] in H; try discriminate;
    apply ret_inv in H as [_ ->]; split; reflexivity.
Qed.

Lemma mask_one {Self} p h (w w2 : World Self) tr :
  UNet.mask_pair p h w = (w2, Ok tr) -> is_masked p h tr.
Proof.
  intros H. destruct h as [f1 f2]. unfold UNet.mask_pair in H.
  inv_bind H. unfold rand_mask in E. inv_bind E.
  apply ret_inv in E as [_ ->].
  inv_bind H. unfold torch_mul in E.
  destruct (broadcast _ _) in E; [| discriminate].
  apply ret_inv in E as [_ ->].
  inv_bind H. unfold torch_mul in E.
  destruct (broadcast _ _) in E; [| discriminate].
  apply ret_inv in E as [_ ->].
  inv_bind H. unfold torch_add in E.
  destruct (broadcast _ _) in E; [| discriminate].
  apply ret_inv in E as [_ ->].
  apply ret_inv in H as [_ ->].
  exists a0. cbn. repeat split.
Qed.

Lemma split_halves_inv {Self} feature (w w' : World Self) halves :
  UNet.split_halves feature w = (w', Ok halves) ->
  Forall2 is_split feature halves.
Proof.
  intros H. apply mapM_inv in H.
  eapply Forall2_impl; [| exact H].
  intros t h (wa & wb & E). eapply split_one. exact E.
Qed.

Lemma mask_pairs_inv {Self} p halves (w w' : World Self) masked :
  mapM (UNet.mask_pair p) (combine (features1 halves) (features2 halves)) w
    = (w', Ok masked) ->
  Forall2 (is_masked p) halves masked.
Proof.
  unfold features1, features2. rewrite combine_fst_snd.
  intros H. apply mapM_inv in H.
  eapply Forall2_impl; [| exact H].
  intros h tr (wa & wb & E). eapply mask_one. exact E.
Qed.

(** C4 (as the code has it).  When a ["strong"] call returns, every encoder
    feature map was split into its two batch halves; one random mask per
    level, shaped like the first half, was drawn; the weak features are the
    first halves times the mask, the strong features are the second halves
    times the complement of the same mask, and the complete features are
    their sums.  So the weak and the strong corruption act on two different
    halves of the batch, not on two copies of one feature map. *)
Theorem C4_strong_masks_two_halves :
  (forall m x w w' o,
      UNet.forward m x true "strong" w = (w', Ok o) ->
      exists feature halves masked p1 p2 p3 p4 p5,
        (exists w1, UNet.Encoder_forward (UNet.training m) (UNet.encoder m) x w
                      = (w1, Ok feature)) /\
        Forall2 is_split feature halves /\
        Forall2 (is_masked (7 # 10)%Q) halves masked /\
        o = Tuple [p1; p2; p3; p4; p5] /\
        UNet_decoded m (weak_features masked) p3 /\
        UNet_decoded m (strong_features masked) p4 /\
        UNet_decoded m (complete_features masked) p5) /\
  (forall m x td w w' o,
      VNet.forward m x td true "strong" w = (w', Ok o) ->
      exists features halves masked p1 p2 p3 p4 p5,
        (exists w0 w1, VNet.encoder m x w0 = (w1, Ok features)) /\
        Forall2 is_split features halves /\
        Forall2 (is_masked (7 # 10)%Q) halves masked /\
        o = Tuple [p1; p2; p3; p4; p5] /\
        VNet_decoded m (weak_features masked) p3 /\
        VNet_decoded m (strong_features masked) p4 /\
        VNet_decoded m (complete_features masked) p5) /\
  (forall t h p tr,
      is_split t h -> is_masked p h tr ->
      corrupted_source (expr (fst (fst tr))) = Some (EChunk 0 (expr t)) /\
      corrupted_source (expr (snd (fst tr))) = Some (EChunk 1 (expr t)) /\
      corrupted_source (expr (fst (fst tr)))
        <> corrupted_source (expr (snd (fst tr)))).
Proof.
  split; [| split].
  - intros m x w w' o H.
    apply UNet_strong_structure in H
      as (feature & halves & masked & p1 & p2 & p3 & p4 & p5 & He & Hs & Hm
          & Ho & _ & _ & H3 & H4 & H5).
    destruct Hs as (wa & wb & Hs). destruct Hm as (wc & wd & Hm).
    exists feature, halves, masked, p1, p2, p3, p4, p5.
    repeat split; auto.
    + eapply split_halves_inv. exact Hs.
    + eapply mask_pairs_inv. exact Hm.
  - intros m x td w w' o H.
    apply VNet_strong_structure in H
      as (features & halves & masked & p1 & p2 & p3 & p4 & p5 & He & Hs & Hm
          & Ho & _ & _ & H3 & H4 & H5).
    destruct Hs as (wa & wb & Hs). destruct Hm as (wc & wd & Hm).
    exists features, halves, masked, p1, p2, p3, p4, p5.
    repeat split; auto.
    + eapply (split_halves_inv (Self := bool)). exact Hs.
    + eapply (mask_pairs_inv (Self := bool)). exact Hm.
  - intros t h p tr [Hf Hg] (seed & Hw & Hst & _). cbv zeta in *.
    rewrite Hw, Hst, Hf, Hg. cbn. repeat split. discriminate.
Qed.

Lemma C4_strong_masks_two_halves_witness :
  let r := UNet.forward unet_1_4 (input_of 4 1 [16; 16]) true "strong"
             (world0 tt) in
  is_ok (snd r) = true /\
  List.length (output_tensors
                 match snd r with Ok o => o | Raise _ => Tuple [] end) = 5.
Proof.
  cbv zeta.
  destruct (UNet.forward unet_1_4 (input_of 4 1 [16; 16]) true "strong"
              (world0 tt)) as [w' [o | e]] eqn:E.
  - split; [reflexivity |]. cbn [snd].
    destruct (proj1 C4_strong_masks_two_halves _ _ _ _ _ E)
      as (feature & halves & masked & p1 & p2 & p3 & p4 & p5 & _ & _ & _
          & Ho & _).
    subst o. reflexivity.
  - vm_compute in E. discriminate.
Defined.

(** One feature map of batch size 4 run through the split and the masking
    loop: the weak product corrupts chunk 0 of the map, the strong product
    corrupts chunk 1, and these are different tensors. *)
Lemma C4_counterexample :
  let t := mkTensor [4; 16; 16; 16] (EVar "feat") in
  let weak := mkTensor [2; 16; 16; 16]
                (EMul (EChunk 0 (EVar "feat"))
                      (EMask 0 (7 # 10)%Q [2; 16; 16; 16])) in
  let strong := mkTensor [2; 16; 16; 16]
                  (EMul (EChunk 1 (EVar "feat"))
                        (EOneMinus (EMask 0 (7 # 10)%Q [2; 16; 16; 16]))) in
  let complete := mkTensor [2; 16; 16; 16] (EAdd (expr weak) (expr strong)) in
  snd (bind (UNet.split_halves [t])
         (fun halves => mapM (UNet.mask_pair (7 # 10)%Q) halves) (world0 tt))
    = Ok [(weak, strong, complete)] /\
  corrupted_source (expr weak) = Some (EChunk 0 (EVar "feat")) /\
  corrupted_source (expr strong) = Some (EChunk 1 (EVar "feat")) /\
  corrupted_source (expr weak) <> corrupted_source (expr strong).
Proof. cbv zeta. repeat split. discriminate. Qed.

(* ================================================================== *)
(** ** One encoder pass behind every prediction *)

Lemma chunk_pieces_nth t : forall sizes k i u,
  nth_error (chunk_pieces k sizes t) i = Some u ->
  expr u = EChunk (k + i) (expr t).
Proof.
  induction sizes as [| n sizes IH]; intros k i u H; cbn [chunk_pieces] in H.
  - destruct i; discriminate.
  - destruct i as [| i]; cbn [nth_error] in H.
    + injection H as <-. cbn [expr]. now rewrite Nat.add_0_r.
    + apply IH in H. rewrite H. f_equal. lia.
Qed.

Lemma chunk_pieces_length t : forall sizes k,
  List.length (chunk_pieces k sizes t) = List.length sizes.
Proof.
  induction sizes as [| n sizes IH]; intros k; cbn; [reflexivity |].
  now rewrite IH.
Qed.

Lemma chunk2_inv {Self} t (w w' : World Self) cs :
  chunk2 t w = (w', Ok cs) -> is_chunks t cs.
Proof.
  unfold chunk2. destruct (shape t) as [| n s]; [discriminate |].
  intros H. apply ret_inv in H as [_ ->]. split.
  - rewrite chunk_pieces_length. unfold chunk2_sizes.
    destruct (n =? 0); [now right |].
    destruct (n <=? (n + 1) / 2); [now left | now right].
  - intros i u H. now apply chunk_pieces_nth in H.
Qed.

Lemma apply_layer_output {Self} tr l f (w w' : World Self) g :
  apply_layer tr l f w = (w', Ok g) -> is_layer_output tr l f g.
Proof.
  unfold apply_layer, is_layer_output.
  destruct (layer_shape tr l (shape f)) as [s |]; [| discriminate].
  destruct l; try (intros H; apply ret_inv in H as [_ ->]; reflexivity).
  destruct tr.
  - intros H. inv_bind H. apply ret_inv in H as [_ ->].
    eexists. reflexivity.
  - intros H. apply ret_inv in H as [_ ->]. reflexivity.
Qed.

Lemma torch_cat_expr {Self} d a b (w w' : World Self) c :
  torch_cat d a b w = (w', Ok c) -> expr c = ECat d (expr a) (expr b).
Proof.
  unfold torch_cat. destruct (cat_shape d (shape a) (shape b));
    [| discriminate].
  intros H. apply ret_inv in H as [_ ->]. reflexivity.
Qed.

Lemma UNet_normal_structure m x w w' o :
  UNet.forward m x true "normal" w = (w', Ok o) ->
  exists feature perturbed cat outs cs,
    (exists w1, UNet.Encoder_forward (UNet.training m) (UNet.encoder m) x w
                  = (w1, Ok feature)) /\
    Forall2 (is_layer_output true (Dropout Drop2d 0.5%float))
      feature perturbed /\
    Forall2 (fun fg c => is_cat0 (fst fg) (snd fg) c)
      (combine feature perturbed) cat /\
    UNet_decoded m cat outs /\
    is_chunks outs cs /\
    o = Tuple cs.
Proof.
  intros H. unfold UNet.forward in H. cbv zeta in H.
  inv_bind H. cbn [String.eqb Ascii.eqb Bool.eqb] in H.
  inv_bind H. inv_bind H. inv_bind H. apply ret_inv in H as [_ ->].
  rename a into feature, a0 into cat, a1 into outs, a2 into cs.
  apply chunk2_inv in E2.
  assert (Hp : exists perturbed,
             Forall2 (is_layer_output true (Dropout Drop2d 0.5%float))
               feature perturbed /\
             Forall2 (fun fg c => is_cat0 (fst fg) (snd fg) c)
               (combine feature perturbed) cat).
  { apply mapM_inv in E0. clear - E0.
    induction E0 as [| f c fs cs (wa & wb & Hf) _ IH].
    - exists []. split; constructor.
    - destruct IH as (ps & IH1 & IH2). inv_bind Hf.
      exists (a :: ps). split.
      + constructor; [| exact IH1]. eapply apply_layer_output. exact E.
      + cbn [combine]. constructor; [| exact IH2].
        unfold is_cat0. cbn [fst snd]. eapply torch_cat_expr. exact Hf. }
  destruct Hp as (perturbed & Hp1 & Hp2).
  exists feature, perturbed, cat, outs, cs.
  unfold UNet_decoded. repeat split; eauto; apply E2.
Qed.

Lemma VNet_normal_structure m x td w w' o :
  VNet.forward m x td true "normal" w = (w', Ok o) ->
  exists features perturbed combined outs cs,
    (exists w0 w1, VNet.encoder m x w0 = (w1, Ok features)) /\
    Forall2 (is_layer_output (VNet.training m) (VNet.dropout m))
      features perturbed /\
    Forall2 (fun fg c => is_cat0 (fst fg) (snd fg) c)
      (combine features perturbed) combined /\
    VNet_decoded_no_drop m combined outs /\
    is_chunks outs cs /\
    o = Tuple cs.
Proof.
  intros H. unfold VNet.forward in H. cbv zeta in H.
  inv_bind H. clear E.
  inv_bind H. cbn [String.eqb Ascii.eqb Bool.eqb] in H.
  inv_bind H. inv_bind H. inv_bind H. inv_bind H.
  apply ret_inv in H as [_ ->].
  rename a0 into features, a1 into perturbed, a2 into combined,
    a3 into outs, a4 into cs.
  apply chunk2_inv in E3. apply mapM_inv in E0, E1.
  exists features, perturbed, combined, outs, cs.
  unfold VNet_decoded_no_drop. repeat split; eauto; try apply E3.
  - eapply Forall2_impl; [| exact E0].
    intros f g (wa & wb & Hf). eapply apply_layer_output. exact Hf.
  - eapply Forall2_impl; [| exact E1].
    intros fg c (wa & wb & Hc). unfold is_cat0.
    eapply torch_cat_expr. exact Hc.
Qed.

(** C2.  Every [need_fp=True] call enters the encoder exactly once,
    whatever the input and whether or not the call succeeds, and every
    prediction it returns is decoded from that one encoder output.  When a
    ["normal"] call returns, the log shows the encoder entry followed by
    one decoder entry: each encoder feature was concatenated along the
    batch axis with its perturbed version, the list was decoded once, and
    the predictions are the chunks of that one result.  When a ["strong"]
    call returns, the log shows the encoder entry followed by exactly five
    decoder entries: each encoder feature was split into its two batch
    halves, the halves were masked with one random mask per level and its
    complement and recombined by addition, and the five predictions are
    the decoder's outputs on the first halves, the second halves, the
    weakly masked, the strongly masked and the recombined features. *)
Theorem C2_single_encoder_pass :
  (forall m x ty w,
      count EvEncoder (trace (fst (UNet.forward m x true ty w)))
        = S (count EvEncoder (trace w))) /\
  (forall m x td ty w,
      count EvEncoder (trace (fst (VNet.forward m x td true ty w)))
        = S (count EvEncoder (trace w))) /\
  (forall m x w w' o,
      UNet.forward m x true "normal" w = (w', Ok o) ->
      trace w' = EvDecoder :: EvEncoder :: trace w /\
      exists feature perturbed cat outs cs,
        (exists w1, UNet.Encoder_forward (UNet.training m) (UNet.encoder m) x w
                      = (w1, Ok feature)) /\
        Forall2 (is_layer_output true (Dropout Drop2d 0.5%float))
          feature perturbed /\
        Forall2 (fun fg c => is_cat0 (fst fg) (snd fg) c)
          (combine feature perturbed) cat /\
        UNet_decoded m cat outs /\
        is_chunks outs cs /\
        o = Tuple cs) /\
  (forall m x td w w' o,
      VNet.forward m x td true "normal" w = (w', Ok o) ->
      trace w' = EvDecoder :: EvEncoder :: trace w /\
      exists features perturbed combined outs cs,
        (exists w0 w1, VNet.encoder m x w0 = (w1, Ok features)) /\
        Forall2 (is_layer_output (VNet.training m) (VNet.dropout m))
          features perturbed /\
        Forall2 (fun fg c => is_cat0 (fst fg) (snd fg) c)
          (combine features perturbed) combined /\
        VNet_decoded_no_drop m combined outs /\
        is_chunks outs cs /\
        o = Tuple cs) /\
  (forall m x w w' o,
      UNet.forward m x true "strong" w = (w', Ok o) ->
      trace w' = repeat EvDecoder 5 ++ EvEncoder :: trace w /\
      exists feature halves masked p1 p2 p3 p4 p5,
        (exists w1, UNet.Encoder_forward (UNet.training m) (UNet.encoder m) x w
                      = (w1, Ok feature)) /\
        Forall2 is_split feature halves /\
        Forall2 (is_masked (7 # 10)%Q) halves masked /\
        o = Tuple [p1; p2; p3; p4; p5] /\
        UNet_decoded m (features1 halves) p1 /\
        UNet_decoded m (features2 halves) p2 /\
        UNet_decoded m (weak_features masked) p3 /\
        UNet_decoded m (strong_features masked) p4 /\
        UNet_decoded m (complete_features masked) p5) /\
  (forall m x td w w' o,
      VNet.forward m x td true "strong" w = (w', Ok o) ->
      trace w' = repeat EvDecoder 5 ++ EvEncoder :: trace w /\
      exists features halves masked p1 p2 p3 p4 p5,
        (exists w0 w1, VNet.encoder m x w0 = (w1, Ok features)) /\
        Forall2 is_split features halves /\
        Forall2 (is_masked (7 # 10)%Q) halves masked /\
        o = Tuple [p1; p2; p3; p4; p5] /\
        VNet_decoded m (features1 halves) p1 /\
        VNet_decoded m (features2 halves) p2 /\
        VNet_decoded m (weak_features masked) p3 /\
        VNet_decoded m (strong_features masked) p4 /\
        VNet_decoded m (complete_features masked) p5).
Proof.
  split; [| split; [| split; [| split; [| split]]]].
  - intros m x ty w.
    destruct (UNet_forward_trace m x true ty w) as (j & Ht & _).
    rewrite Ht, count_repeat_decoder by discriminate. reflexivity.
  - intros m x td ty w.
    destruct (VNet_forward_trace m x td true ty w) as (j & Ht & _).
    rewrite Ht, count_repeat_decoder by discriminate. reflexivity.
  - intros m x w w' o H. split.
    + destruct (UNet_forward_trace m x true "normal" w) as (j & Ht & Hj).
      rewrite H in Ht, Hj. cbn [fst snd is_ok] in Ht, Hj.
      rewrite Ht, (Hj eq_refl). reflexivity.
    + now apply UNet_normal_structure in H.
  - intros m x td w w' o H. split.
    + destruct (VNet_forward_trace m x td true "normal" w) as (j & Ht & Hj).
      rewrite H in Ht, Hj. cbn [fst snd is_ok] in Ht, Hj.
      rewrite Ht, (Hj eq_refl). reflexivity.
    + now apply VNet_normal_structure in H.
  - intros m x w w' o H. split.
    + destruct (UNet_forward_trace m x true "strong" w) as (j & Ht & Hj).
      rewrite H in Ht, Hj. cbn [fst snd is_ok] in Ht, Hj.
      rewrite Ht, (Hj eq_refl). reflexivity.
    + apply UNet_strong_structure in H
        as (feature & halves & masked & p1 & p2 & p3 & p4 & p5 & He & Hs
            & Hm & Ho & H1 & H2 & H3 & H4 & H5).
      destruct Hs as (wa & wb & Hs). destruct Hm as (wc & wd & Hm).
      exists feature, halves, masked, p1, p2, p3, p4, p5.
      repeat split; auto.
      * eapply split_halves_inv. exact Hs.
      * eapply mask_pairs_inv. exact Hm.
  - intros m x td w w' o H. split.
    + destruct (VNet_forward_trace m x td true "strong" w) as (j & Ht & Hj).
      rewrite H in Ht, Hj. cbn [fst snd is_ok] in Ht, Hj.
      rewrite Ht, (Hj eq_refl). reflexivity.
    + apply VNet_strong_structure in H
        as (features & halves & masked & p1 & p2 & p3 & p4 & p5 & He & Hs
            & Hm & Ho & H1 & H2 & H3 & H4 & H5).
      destruct Hs as (wa & wb & Hs). destruct Hm as (wc & wd & Hm).
      exists features, halves, masked, p1, p2, p3, p4, p5.
      repeat split; auto.
      * eapply (split_halves_inv (Self := bool)). exact Hs.
      * eapply (mask_pairs_inv (Self := bool)). exact Hm.
Qed.

Lemma C2_single_encoder_pass_witness :
  (let r := UNet.forward unet_1_4 (input_of 2 1 [16; 16]) true "normal"
              (world0 tt) in
   is_ok (snd r) = true /\ trace (fst r) = [EvDecoder; EvEncoder]) /\
  (let r := VNet.forward vnet_1_2 (input_of 2 1 [16; 16; 16]) false true
              "normal" (world0 false) in
   is_ok (snd r) = true /\ trace (fst r) = [EvDecoder; EvEncoder]) /\
  (let r := UNet.forward unet_1_4 (input_of 4 1 [16; 16]) true "strong"
              (world0 tt) in
   is_ok (snd r) = true /\
   trace (fst r) = repeat EvDecoder 5 ++ [EvEncoder]) /\
  (let r := VNet.forward vnet_1_2 (input_of 4 1 [16; 16; 16]) false true
              "strong" (world0 false) in
   is_ok (snd r) = true /\
   trace (fst r) = repeat EvDecoder 5 ++ [EvEncoder]).
Proof.
  cbv zeta. repeat apply conj.
  - destruct (UNet.forward unet_1_4 (input_of 2 1 [16; 16]) true "normal"
                (world0 tt)) as [w' [o | e]] eqn:E;
      [reflexivity | vm_compute in E; discriminate].
  - destruct (UNet.forward unet_1_4 (input_of 2 1 [16; 16]) true "normal"
                (world0 tt)) as [w' [o | e]] eqn:E;
      [| vm_compute in E; discriminate].
    exact (proj1 (proj1 (proj2 (proj2 C2_single_encoder_pass))
                    _ _ _ _ _ E)).
  - destruct (VNet.forward vnet_1_2 (input_of 2 1 [16; 16; 16]) false true
                "normal" (world0 false)) as [w' [o | e]] eqn:E;
      [reflexivity | vm_compute in E; discriminate].
  - destruct (VNet.forward vnet_1_2 (input_of 2 1 [16; 16; 16]) false true
                "normal" (world0 false)) as [w' [o | e]] eqn:E;
      [| vm_compute in E; discriminate].
    exact (proj1 (proj1 (proj2 (proj2 (proj2 C2_single_encoder_pass)))
                    _ _ _ _ _ _ E)).
  - destruct (UNet.forward unet_1_4 (input_of 4 1 [16; 16]) true "strong"
                (world0 tt)) as [w' [o | e]] eqn:E;
      [reflexivity | vm_compute in E; discriminate].
  - destruct (UNet.forward unet_1_4 (input_of 4 1 [16; 16]) true "strong"
                (world0 tt)) as [w' [o | e]] eqn:E;
      [| vm_compute in E; discriminate].
    exact (proj1 (proj1 (proj2 (proj2 (proj2 (proj2
             C2_single_encoder_pass)))) _ _ _ _ _ E)).
  - destruct (VNet.forward vnet_1_2 (input_of 4 1 [16; 16; 16]) false true
                "strong" (world0 false)) as [w' [o | e]] eqn:E;
      [reflexivity | vm_compute in E; discriminate].
  - destruct (VNet.forward vnet_1_2 (input_of 4 1 [16; 16; 16]) false true
                "strong" (world0 false)) as [w' [o | e]] eqn:E;
      [| vm_compute in E; discriminate].
    exact (proj1 (proj2 (proj2 (proj2 (proj2 (proj2
             C2_single_encoder_pass)))) _ _ _ _ _ _ E)).
Defined.

(* ================================================================== *)
(** ** Shapes: the operators *)

Lemma apply_layer_shape {Self} tr l t (w : World Self) :
  match layer_shape tr l (shape t) with
  | Ok s => exists w' t', apply_layer tr l t w = (w', Ok t') /\ shape t' = s
  | Raise e => apply_layer tr l t w = (w, Raise e)
  end.
Proof.
  unfold apply_layer. destruct (layer_shape tr l (shape t)) as [s | e] eqn:E;
    [| reflexivity].
  destruct l; try (eexists; eexists; split; [reflexivity | reflexivity]).
  destruct tr.
  - eexists; eexists; split; [reflexivity | reflexivity].
  - cbn in E. inversion E. eexists; eexists; split; reflexivity.
Qed.

Lemma sequential_shape {Self} tr ops : forall t (w : World Self),
  match seq_shape tr ops (shape t) with
  | Ok s => exists w' t', sequential tr ops t w = (w', Ok t') /\ shape t' = s
  | Raise e => exists w', sequential tr ops t w = (w', Raise e)
  end.
Proof.
  induction ops as [| l ops IH]; intros t w; cbn [seq_shape sequential].
  - exists w, t. split; reflexivity.
  - pose proof (apply_layer_shape tr l t w) as Hl.
    destruct (layer_shape tr l (shape t)) as [s | e].
    + destruct Hl as (w1 & t1 & E1 & Hs). subst s.
      rewrite (bind_Ok _ E1). apply IH.
    + exists w. now rewrite (bind_Raise _ Hl).
Qed.

(** A sequential block that yields shape [s'] on shape [s] runs to the end
    on every tensor of shape [s]. *)
Lemma sequential_ok {Self} tr ops t s' (w : World Self) :
  seq_shape tr ops (shape t) = Ok s' ->
  exists w' t', sequential tr ops t w = (w', Ok t') /\ shape t' = s'.
Proof.
  intros H. pose proof (sequential_shape tr ops t w) as Hs.
  now rewrite H in Hs.
Qed.

Lemma sequential_returns {Self} tr ops t t' (w w' : World Self) :
  sequential tr ops t w = (w', Ok t') ->
  seq_shape tr ops (shape t) = Ok (shape t').
Proof.
  intros H. pose proof (sequential_shape tr ops t w) as Hs.
  destruct (seq_shape tr ops (shape t)) as [s | e].
  - destruct Hs as (w1 & t1 & E & <-). congruence.
  - destruct Hs as (w1 & E). congruence.
Qed.

Lemma seq_shape_app tr ops1 ops2 s :
  seq_shape tr (ops1 ++ ops2) s
    = match seq_shape tr ops1 s with
      | Ok s1 => seq_shape tr ops2 s1
      | Raise e => Raise e
      end.
Proof.
  revert s. induction ops1 as [| l ops1 IH]; intros s; cbn [seq_shape app];
    [reflexivity |].
  destruct (layer_shape tr l s); [apply IH | reflexivity].
Qed.

(** Window arithmetic of the convolutions used by the two models. *)
Lemma conv_out_same s : 1 <= s -> conv_out 3 1 1 s = Ok s.
Proof.
  intros H. unfold conv_out.
  destruct (3 <=? s + 2 * 1) eqn:E; [| apply Nat.leb_gt in E; lia].
  f_equal. rewrite Nat.div_1_r. lia.
Qed.

Lemma conv_out_1x1 s : 1 <= s -> conv_out 1 1 0 s = Ok s.
Proof.
  intros H. unfold conv_out.
  destruct (1 <=? s + 2 * 0) eqn:E; [| apply Nat.leb_gt in E; lia].
  f_equal. rewrite Nat.div_1_r. lia.
Qed.

Lemma conv_out_half s : 2 <= s -> conv_out 2 2 0 s = Ok (s / 2).
Proof.
  intros H. unfold conv_out.
  destruct (2 <=? s + 2 * 0) eqn:E; [| apply Nat.leb_gt in E; lia].
  f_equal. replace (s + 2 * 0 - 2) with (s - 2) by lia.
  replace s with ((s - 2) + 1 * 2) at 2 by lia.
  rewrite Nat.div_add by lia. reflexivity.
Qed.

Lemma convT_out_double s : convT_out 2 2 s = s * 2.
Proof. unfold convT_out. lia. Qed.


Lemma half_exact k : (2 * k) / 2 = k.
Proof. rewrite Nat.mul_comm. apply Nat.div_mul. lia. Qed.

(* ------------------------------------------------------------------ *)
(** *** Shapes of single layers on batched 2-D and 3-D tensors *)

Lemma layer_relu tr s : layer_shape tr ReLU s = Ok s.
Proof. reflexivity. Qed.


Lemma layer_dropout tr kind p s : layer_shape tr (Dropout kind p) s = Ok s.
Proof. reflexivity. Qed.






Lemma layer_conv3_3d tr name cin cout n d h w :
  1 <= d -> 1 <= h -> 1 <= w ->
  layer_shape tr (Conv name 3 cin cout 3 1 1) [n; cin; d; h; w]
    = Ok [n; cout; d; h; w].
Proof.
  intros Hd Hh Hw. cbn [layer_shape List.length map_res].
  rewrite Nat.eqb_refl, !conv_out_same by assumption. reflexivity.
Qed.

Lemma layer_conv1_3d tr name cin cout n d h w :
  1 <= d -> 1 <= h -> 1 <= w ->
  layer_shape tr (Conv name 3 cin cout 1 1 0) [n; cin; d; h; w]
    = Ok [n; cout; d; h; w].
Proof.
  intros Hd Hh Hw. cbn [layer_shape List.length map_res].
  rewrite Nat.eqb_refl, !conv_out_1x1 by assumption. reflexivity.
Qed.

Lemma layer_down_3d tr name cin cout n d h w :
  2 <= d -> 2 <= h -> 2 <= w ->
  layer_shape tr (Conv name 3 cin cout 2 2 0) [n; cin; d; h; w]
    = Ok [n; cout; d / 2; h / 2; w / 2].
Proof.
  intros Hd Hh Hw. cbn [layer_shape List.length map_res].
  rewrite Nat.eqb_refl, !conv_out_half by assumption. reflexivity.
Qed.

Lemma layer_up_3d tr name cin cout n d h w :
  1 <= d -> 1 <= h -> 1 <= w ->
  layer_shape tr (ConvTranspose name 3 cin cout 2 2) [n; cin; d; h; w]
    = Ok [n; cout; d * 2; h * 2; w * 2].
Proof.
  intros Hd Hh Hw. cbn [layer_shape List.length map forallb].
  rewrite Nat.eqb_refl, !convT_out_double.
  rewrite !(proj2 (Nat.leb_le 1 _)) by assumption. reflexivity.
Qed.





(* ------------------------------------------------------------------ *)
(** *** Shapes of the UNet blocks *)



(* ------------------------------------------------------------------ *)
(** *** Rules for total and partial specifications *)

Section SpecRules.
Context {Self : Type}.

Lemma rw_ret {A} (a : A) (P : A -> Prop) :
  P a -> returns_with (ret (Self := Self) a) P.
Proof. intros H w. now exists w, a. Qed.

Lemma rw_bind {A B} (m : M Self A) (f : A -> M Self B) P Q :
  returns_with m P -> (forall a, P a -> returns_with (f a) Q) ->
  returns_with (bind m f) Q.
Proof.
  intros Hm Hf w. destruct (Hm w) as (w1 & a & E & Ha).
  destruct (Hf a Ha w1) as (w2 & b & E2 & Hb).
  exists w2, b. split; [| exact Hb]. unfold bind. now rewrite E.
Qed.

Lemma rw_weaken {A} (m : M Self A) (P Q : A -> Prop) :
  returns_with m P -> (forall a, P a -> Q a) -> returns_with m Q.
Proof.
  intros Hm HPQ w. destruct (Hm w) as (w1 & a & E & Ha).
  exists w1, a. auto.
Qed.

Lemma rw_log ev : returns_with (log (Self := Self) ev) (fun _ => True).
Proof. intros w. unfold log. eauto. Qed.

Lemma rw_get_self : returns_with (get_self (Self := Self)) (fun _ => True).
Proof. intros w. unfold get_self. eauto. Qed.

Lemma rw_set_self s : returns_with (set_self (Self := Self) s) (fun _ => True).
Proof. intros w. unfold set_self. eauto. Qed.


Lemma rw_feat_index (l : list Tensor) i t :
  nth_error l i = Some t ->
  returns_with (feat_index (Self := Self) l i) (fun t' => t' = t).
Proof.
  intros H w. unfold feat_index, lift, py_index. rewrite H. eauto.
Qed.

Lemma rw_apply_layer tr l t s' :
  layer_shape tr l (shape t) = Ok s' ->
  returns_with (apply_layer (Self := Self) tr l t) (fun t' => shape t' = s').
Proof.
  intros H w. pose proof (apply_layer_shape tr l t w) as Hs.
  rewrite H in Hs. exact Hs.
Qed.

Lemma rw_sequential tr ops t s' :
  seq_shape tr ops (shape t) = Ok s' ->
  returns_with (sequential (Self := Self) tr ops t) (fun t' => shape t' = s').
Proof. intros H w. now apply sequential_ok. Qed.



Lemma rw_torch_add a b s :
  broadcast (shape a) (shape b) = Ok s ->
  returns_with (torch_add (Self := Self) a b) (fun t => shape t = s).
Proof. intros H w. unfold torch_add. rewrite H. unfold ret. eauto. Qed.

Lemma rw_mapM {A B} (f : A -> M Self B) (R : A -> B -> Prop) l :
  (forall a, In a l -> returns_with (f a) (R a)) ->
  returns_with (mapM f l) (fun l' => Forall2 R l l').
Proof.
  induction l as [| a l IH]; intros H; cbn [mapM].
  - apply rw_ret. constructor.
  - eapply rw_bind; [apply H; now left |]. intros b Hb.
    eapply rw_bind; [apply IH; intros; apply H; now right |]. intros bs Hbs.
    apply rw_ret. now constructor.
Qed.

Lemma or_ret {A} (a : A) (P : A -> Prop) :
  P a -> on_return (ret (Self := Self) a) P.
Proof. intros H w w' b E. apply ret_inv in E as [_ ->]. exact H. Qed.

Lemma or_bind {A B} (m : M Self A) (f : A -> M Self B) P Q :
  on_return m P -> (forall a, P a -> on_return (f a) Q) ->
  on_return (bind m f) Q.
Proof.
  intros Hm Hf w w' b E. apply bind_inv in E as (w1 & a & E1 & E2).
  eapply Hf; [eapply Hm; exact E1 | exact E2].
Qed.

Lemma or_weaken {A} (m : M Self A) (P Q : A -> Prop) :
  on_return m P -> (forall a, P a -> Q a) -> on_return m Q.
Proof. intros Hm HPQ w w' a E. eauto. Qed.

Lemma or_true {A} (m : M Self A) : on_return m (fun _ => True).
Proof. intros w w' a _. exact I. Qed.

Lemma or_feat_index (l : list Tensor) i :
  on_return (feat_index (Self := Self) l i)
    (fun t => nth_error l i = Some t).
Proof.
  intros w w' t E. unfold feat_index, lift, py_index in E.
  destruct (nth_error l i); inversion E. reflexivity.
Qed.

Lemma or_apply_layer tr l t :
  on_return (apply_layer (Self := Self) tr l t)
    (fun t' => layer_shape tr l (shape t) = Ok (shape t')).
Proof.
  intros w w' t' E. pose proof (apply_layer_shape tr l t w) as Hs.
  destruct (layer_shape tr l (shape t)) as [s |].
  - destruct Hs as (w1 & t1 & E1 & <-). rewrite E in E1.
    inversion E1. reflexivity.
  - rewrite E in Hs. discriminate.
Qed.

Lemma or_sequential tr ops t :
  on_return (sequential (Self := Self) tr ops t)
    (fun t' => seq_shape tr ops (shape t) = Ok (shape t')).
Proof. intros w w' t' E. eapply sequential_returns. exact E. Qed.



Lemma or_torch_add a b :
  on_return (torch_add (Self := Self) a b)
    (fun t => broadcast (shape a) (shape b) = Ok (shape t)).
Proof.
  intros w w' t E. unfold torch_add in E.
  destruct (broadcast (shape a) (shape b)); [| discriminate].
  apply ret_inv in E as [_ ->]. reflexivity.
Qed.

Lemma or_mapM {A B} (f : A -> M Self B) (R : A -> B -> Prop) l :
  (forall a, In a l -> on_return (f a) (R a)) ->
  on_return (mapM f l) (fun l' => Forall2 R l l').
Proof.
  induction l as [| a l IH]; intros H; cbn [mapM].
  - apply or_ret. constructor.
  - eapply or_bind; [apply H; now left |]. intros b Hb.
    eapply or_bind; [apply IH; intros; apply H; now right |]. intros bs Hbs.
    apply or_ret. now constructor.
Qed.

End SpecRules.

(* ------------------------------------------------------------------ *)
(** *** Reading shapes off a layer that returned *)

Lemma conv_out_same_inv x y : conv_out 3 1 1 x = Ok y -> y = x /\ 1 <= x.
Proof.
  intros H. assert (Hx : 1 <= x).
  { unfold conv_out in H. destruct (3 <=? x + 2 * 1) eqn:E; [| discriminate].
    apply Nat.leb_le in E. lia. }
  rewrite conv_out_same in H by assumption. injection H as <-. auto.
Qed.

Lemma conv_out_1x1_inv x y : conv_out 1 1 0 x = Ok y -> y = x /\ 1 <= x.
Proof.
  intros H. assert (Hx : 1 <= x).
  { unfold conv_out in H. destruct (1 <=? x + 2 * 0) eqn:E; [| discriminate].
    apply Nat.leb_le in E. lia. }
  rewrite conv_out_1x1 in H by assumption. injection H as <-. auto.
Qed.

Lemma conv_out_half_inv x y : conv_out 2 2 0 x = Ok y -> y = x / 2 /\ 2 <= x.
Proof.
  intros H. assert (Hx : 2 <= x).
  { unfold conv_out in H. destruct (2 <=? x + 2 * 0) eqn:E; [| discriminate].
    apply Nat.leb_le in E. lia. }
  rewrite conv_out_half in H by assumption. injection H as <-. auto.
Qed.

Lemma map_res_inv {A B} (f : A -> Result B) : forall l l',
  map_res f l = Ok l' -> Forall2 (fun a b => f a = Ok b) l l'.
Proof.
  induction l as [| a l IH]; intros l' H; cbn [map_res] in H.
  - injection H as <-. constructor.
  - destruct (f a) as [b |] eqn:Ea; [| discriminate].
    destruct (map_res f l) as [bs |] eqn:El; [| discriminate].
    injection H as <-. constructor; auto.
Qed.

Lemma map_res_length {A B} (f : A -> Result B) l l' :
  map_res f l = Ok l' -> List.length l' = List.length l.
Proof.
  intros H. apply map_res_inv in H.
  induction H; cbn; [reflexivity | now f_equal].
Qed.

Lemma map_res_same_inv sp sp' :
  map_res (conv_out 3 1 1) sp = Ok sp' -> sp' = sp /\ Forall (le 1) sp.
Proof.
  intros H. apply map_res_inv in H.
  induction H as [| x y l l' Hxy _ [IH1 IH2]]; [now split |].
  apply conv_out_same_inv in Hxy as [-> Hx]. subst l'.
  split; [reflexivity | now constructor].
Qed.

Lemma map_res_1x1_inv sp sp' :
  map_res (conv_out 1 1 0) sp = Ok sp' -> sp' = sp /\ Forall (le 1) sp.
Proof.
  intros H. apply map_res_inv in H.
  induction H as [| x y l l' Hxy _ [IH1 IH2]]; [now split |].
  apply conv_out_1x1_inv in Hxy as [-> Hx]. subst l'.
  split; [reflexivity | now constructor].
Qed.

Lemma map_res_half_inv sp sp' :
  map_res (conv_out 2 2 0) sp = Ok sp' -> sp' = halve sp /\ Forall (le 2) sp.
Proof.
  intros H. apply map_res_inv in H.
  induction H as [| x y l l' Hxy _ [IH1 IH2]]; [now split |].
  apply conv_out_half_inv in Hxy as [-> Hx]. subst l'.
  split; [reflexivity | now constructor].
Qed.

Lemma layer_conv_inv tr name d cin cout k st pad s s' :
  layer_shape tr (Conv name d cin cout k st pad) s = Ok s' ->
  exists n sp sp',
    s = n :: cin :: sp /\ List.length sp = d /\
    map_res (conv_out k st pad) sp = Ok sp' /\ s' = n :: cout :: sp'.
Proof.
  cbn [layer_shape]. destruct s as [| n [| c sp]]; try discriminate.
  destruct (c =? cin) eqn:Ec; destruct (List.length sp =? d) eqn:El;
    cbn [andb]; try discriminate.
  destruct (map_res (conv_out k st pad) sp) as [sp' |] eqn:Em;
    [| discriminate].
  intros H. injection H as <-.
  apply Nat.eqb_eq in Ec, El. subst. eauto 10.
Qed.

Lemma layer_convT_inv tr name d cin cout k st s s' :
  layer_shape tr (ConvTranspose name d cin cout k st) s = Ok s' ->
  exists n sp,
    s = n :: cin :: sp /\ List.length sp = d /\
    Forall (fun x => 1 <= x) sp /\
    s' = n :: cout :: map (convT_out k st) sp.
Proof.
  cbn [layer_shape]. destruct s as [| n [| c sp]]; try discriminate.
  destruct (c =? cin) eqn:Ec; destruct (List.length sp =? d) eqn:El;
    cbn [andb]; try discriminate.
  destruct (forallb (Nat.leb 1) sp) eqn:Ef; [| discriminate].
  intros H. injection H as <-.
  apply Nat.eqb_eq in Ec, El. subst.
  exists n, sp. repeat split.
  apply Forall_forall. intros x Hx.
  apply Nat.leb_le. exact (proj1 (forallb_forall _ _) Ef x Hx).
Qed.

Lemma layer_pool_inv tr d k s s' :
  layer_shape tr (MaxPool d k) s = Ok s' ->
  exists n c sp sp',
    s = n :: c :: sp /\ List.length sp = d /\
    map_res (conv_out k k 0) sp = Ok sp' /\ s' = n :: c :: sp'.
Proof.
  cbn [layer_shape]. destruct s as [| n [| c sp]]; try discriminate.
  destruct (List.length sp =? d) eqn:El; try discriminate.
  destruct (map_res (conv_out k k 0) sp) as [sp' |] eqn:Em; [| discriminate].
  intros H. injection H as <-.
  apply Nat.eqb_eq in El. subst. eauto 10.
Qed.

Lemma layer_upsample_inv tr scale mode ac s s' :
  layer_shape tr (Upsample scale mode ac) s = Ok s' ->
  exists n c sp,
    s = n :: c :: sp /\ s' = n :: c :: map (fun x => x * scale) sp.
Proof.
  cbn [layer_shape]. destruct s as [| n [| c sp]]; try discriminate.
  intros H. injection H as <-. eauto.
Qed.

Lemma layer_keeps_shape tr l s s' :
  keeps_shape l = true -> layer_shape tr l s = Ok s' -> s' = s.
Proof.
  destruct l; try discriminate; intros _; cbn [layer_shape];
    destruct s as [| n0 [| c0 sp0]]; try discriminate;
    repeat match goal with
           | |- context [if ?b then _ else _] => destruct b
           end;
    intros H; congruence.
Qed.

Lemma seq_keeps_shape tr ops : forall s s',
  forallb keeps_shape ops = true -> seq_shape tr ops s = Ok s' -> s' = s.
Proof.
  induction ops as [| l ops IH]; intros s s' Hk H; cbn in *.
  - congruence.
  - apply andb_prop in Hk as [Hl Hops].
    destruct (layer_shape tr l s) as [s1 |] eqn:E; [| discriminate].
    apply (layer_keeps_shape _ _ _ Hl) in E. subst s1. now apply IH.
Qed.

(** Every layer keeps the rank and the batch size of its input. *)
Lemma layer_lead tr l s s' n r :
  layer_shape tr l s = Ok s' -> lead n r s -> lead n r s'.
Proof.
  unfold lead. intros H [Hr Hn].
  destruct (keeps_shape l) eqn:Ek.
  - apply (layer_keeps_shape _ _ _ Ek) in H. subst. now split.
  - destruct l; try discriminate.
    + apply layer_conv_inv in H as (n0 & sp & sp' & -> & _ & Hm & ->).
      apply map_res_length in Hm. cbn in *. split; congruence.
    + apply layer_convT_inv in H as (n0 & sp & -> & _ & _ & ->).
      cbn in *. rewrite length_map. now split.
    + apply layer_pool_inv in H as (n0 & c & sp & sp' & -> & _ & Hm & ->).
      apply map_res_length in Hm. cbn in *. split; congruence.
    + apply layer_upsample_inv in H as (n0 & c & sp & -> & ->).
      cbn in *. rewrite length_map. now split.
Qed.

Lemma seq_lead tr ops n r : forall s s',
  seq_shape tr ops s = Ok s' -> lead n r s -> lead n r s'.
Proof.
  induction ops as [| l ops IH]; intros s s' H Hl; cbn in H.
  - congruence.
  - destruct (layer_shape tr l s) as [s1 |] eqn:E; [| discriminate].
    eapply IH; [exact H |]. eapply layer_lead; eauto.
Qed.





Lemma length3 {A} (l : list A) :
  List.length l = 3 -> exists a b c, l = [a; b; c].
Proof.
  destruct l as [| a [| b [| c [| d l]]]]; try discriminate. eauto.
Qed.

(* ------------------------------------------------------------------ *)
(** *** The UNet blocks, read backwards *)



(* ------------------------------------------------------------------ *)
(** *** Concatenation *)








(* ------------------------------------------------------------------ *)
(** *** UpBlock *)

Lemma four_not_1 n h w : n * (h * 2 * (w * 2)) <> 1.
Proof. lia. Qed.



(* ------------------------------------------------------------------ *)
(** *** What the UNet constructors build *)

Ltac rbind_inv H :=
  match type of H with
  | rbind ?r _ = Ok _ =>
      let E := fresh "E" in
      let a := fresh "a" in
      destruct r as [a |] eqn:E; [cbn [rbind] in H | discriminate]
  end.



(* ------------------------------------------------------------------ *)
(** *** The UNet encoder *)

(** Let [lia] see through division by a constant. *)
Ltac Zify.zify_post_hook ::= Z.to_euclidean_division_equations.

(** [injection] leaves [x / 2] unfolded; fold it back. *)
Ltac fold_half :=
  repeat match goal with
         | H : context [fst (Nat.divmod ?x 1 0 1)] |- _ =>
             change (fst (Nat.divmod x 1 0 1)) with (x / 2) in H
         | |- context [fst (Nat.divmod ?x 1 0 1)] =>
             change (fst (Nat.divmod x 1 0 1)) with (x / 2)
         end.




(* ------------------------------------------------------------------ *)
(** *** The UNet decoder *)





(* ================================================================== *)
(** ** Shape contracts of the UNet blocks *)







(* ================================================================== *)
(** ** The UNet encoder and decoder *)





Lemma map_shape5 (fs : list Tensor) s0 s1 s2 s3 s4 :
  map shape fs = [s0; s1; s2; s3; s4] ->
  exists x0 x1 x2 x3 x4,
    fs = [x0; x1; x2; x3; x4] /\ shape x0 = s0 /\ shape x1 = s1 /\
    shape x2 = s2 /\ shape x3 = s3 /\ shape x4 = s4.
Proof.
  destruct fs as [| x0 [| x1 [| x2 [| x3 [| x4 [| x5 l]]]]]]; cbn;
    try discriminate.
  intros H. injection H as H0 H1 H2 H3 H4.
  exists x0, x1, x2, x3, x4. auto 10.
Qed.




(* ------------------------------------------------------------------ *)
(** *** Decoding a pyramid; batch halves *)




Lemma broadcast_rev_same : forall s, broadcast_rev s s = Ok s.
Proof.
  induction s as [| x s IH]; cbn; [reflexivity |].
  now rewrite IH, Nat.eqb_refl.
Qed.

Lemma broadcast_same s : broadcast s s = Ok s.
Proof. unfold broadcast. now rewrite broadcast_rev_same, rev_involutive. Qed.

(* ================================================================== *)
(** ** [UNet.forward]: shapes per mode *)









(* ------------------------------------------------------------------ *)
(** *** Broadcasting two batches of the same sample shape *)

Lemma broadcast_rev_cons x a y b :
  broadcast_rev (x :: a) (y :: b)
    = match broadcast_rev a b with
      | Raise e => Raise e
      | Ok r =>
          if x =? y then Ok (x :: r)
          else if x =? 1 then Ok (y :: r)
          else if y =? 1 then Ok (x :: r)
          else Raise RuntimeError
      end.
Proof. reflexivity. Qed.













(* ================================================================== *)
(** ** Shape contracts of the VNet blocks *)

Lemma norm_ops_spec tr name nm c ops n sp :
  VNet.norm_ops name nm c = Ok ops -> List.length sp = 3 ->
  (norm_passes tr nm n c sp ->
   seq_shape tr ops (n :: c :: sp) = Ok (n :: c :: sp)) /\
  (forall s', seq_shape tr ops (n :: c :: sp) = Ok s' ->
              s' = n :: c :: sp /\ norm_passes tr nm n c sp).
Proof.
  unfold VNet.norm_ops, norm_passes. intros Hops Hl.
  destruct (nm =? "batchnorm")%string.
  - injection Hops as <-. cbn [seq_shape layer_shape]. rewrite Hl.
    cbn [Nat.eqb negb]. rewrite Nat.eqb_refl. cbn [negb].
    destruct tr; cbn [andb].
    + destruct (n * prod_dims sp =? 1) eqn:E.
      * apply Nat.eqb_eq in E. split; [intros H; now destruct (H eq_refl) |].
        discriminate.
      * apply Nat.eqb_neq in E. split; [reflexivity |].
        intros s' H. injection H as <-. auto.
    + split; [reflexivity |]. intros s' H. injection H as <-.
      split; [reflexivity | discriminate].
  - destruct (nm =? "groupnorm")%string.
    + unfold GroupNorm_init in Hops.
      destruct (c mod 16 =? 0); [| discriminate].
      cbn [rbind] in Hops. injection Hops as <-.
      cbn [seq_shape layer_shape]. rewrite Nat.eqb_refl. cbn [negb].
      destruct (n * c / 16 * prod_dims sp =? 1) eqn:E.
      * apply Nat.eqb_eq in E. split; [intros H; now destruct H |].
        discriminate.
      * apply Nat.eqb_neq in E. split; [reflexivity |].
        intros s' H. injection H as <-. auto.
    + destruct (nm =? "instancenorm")%string.
      * injection Hops as <-. cbn [seq_shape layer_shape]. rewrite Hl.
        cbn [Nat.eqb negb].
        destruct (prod_dims sp =? 1) eqn:E.
        -- apply Nat.eqb_eq in E. split; [intros H; now destruct H |].
           discriminate.
        -- apply Nat.eqb_neq in E. split; [reflexivity |].
           intros s' H. injection H as <-. auto.
      * destruct (negb (nm =? "none")%string); [discriminate |].
        injection Hops as <-. cbn [seq_shape]. split; [reflexivity |].
        intros s' H. injection H as <-. auto.
Qed.

Lemma norm_ops_keeps name nm c ops :
  VNet.norm_ops name nm c = Ok ops -> forallb keeps_shape ops = true.
Proof.
  unfold VNet.norm_ops, GroupNorm_init. intros H.
  repeat match type of H with
         | context [if ?b then _ else _] => destruct b
         end;
    try discriminate; cbn [rbind] in H; injection H as <-; reflexivity.
Qed.

Lemma ConvBlock_stages_S name i todo fin fout nm :
  VNet.ConvBlock_stages name i (S todo) fin fout nm
    = (norm <-- VNet.norm_ops (VNet.stage_name name i) nm fout ;;
       rest <-- VNet.ConvBlock_stages name (S i) todo fin fout nm ;;
       Ok (Conv (VNet.stage_name name i) 3 (if i =? 0 then fin else fout)
             fout 3 1 1 :: norm ++ ReLU :: rest))%res.
Proof. reflexivity. Qed.

Lemma VNet_stages_shape tr name fin fout nm n d h w :
  1 <= d -> 1 <= h -> 1 <= w -> norm_passes tr nm n fout [d; h; w] ->
  forall todo i ops,
    VNet.ConvBlock_stages name i (S todo) fin fout nm = Ok ops ->
    seq_shape tr ops [n; if i =? 0 then fin else fout; d; h; w]
      = Ok [n; fout; d; h; w].
Proof.
  intros Hd Hh Hw Hnorm.
  induction todo as [| todo IH]; intros i ops H;
    rewrite ConvBlock_stages_S in H;
    destruct (VNet.norm_ops (VNet.stage_name name i) nm fout)
      as [norm |] eqn:En; try discriminate; cbn [rbind] in H;
    destruct (VNet.ConvBlock_stages name (S i) _ fin fout nm)
      as [rest |] eqn:Er; try discriminate; cbn [rbind] in H;
    injection H as <-;
    cbn [seq_shape]; rewrite layer_conv3_3d by assumption;
    rewrite seq_shape_app;
    rewrite (proj1 (@norm_ops_spec tr _ _ _ _ n [d; h; w] En eq_refl) Hnorm);
    cbn [seq_shape]; rewrite layer_relu.
  - cbn in Er. injection Er as <-. reflexivity.
  - apply (IH (S i)) in Er. exact Er.
Qed.

Lemma VNet_stages_inv tr name fin fout nm :
  forall todo i ops s s',
    VNet.ConvBlock_stages name i (S todo) fin fout nm = Ok ops ->
    seq_shape tr ops s = Ok s' ->
    exists n d h w,
      s = [n; if i =? 0 then fin else fout; d; h; w] /\
      s' = [n; fout; d; h; w] /\ 1 <= d /\ 1 <= h /\ 1 <= w /\
      norm_passes tr nm n fout [d; h; w].
Proof.
  induction todo as [| todo IH]; intros i ops s s' H Hs;
    rewrite ConvBlock_stages_S in H;
    destruct (VNet.norm_ops (VNet.stage_name name i) nm fout)
      as [norm |] eqn:En; try discriminate; cbn [rbind] in H;
    destruct (VNet.ConvBlock_stages name (S i) _ fin fout nm)
      as [rest |] eqn:Er; try discriminate; cbn [rbind] in H;
    injection H as <-;
    cbn [seq_shape] in Hs;
    destruct (layer_shape tr _ s) as [s1 |] eqn:E1; try discriminate;
    apply layer_conv_inv in E1 as (n & sp & sp' & -> & Hl & Hm & ->);
    apply map_res_same_inv in Hm as [-> Hsp];
    destruct (length3 _ Hl) as (d & h & w & ->);
    rewrite seq_shape_app in Hs;
    destruct (seq_shape tr norm _) as [s2 |] eqn:E2; try discriminate;
    apply (proj2 (@norm_ops_spec tr _ _ _ _ n [d; h; w] En eq_refl)) in E2
      as [-> Hnorm];
    cbn [seq_shape] in Hs; rewrite layer_relu in Hs;
    inversion Hsp as [| ? ? Hd Hsp1]; inversion Hsp1 as [| ? ? Hh Hsp2];
    inversion Hsp2 as [| ? ? Hw _]; subst.
  - cbn in Er. injection Er as <-. cbn in Hs. injection Hs as <-.
    exists n, d, h, w. auto 10.
  - destruct (IH (S i) _ _ _ Er Hs)
      as (n' & d' & h' & w' & Hs1 & -> & _).
    cbn [Nat.eqb] in Hs1. injection Hs1 as <- <- <- <-.
    exists n, d, h, w. auto 10.
Qed.

Lemma resample_norm_ops name nm c norm :
  (nm =? "none")%string = false ->
  VNet.resample_norm name nm c = Ok norm ->
  VNet.norm_ops name nm c = Ok norm.
Proof.
  unfold VNet.resample_norm, VNet.norm_ops. intros Hnone.
  destruct (nm =? "batchnorm")%string; [auto |].
  destruct (nm =? "groupnorm")%string; [auto |].
  destruct (nm =? "instancenorm")%string; [auto | discriminate].
Qed.

Lemma norm_ops_none name c : VNet.norm_ops name "none" c = Ok [].
Proof. reflexivity. Qed.

Lemma Downsampling_ops name fin fout st nm ops :
  VNet.DownsamplingConvBlock_init name fin fout st nm = Ok ops ->
  exists norm,
    VNet.norm_ops name nm fout = Ok norm /\
    ops = Conv name 3 fin fout st st 0 :: norm ++ [ReLU].
Proof.
  unfold VNet.DownsamplingConvBlock_init. cbv zeta.
  destruct (nm =? "none")%string eqn:En; cbn [negb]; intros H.
  - apply String.eqb_eq in En. subst nm. injection H as <-.
    exists []. split; [apply norm_ops_none | reflexivity].
  - destruct (VNet.resample_norm name nm fout) as [norm |] eqn:Er;
      [| discriminate].
    cbn [rbind] in H. injection H as <-.
    exists norm. split; [now apply resample_norm_ops | reflexivity].
Qed.

Lemma Upsampling_deconv_ops name fin fout st nm ops :
  VNet.UpsamplingDeconvBlock_init name fin fout st nm = Ok ops ->
  exists norm,
    VNet.norm_ops name nm fout = Ok norm /\
    ops = ConvTranspose name 3 fin fout st st :: norm ++ [ReLU].
Proof.
  unfold VNet.UpsamplingDeconvBlock_init. cbv zeta.
  destruct (nm =? "none")%string eqn:En; cbn [negb]; intros H.
  - apply String.eqb_eq in En. subst nm. injection H as <-.
    exists []. split; [apply norm_ops_none | reflexivity].
  - destruct (VNet.resample_norm name nm fout) as [norm |] eqn:Er;
      [| discriminate].
    cbn [rbind] in H. injection H as <-.
    exists norm. split; [now apply resample_norm_ops | reflexivity].
Qed.

Lemma VNet_down_shape tr name fin fout nm ops n d h w :
  VNet.DownsamplingConvBlock_init name fin fout 2 nm = Ok ops ->
  2 <= d -> 2 <= h -> 2 <= w ->
  norm_passes tr nm n fout [d / 2; h / 2; w / 2] ->
  seq_shape tr ops [n; fin; d; h; w] = Ok [n; fout; d / 2; h / 2; w / 2].
Proof.
  intros H Hd Hh Hw Hnorm.
  apply Downsampling_ops in H as (norm & En & ->).
  cbn [seq_shape]. rewrite layer_down_3d by assumption.
  rewrite seq_shape_app.
  rewrite (proj1 (@norm_ops_spec tr _ _ _ _ n [d / 2; h / 2; w / 2] En
                    eq_refl) Hnorm).
  reflexivity.
Qed.

Lemma VNet_down_inv tr name fin fout nm ops s s' :
  VNet.DownsamplingConvBlock_init name fin fout 2 nm = Ok ops ->
  seq_shape tr ops s = Ok s' ->
  exists n d h w,
    s = [n; fin; d; h; w] /\ s' = [n; fout; d / 2; h / 2; w / 2] /\
    2 <= d /\ 2 <= h /\ 2 <= w /\
    norm_passes tr nm n fout [d / 2; h / 2; w / 2].
Proof.
  intros H Hs. apply Downsampling_ops in H as (norm & En & ->).
  cbn [seq_shape] in Hs.
  destruct (layer_shape tr _ s) as [s1 |] eqn:E1; [| discriminate].
  apply layer_conv_inv in E1 as (n & sp & sp' & -> & Hl & Hm & ->).
  apply map_res_half_inv in Hm as [-> Hsp].
  destruct (length3 _ Hl) as (d & h & w & ->). cbn [halve map] in Hs.
  rewrite seq_shape_app in Hs.
  destruct (seq_shape tr norm _) as [s2 |] eqn:E2; [| discriminate].
  apply (proj2 (@norm_ops_spec tr _ _ _ _ n [d / 2; h / 2; w / 2] En
                  eq_refl)) in E2 as [-> Hnorm].
  cbn in Hs. injection Hs as <-.
  inversion Hsp as [| ? ? Hd Hsp1]. inversion Hsp1 as [| ? ? Hh Hsp2].
  inversion Hsp2 as [| ? ? Hw _]. subst.
  exists n, d, h, w. auto 10.
Qed.

Lemma VNet_up_shape tr name fin fout nm ops n d h w :
  VNet.UpsamplingDeconvBlock_init name fin fout 2 nm = Ok ops ->
  norm_passes tr nm n fout [d * 2; h * 2; w * 2] ->
  1 <= d -> 1 <= h -> 1 <= w ->
  seq_shape tr ops [n; fin; d; h; w] = Ok [n; fout; d * 2; h * 2; w * 2].
Proof.
  intros H Hnorm Hd Hh Hw.
  apply Upsampling_deconv_ops in H as (norm & En & ->).
  cbn [seq_shape]. rewrite layer_up_3d by assumption.
  rewrite seq_shape_app.
  rewrite (proj1 (@norm_ops_spec tr _ _ _ _ n [d * 2; h * 2; w * 2] En
                    eq_refl) Hnorm).
  reflexivity.
Qed.

Lemma VNet_up_inv tr name fin fout nm ops s s' :
  VNet.UpsamplingDeconvBlock_init name fin fout 2 nm = Ok ops ->
  seq_shape tr ops s = Ok s' ->
  exists n d h w,
    s = [n; fin; d; h; w] /\ s' = [n; fout; d * 2; h * 2; w * 2] /\
    norm_passes tr nm n fout [d * 2; h * 2; w * 2] /\
    1 <= d /\ 1 <= h /\ 1 <= w.
Proof.
  intros H Hs. apply Upsampling_deconv_ops in H as (norm & En & ->).
  cbn [seq_shape] in Hs.
  destruct (layer_shape tr _ s) as [s1 |] eqn:E1; [| discriminate].
  apply layer_convT_inv in E1 as (n & sp & -> & Hl & Hpos & ->).
  destruct (length3 _ Hl) as (d & h & w & ->).
  inversion Hpos as [| ? ? Hd Hpos1]. inversion Hpos1 as [| ? ? Hh Hpos2].
  inversion Hpos2 as [| ? ? Hw _]. subst.
  cbn [map] in Hs. rewrite !convT_out_double in Hs.
  rewrite seq_shape_app in Hs.
  destruct (seq_shape tr norm _) as [s2 |] eqn:E2; [| discriminate].
  apply (proj2 (@norm_ops_spec tr _ _ _ _ n [d * 2; h * 2; w * 2] En
                  eq_refl)) in E2 as [-> Hnorm].
  cbn in Hs. injection Hs as <-.
  exists n, d, h, w. auto 10.
Qed.

(* ------------------------------------------------------------------ *)
(** *** What [VNet.__init__] builds *)

Lemma VNet_init_built nch ncl nf nm hd gap ty m hd' :
  VNet.VNet_init nch ncl nf nm hd gap ty = Ok (m, hd') ->
  VNet_built nch ncl nf nm m /\ hd' = hd /\ VNet.training m = true.
Proof.
  unfold VNet.VNet_init. cbv zeta. intros H.
  repeat rbind_inv H.
  apply Dropout_init_ok in E17. subst.
  injection H as <- <-. unfold VNet_built.
  cbn [VNet.block_one VNet.block_one_dw VNet.block_two VNet.block_two_dw
       VNet.block_three VNet.block_three_dw VNet.block_four
       VNet.block_four_dw VNet.block_five VNet.block_five_up VNet.block_six
       VNet.block_six_up VNet.block_seven VNet.block_seven_up
       VNet.block_eight VNet.block_eight_up VNet.block_nine VNet.out_conv
       VNet.dropout VNet.training].
  repeat split; assumption.
Qed.

Lemma VNet_ConvBlock_shape tr name stages fin fout nm cb n d h w :
  VNet.ConvBlock_init name (S stages) fin fout nm = Ok cb ->
  1 <= d -> 1 <= h -> 1 <= w -> norm_passes tr nm n fout [d; h; w] ->
  seq_shape tr cb [n; fin; d; h; w] = Ok [n; fout; d; h; w].
Proof.
  unfold VNet.ConvBlock_init. intros H Hd Hh Hw Hnorm.
  exact (@VNet_stages_shape tr name fin fout nm n d h w Hd Hh Hw Hnorm
           stages 0 cb H).
Qed.

Lemma VNet_ConvBlock_inv tr name stages fin fout nm cb s s' :
  VNet.ConvBlock_init name (S stages) fin fout nm = Ok cb ->
  seq_shape tr cb s = Ok s' ->
  exists n d h w,
    s = [n; fin; d; h; w] /\ s' = [n; fout; d; h; w] /\
    1 <= d /\ 1 <= h /\ 1 <= w /\ norm_passes tr nm n fout [d; h; w].
Proof.
  unfold VNet.ConvBlock_init. intros H Hs.
  exact (@VNet_stages_inv tr name fin fout nm stages 0 cb s s' H Hs).
Qed.

Lemma norms_pass5 tr nm n c0 c1 c2 c3 c4 sp :
  norms_pass tr nm (pyramid_shapes n [c0; c1; c2; c3; c4] sp) <->
  norm_passes tr nm n c0 sp /\
  norm_passes tr nm n c1 (halve sp) /\
  norm_passes tr nm n c2 (halve (halve sp)) /\
  norm_passes tr nm n c3 (halve (halve (halve sp))) /\
  norm_passes tr nm n c4 (halve (halve (halve (halve sp)))).
Proof.
  unfold norms_pass. cbn [pyramid_shapes]. split.
  - intros H.
    inversion H as [| ? ? P0 Q0]. inversion Q0 as [| ? ? P1 Q1].
    inversion Q1 as [| ? ? P2 Q2]. inversion Q2 as [| ? ? P3 Q3].
    inversion Q3 as [| ? ? P4 _]. auto.
  - intros (P0 & P1 & P2 & P3 & P4). repeat constructor; assumption.
Qed.

(* ------------------------------------------------------------------ *)
(** *** The VNet encoder *)

Lemma VNet_encoder_returns m nch ncl nf nm x n d h w :
  VNet_built nch ncl nf nm m ->
  shape x = [n; nch; d; h; w] -> 16 <= d -> 16 <= h -> 16 <= w ->
  norms_pass (VNet.training m) nm
    (pyramid_shapes n (VNet_chns nf) [d; h; w]) ->
  returns_with (VNet.encoder m x)
    (fun fs => map shape fs = pyramid_shapes n (VNet_chns nf) [d; h; w]).
Proof.
  intros (B1 & D1 & B2 & D2 & B3 & D3 & B4 & D4 & B5 & _ & _ & _ & _ & _ &
          _ & _ & _ & _ & Hdrop) Hx Hd Hh Hw Hn.
  replace (2 * nf) with (nf * 2) in D1 by lia.
  apply norms_pass5 in Hn as (N0 & N1 & N2 & N3 & N4).
  cbn [halve map] in N1, N2, N3, N4.
  unfold VNet.encoder. cbv zeta.
  eapply rw_bind; [apply rw_log |]. intros _ _.
  eapply rw_bind.
  { apply rw_sequential. rewrite Hx.
    eapply VNet_ConvBlock_shape; eauto; lia. }
  intros x1 H1. eapply rw_bind.
  { apply rw_sequential. rewrite H1.
    eapply VNet_down_shape; eauto; lia. }
  intros x1d H1d. eapply rw_bind.
  { apply rw_sequential. rewrite H1d.
    eapply VNet_ConvBlock_shape; eauto; lia. }
  intros x2 H2. eapply rw_bind.
  { apply rw_sequential. rewrite H2.
    eapply VNet_down_shape; eauto; lia. }
  intros x2d H2d. eapply rw_bind.
  { apply rw_sequential. rewrite H2d.
    eapply VNet_ConvBlock_shape; eauto; lia. }
  intros x3 H3. eapply rw_bind.
  { apply rw_sequential. rewrite H3.
    eapply VNet_down_shape; eauto; lia. }
  intros x3d H3d. eapply rw_bind.
  { apply rw_sequential. rewrite H3d.
    eapply VNet_ConvBlock_shape; eauto; lia. }
  intros x4 H4. eapply rw_bind.
  { apply rw_sequential. rewrite H4.
    eapply VNet_down_shape; eauto; lia. }
  intros x4d H4d. eapply rw_bind.
  { apply rw_sequential. rewrite H4d.
    eapply VNet_ConvBlock_shape; eauto; lia. }
  intros x5 H5. eapply rw_bind; [apply rw_get_self |]. intros hd _.
  eapply rw_bind with (P := fun t => shape t = shape x5).
  { destruct hd; [| now apply rw_ret].
    apply rw_apply_layer. rewrite Hdrop. apply layer_dropout. }
  intros x5' H5'. apply rw_ret.
  cbn [map pyramid_shapes VNet_chns halve].
  now rewrite H1, H2, H3, H4, H5', H5.
Qed.

Lemma list5_inj {A} (a b c d e a' b' c' d' e' : A) :
  [a; b; c; d; e] = [a'; b'; c'; d'; e'] ->
  a = a' /\ b = b' /\ c = c' /\ d = d' /\ e = e'.
Proof. intros H. injection H. auto. Qed.

Lemma VNet_encoder_inv m nch ncl nf nm x :
  VNet_built nch ncl nf nm m ->
  on_return (VNet.encoder m x)
    (fun fs => exists n d h w,
       shape x = [n; nch; d; h; w] /\ 16 <= d /\ 16 <= h /\ 16 <= w /\
       norms_pass (VNet.training m) nm
         (pyramid_shapes n (VNet_chns nf) [d; h; w]) /\
       map shape fs = pyramid_shapes n (VNet_chns nf) [d; h; w]).
Proof.
  intros (B1 & D1 & B2 & D2 & B3 & D3 & B4 & D4 & B5 & _ & _ & _ & _ & _ &
          _ & _ & _ & _ & Hdrop) w0 w' fs H.
  replace (2 * nf) with (nf * 2) in D1 by lia.
  unfold VNet.encoder in H. cbv zeta in H.
  inv_bind H. clear E.
  inv_bind H. rename a0 into x1. inv_bind H. rename a0 into x1d.
  inv_bind H. rename a0 into x2. inv_bind H. rename a0 into x2d.
  inv_bind H. rename a0 into x3. inv_bind H. rename a0 into x3d.
  inv_bind H. rename a0 into x4. inv_bind H. rename a0 into x4d.
  inv_bind H. rename a0 into x5. inv_bind H. clear E8.
  inv_bind H. rename a1 into x5'. apply ret_inv in H as [_ ->].
  assert (H5' : shape x5' = shape x5).
  { destruct a0.
    - apply or_apply_layer in E8. rewrite Hdrop, layer_dropout in E8.
      now injection E8.
    - apply ret_inv in E8 as [_ ->]. reflexivity. }
  apply or_sequential in E, E0, E1, E2, E3, E4, E5, E6, E7.
  destruct (@VNet_ConvBlock_inv _ _ _ _ _ _ _ _ _ B1 E)
    as (n & d & h & wd & Hx & H1 & Hd1 & Hh1 & Hw1 & N0).
  rewrite H1 in E0.
  destruct (@VNet_down_inv _ _ _ _ _ _ _ _ D1 E0)
    as (n1 & d1 & h1 & wd1 & Hs & H1d & Hd2 & Hh2 & Hw2 & _).
  apply list5_inj in Hs as (<- & _ & <- & <- & <-). rewrite H1d in E1.
  destruct (@VNet_ConvBlock_inv _ _ _ _ _ _ _ _ _ B2 E1)
    as (n2 & d2 & h2 & wd2 & Hs & H2 & _ & _ & _ & N1).
  apply list5_inj in Hs as (<- & _ & <- & <- & <-). rewrite H2 in E2.
  destruct (@VNet_down_inv _ _ _ _ _ _ _ _ D2 E2)
    as (n3 & d3 & h3 & wd3 & Hs & H2d & Hd3 & Hh3 & Hw3 & _).
  apply list5_inj in Hs as (<- & _ & <- & <- & <-). rewrite H2d in E3.
  destruct (@VNet_ConvBlock_inv _ _ _ _ _ _ _ _ _ B3 E3)
    as (n4 & d4 & h4 & wd4 & Hs & H3 & _ & _ & _ & N2).
  apply list5_inj in Hs as (<- & _ & <- & <- & <-). rewrite H3 in E4.
  destruct (@VNet_down_inv _ _ _ _ _ _ _ _ D3 E4)
    as (n5 & d5 & h5 & wd5 & Hs & H3d & Hd4 & Hh4 & Hw4 & _).
  apply list5_inj in Hs as (<- & _ & <- & <- & <-). rewrite H3d in E5.
  destruct (@VNet_ConvBlock_inv _ _ _ _ _ _ _ _ _ B4 E5)
    as (n6 & d6 & h6 & wd6 & Hs & H4 & _ & _ & _ & N3).
  apply list5_inj in Hs as (<- & _ & <- & <- & <-). rewrite H4 in E6.
  destruct (@VNet_down_inv _ _ _ _ _ _ _ _ D4 E6)
    as (n7 & d7 & h7 & wd7 & Hs & H4d & Hd5 & Hh5 & Hw5 & _).
  apply list5_inj in Hs as (<- & _ & <- & <- & <-). rewrite H4d in E7.
  destruct (@VNet_ConvBlock_inv _ _ _ _ _ _ _ _ _ B5 E7)
    as (n8 & d8 & h8 & wd8 & Hs & H5 & _ & _ & _ & N4).
  apply list5_inj in Hs as (<- & _ & <- & <- & <-).
  exists n, d, h, wd. split; [exact Hx |].
  split; [lia |]. split; [lia |]. split; [lia |]. split.
  - apply norms_pass5. cbn [halve map]. auto.
  - cbn [map pyramid_shapes VNet_chns halve].
    now rewrite H1, H2, H3, H4, H5', H5.
Qed.

(* ------------------------------------------------------------------ *)
(** *** The VNet decoder *)

Lemma VNet_decoder_steps m nch ncl nf nm x1 x2 x3 x4 x5 rest n a b c nd :
  VNet_built nch ncl nf nm m ->
  shape x5 = [n; nf * 16; a; b; c] ->
  shape x4 = [n; nf * 8; a * 2; b * 2; c * 2] ->
  shape x3 = [n; nf * 4; a * 2 * 2; b * 2 * 2; c * 2 * 2] ->
  shape x2 = [n; nf * 2; a * 2 * 2 * 2; b * 2 * 2 * 2; c * 2 * 2 * 2] ->
  shape x1 = [n; nf; a * 2 * 2 * 2 * 2; b * 2 * 2 * 2 * 2;
              c * 2 * 2 * 2 * 2] ->
  1 <= a -> 1 <= b -> 1 <= c ->
  norm_passes (VNet.training m) nm n (nf * 8) [a * 2; b * 2; c * 2] ->
  norm_passes (VNet.training m) nm n (nf * 4)
    [a * 2 * 2; b * 2 * 2; c * 2 * 2] ->
  norm_passes (VNet.training m) nm n (nf * 2)
    [a * 2 * 2 * 2; b * 2 * 2 * 2; c * 2 * 2 * 2] ->
  norm_passes (VNet.training m) nm n nf
    [a * 2 * 2 * 2 * 2; b * 2 * 2 * 2 * 2; c * 2 * 2 * 2 * 2] ->
  returns_with (VNet.decoder m (x1 :: x2 :: x3 :: x4 :: x5 :: rest) nd)
    (fun t => shape t = [n; ncl; a * 2 * 2 * 2 * 2; b * 2 * 2 * 2 * 2;
                         c * 2 * 2 * 2 * 2]).
Proof.
  intros (_ & _ & _ & _ & _ & _ & _ & _ & _ & U5 & B6 & U6 & B7 & U7 & B8 &
          U8 & B9 & Hout & Hdrop) S5 S4 S3 S2 S1 Ha Hb Hc N3 N2 N1 N0.
  unfold VNet.decoder. cbv zeta.
  eapply rw_bind; [apply rw_log |]. intros _ _.
  eapply rw_bind; [apply rw_feat_index; reflexivity |]. intros ? ->.
  eapply rw_bind; [apply rw_feat_index; reflexivity |]. intros ? ->.
  eapply rw_bind; [apply rw_feat_index; reflexivity |]. intros ? ->.
  eapply rw_bind; [apply rw_feat_index; reflexivity |]. intros ? ->.
  eapply rw_bind; [apply rw_feat_index; reflexivity |]. intros ? ->.
  eapply rw_bind.
  { apply rw_sequential. rewrite S5. eapply VNet_up_shape; eauto; lia. }
  intros u5 Hu5. eapply rw_bind.
  { apply rw_torch_add. rewrite Hu5, S4. apply broadcast_same. }
  intros u5' Hu5'. eapply rw_bind.
  { apply rw_sequential. rewrite Hu5'.
    eapply VNet_ConvBlock_shape; eauto; lia. }
  intros x6 H6. eapply rw_bind.
  { apply rw_sequential. rewrite H6. eapply VNet_up_shape; eauto; lia. }
  intros u6 Hu6. eapply rw_bind.
  { apply rw_torch_add. rewrite Hu6, S3. apply broadcast_same. }
  intros u6' Hu6'. eapply rw_bind.
  { apply rw_sequential. rewrite Hu6'.
    eapply VNet_ConvBlock_shape; eauto; lia. }
  intros x7 H7. eapply rw_bind.
  { apply rw_sequential. rewrite H7. eapply VNet_up_shape; eauto; lia. }
  intros u7 Hu7. eapply rw_bind.
  { apply rw_torch_add. rewrite Hu7, S2. apply broadcast_same. }
  intros u7' Hu7'. eapply rw_bind.
  { apply rw_sequential. rewrite Hu7'.
    eapply VNet_ConvBlock_shape; eauto; lia. }
  intros x8 H8. eapply rw_bind.
  { apply rw_sequential. rewrite H8. eapply VNet_up_shape; eauto; lia. }
  intros u8 Hu8. eapply rw_bind.
  { apply rw_torch_add. rewrite Hu8, S1. apply broadcast_same. }
  intros u8' Hu8'. eapply rw_bind.
  { apply rw_sequential. rewrite Hu8'.
    eapply VNet_ConvBlock_shape; eauto; lia. }
  intros x9 H9.
  eapply rw_bind with (P := fun t => shape t = shape x9).
  { destruct nd; cbn [negb]; [now apply rw_ret |].
    eapply rw_bind; [apply rw_get_self |]. intros hd _.
    destruct hd; [| now apply rw_ret].
    apply rw_apply_layer. rewrite Hdrop. apply layer_dropout. }
  intros x9' H9'. apply rw_apply_layer. rewrite Hout, H9', H9.
  apply layer_conv1_3d; lia.
Qed.

Lemma shape5_eq (n c a b d a' b' d' : nat) :
  a = a' -> b = b' -> d = d' -> [n; c; a; b; d] = [n; c; a'; b'; d'].
Proof. now intros -> -> ->. Qed.

(** Two batches of volumes, none of whose extents is 1, add up only when
    their extents agree. *)
Lemma broadcast5_inv n c a1 a2 a3 b1 b2 b3 s :
  broadcast [n; c; a1; a2; a3] [n; c; b1; b2; b3] = Ok s ->
  a1 <> 1 -> a2 <> 1 -> a3 <> 1 -> b1 <> 1 -> b2 <> 1 -> b3 <> 1 ->
  a1 = b1 /\ a2 = b2 /\ a3 = b3 /\ s = [n; c; a1; a2; a3].
Proof.
  unfold broadcast. cbn [rev app].
  rewrite !broadcast_rev_cons. cbn [broadcast_rev].
  rewrite !Nat.eqb_refl.
  intros H A1 A2 A3 B1 B2 B3.
  destruct (a1 =? b1) eqn:E1.
  - destruct (a2 =? b2) eqn:E2.
    + destruct (a3 =? b3) eqn:E3.
      * apply Nat.eqb_eq in E1, E2, E3. subst.
        cbn in H. injection H as <-. auto.
      * apply Nat.eqb_neq in E3.
        destruct (a3 =? 1) eqn:F3; [apply Nat.eqb_eq in F3; lia |].
        destruct (b3 =? 1) eqn:G3; [apply Nat.eqb_eq in G3; lia |].
        discriminate.
    + destruct (a2 =? 1) eqn:F2; [apply Nat.eqb_eq in F2; lia |].
      destruct (b2 =? 1) eqn:G2; [apply Nat.eqb_eq in G2; lia |].
      discriminate.
  - destruct (a1 =? 1) eqn:F1; [apply Nat.eqb_eq in F1; lia |].
    destruct (b1 =? 1) eqn:G1; [apply Nat.eqb_eq in G1; lia |].
    discriminate.
Qed.

(** From the second-coarsest level upwards every extent is at least 2, and
    each normalisation accepts such a batch whatever its size. *)
Lemma norm_passes_big tr nm n c d h w :
  2 <= d -> 2 <= h -> 2 <= w -> norm_passes tr nm n c [d; h; w].
Proof.
  intros Hd Hh Hw. unfold norm_passes. cbn [prod_dims fold_right].
  assert (Hp : forall k, k * (d * (h * (w * 1))) <> 1).
  { intros k Hk. apply Nat.eq_mul_1 in Hk as [_ Hk].
    apply Nat.eq_mul_1 in Hk as [Hk _]. lia. }
  destruct (nm =? "batchnorm")%string; [intros _; apply Hp |].
  destruct (nm =? "groupnorm")%string; [apply Hp |].
  destruct (nm =? "instancenorm")%string; [| exact I].
  specialize (Hp 1). now rewrite Nat.mul_1_l in Hp.
Qed.

Lemma VNet_decoder_on_pyramid m nch ncl nf nm fs n d h w nd :
  VNet_built nch ncl nf nm m ->
  map shape fs = pyramid_shapes n (VNet_chns nf) [d; h; w] ->
  16 <= d -> 16 <= h -> 16 <= w ->
  d mod 16 = 0 -> h mod 16 = 0 -> w mod 16 = 0 ->
  returns_with (VNet.decoder m fs nd)
    (fun t => shape t = [n; ncl; d; h; w]).
Proof.
  intros Hm Hfs Hd Hh Hw Md Mh Mw.
  assert (N3 : norm_passes (VNet.training m) nm n (nf * 8)
                 [d / 2 / 2 / 2; h / 2 / 2 / 2; w / 2 / 2 / 2])
    by (apply norm_passes_big; lia).
  assert (N2 : norm_passes (VNet.training m) nm n (nf * 4)
                 [d / 2 / 2; h / 2 / 2; w / 2 / 2])
    by (apply norm_passes_big; lia).
  assert (N1 : norm_passes (VNet.training m) nm n (nf * 2)
                 [d / 2; h / 2; w / 2])
    by (apply norm_passes_big; lia).
  assert (N0 : norm_passes (VNet.training m) nm n nf [d; h; w])
    by (apply norm_passes_big; lia).
  cbn [pyramid_shapes VNet_chns halve map] in Hfs.
  apply map_shape5 in Hfs
    as (x1 & x2 & x3 & x4 & x5 & -> & S1 & S2 & S3 & S4 & S5).
  eapply rw_weaken.
  - eapply (@VNet_decoder_steps m nch ncl nf nm x1 x2 x3 x4 x5 [] n
              (d / 16) (h / 16) (w / 16) nd Hm).
    + rewrite S5. apply shape5_eq; lia.
    + rewrite S4. apply shape5_eq; lia.
    + rewrite S3. apply shape5_eq; lia.
    + rewrite S2. apply shape5_eq; lia.
    + rewrite S1. apply shape5_eq; lia.
    + lia.
    + lia.
    + lia.
    + replace (d / 16 * 2) with (d / 2 / 2 / 2) by lia.
      replace (h / 16 * 2) with (h / 2 / 2 / 2) by lia.
      replace (w / 16 * 2) with (w / 2 / 2 / 2) by lia. exact N3.
    + replace (d / 16 * 2 * 2) with (d / 2 / 2) by lia.
      replace (h / 16 * 2 * 2) with (h / 2 / 2) by lia.
      replace (w / 16 * 2 * 2) with (w / 2 / 2) by lia. exact N2.
    + replace (d / 16 * 2 * 2 * 2) with (d / 2) by lia.
      replace (h / 16 * 2 * 2 * 2) with (h / 2) by lia.
      replace (w / 16 * 2 * 2 * 2) with (w / 2) by lia. exact N1.
    + replace (d / 16 * 2 * 2 * 2 * 2) with d by lia.
      replace (h / 16 * 2 * 2 * 2 * 2) with h by lia.
      replace (w / 16 * 2 * 2 * 2 * 2) with w by lia. exact N0.
  - cbv beta. intros t ->. apply shape5_eq; lia.
Qed.

Lemma VNet_decoder_on_pyramid_inv m nch ncl nf nm fs n d h w nd :
  VNet_built nch ncl nf nm m ->
  map shape fs = pyramid_shapes n (VNet_chns nf) [d; h; w] ->
  16 <= d -> 16 <= h -> 16 <= w ->
  on_return (VNet.decoder m fs nd)
    (fun t => d mod 16 = 0 /\ h mod 16 = 0 /\ w mod 16 = 0 /\
              shape t = [n; ncl; d; h; w]).
Proof.
  intros (_ & _ & _ & _ & _ & _ & _ & _ & _ & U5 & B6 & U6 & B7 & U7 & B8 &
          U8 & B9 & Hout & Hdrop) Hfs Hd Hh Hw w0 w' t H.
  cbn [pyramid_shapes VNet_chns halve map] in Hfs.
  apply map_shape5 in Hfs
    as (x1 & x2 & x3 & x4 & x5 & -> & S1 & S2 & S3 & S4 & S5).
  unfold VNet.decoder in H. cbv zeta in H.
  inv_bind H. clear E.
  inv_bind H. apply or_feat_index in E. injection E as <-.
  inv_bind H. apply or_feat_index in E. injection E as <-.
  inv_bind H. apply or_feat_index in E. injection E as <-.
  inv_bind H. apply or_feat_index in E. injection E as <-.
  inv_bind H. apply or_feat_index in E. injection E as <-.
  (* block_five_up, + x4, block_six *)
  inv_bind H. rename a0 into u5. apply or_sequential in E. rewrite S5 in E.
  destruct (@VNet_up_inv _ _ _ _ _ _ _ _ U5 E)
    as (n' & q1 & q2 & q3 & Hs & Hu5 & _). clear E.
  apply list5_inj in Hs as (<- & _ & <- & <- & <-).
  inv_bind H. rename a0 into v5. apply or_torch_add in E.
  rewrite Hu5, S4 in E.
  apply broadcast5_inv in E as (F1 & F2 & F3 & Hv5); try lia.
  inv_bind H. rename a0 into x6. apply or_sequential in E. rewrite Hv5 in E.
  destruct (@VNet_ConvBlock_inv _ _ _ _ _ _ _ _ _ B6 E)
    as (n' & q1 & q2 & q3 & Hs & H6 & _). clear E.
  apply list5_inj in Hs as (<- & _ & <- & <- & <-).
  (* block_six_up, + x3, block_seven *)
  inv_bind H. rename a0 into u6. apply or_sequential in E. rewrite H6 in E.
  destruct (@VNet_up_inv _ _ _ _ _ _ _ _ U6 E)
    as (n' & q1 & q2 & q3 & Hs & Hu6 & _). clear E.
  apply list5_inj in Hs as (<- & _ & <- & <- & <-).
  inv_bind H. rename a0 into v6. apply or_torch_add in E.
  rewrite Hu6, S3 in E.
  apply broadcast5_inv in E as (G1 & G2 & G3 & Hv6); try lia.
  inv_bind H. rename a0 into x7. apply or_sequential in E. rewrite Hv6 in E.
  destruct (@VNet_ConvBlock_inv _ _ _ _ _ _ _ _ _ B7 E)
    as (n' & q1 & q2 & q3 & Hs & H7 & _). clear E.
  apply list5_inj in Hs as (<- & _ & <- & <- & <-).
  (* block_seven_up, + x2, block_eight *)
  inv_bind H. rename a0 into u7. apply or_sequential in E. rewrite H7 in E.
  destruct (@VNet_up_inv _ _ _ _ _ _ _ _ U7 E)
    as (n' & q1 & q2 & q3 & Hs & Hu7 & _). clear E.
  apply list5_inj in Hs as (<- & _ & <- & <- & <-).
  inv_bind H. rename a0 into v7. apply or_torch_add in E.
  rewrite Hu7, S2 in E.
  apply broadcast5_inv in E as (I1 & I2 & I3 & Hv7); try lia.
  inv_bind H. rename a0 into x8. apply or_sequential in E. rewrite Hv7 in E.
  destruct (@VNet_ConvBlock_inv _ _ _ _ _ _ _ _ _ B8 E)
    as (n' & q1 & q2 & q3 & Hs & H8 & _). clear E.
  apply list5_inj in Hs as (<- & _ & <- & <- & <-).
  (* block_eight_up, + x1, block_nine *)
  inv_bind H. rename a0 into u8. apply or_sequential in E. rewrite H8 in E.
  destruct (@VNet_up_inv _ _ _ _ _ _ _ _ U8 E)
    as (n' & q1 & q2 & q3 & Hs & Hu8 & _). clear E.
  apply list5_inj in Hs as (<- & _ & <- & <- & <-).
  inv_bind H. rename a0 into v8. apply or_torch_add in E.
  rewrite Hu8, S1 in E.
  apply broadcast5_inv in E as (J1 & J2 & J3 & Hv8); try lia.
  inv_bind H. rename a0 into x9. apply or_sequential in E. rewrite Hv8 in E.
  destruct (@VNet_ConvBlock_inv _ _ _ _ _ _ _ _ _ B9 E)
    as (n' & q1 & q2 & q3 & Hs & H9 & _). clear E.
  apply list5_inj in Hs as (<- & _ & <- & <- & <-).
  (* dropout, out_conv *)
  inv_bind H. rename a0 into y9.
  assert (Hy9 : shape y9 = shape x9).
  { destruct nd; cbn [negb] in E.
    - apply ret_inv in E as [_ ->]. reflexivity.
    - inv_bind E. destruct a0.
      + apply or_apply_layer in E. rewrite Hdrop, layer_dropout in E.
        now injection E.
      + apply ret_inv in E as [_ ->]. reflexivity. }
  apply or_apply_layer in H. rewrite Hout, Hy9, H9 in H.
  apply layer_conv_inv in H as (n' & sp & sp' & Hs & _ & Hm & Ht).
  apply map_res_1x1_inv in Hm as [-> _].
  injection Hs as <- <-. fold_half.
  split; [lia |]. split; [lia |]. split; [lia |].
  rewrite Ht. apply shape5_eq; lia.
Qed.

(* ================================================================== *)
(** ** Shape contracts of vnet.py *)

(** X10.  [ConvBlock] of vnet.py on batched (five-dimensional) input, for
    channel counts of at least 1.  With [n_stages = 0] the block is the
    identity.  With [n_stages >= 1] it
    returns on every batch [n; n_filters_in; d; h; w] with extents of at
    least 1 that the chosen normalisation accepts, with the result
    [n; n_filters_out; d; h; w], and on no other five-dimensional input:
    only the first stage reads [n_filters_in]. *)
Theorem VNet_ConvBlock_contract :
  forall (Self : Type) tr name stages fin fout nm cb,
    1 <= fin -> 1 <= fout ->
    VNet.ConvBlock_init name stages fin fout nm = Ok cb ->
    (stages = 0 ->
     forall x (w : World Self), sequential tr cb x w = (w, Ok x)) /\
    (1 <= stages ->
     (forall x n d h w,
         shape x = [n; fin; d; h; w] -> 1 <= d -> 1 <= h -> 1 <= w ->
         norm_passes tr nm n fout [d; h; w] ->
         returns_with (sequential (Self := Self) tr cb x)
           (fun t => shape t = [n; fout; d; h; w])) /\
     (forall x,
         List.length (shape x) = 5 ->
         on_return (sequential (Self := Self) tr cb x)
           (fun t => exists n d h w,
              shape x = [n; fin; d; h; w] /\ 1 <= d /\ 1 <= h /\ 1 <= w /\
              norm_passes tr nm n fout [d; h; w] /\
              shape t = [n; fout; d; h; w]))).
Proof.
  intros Self tr name stages fin fout nm cb _ _ Hcb. split.
  - intros -> x w. cbn in Hcb. injection Hcb as <-. reflexivity.
  - intros Hs. destruct stages as [| stages]; [lia |]. split.
    + intros x n d h w Hx Hd Hh Hw Hn. apply rw_sequential. rewrite Hx.
      eapply VNet_ConvBlock_shape; eauto.
    + intros x _ w0 w' t H. apply or_sequential in H.
      destruct (@VNet_ConvBlock_inv _ _ _ _ _ _ _ _ _ Hcb H)
        as (n & d & h & wd & Hx & Ht & Hd & Hh & Hw & Hn).
      exists n, d, h, wd. auto 10.
Qed.

Lemma VNet_ConvBlock_contract_witness :
  let cb := match VNet.ConvBlock_init "b" 2 1 16 "batchnorm" with
            | Ok cb => cb
            | Raise _ => []
            end in
  let x := input_of 2 1 [1; 1; 1] in
  returns_with (sequential (Self := unit) true cb x)
    (fun t => shape t = [2; 16; 1; 1; 1]) /\
  on_return (sequential (Self := unit) true cb x)
    (fun t => exists n d h w,
       shape x = [n; 1; d; h; w] /\ 1 <= d /\ 1 <= h /\ 1 <= w /\
       norm_passes true "batchnorm" n 16 [d; h; w] /\
       shape t = [n; 16; d; h; w]).
Proof.
  cbv zeta. split.
  - refine (proj1 (proj2 (@VNet_ConvBlock_contract unit true "b" 2 1 16
                            "batchnorm" _ (le_n 1) ltac:(lia) eq_refl) _)
              (input_of 2 1 [1; 1; 1]) 2 1 1 1 eq_refl _ _ _ _).
    + lia.
    + lia.
    + lia.
    + lia.
    + intros _. discriminate.
  - refine (proj2 (proj2 (@VNet_ConvBlock_contract unit true "b" 2 1 16
                            "batchnorm" _ (le_n 1) ltac:(lia) eq_refl) _)
              (input_of 2 1 [1; 1; 1]) eq_refl).
    lia.
Defined.



Lemma vnet_1_2_blocks : VNet_built 1 2 16 "none" vnet_1_2.
Proof. unfold VNet_built. repeat split; reflexivity. Qed.

(** X12.  [VNet.encoder] of a model built by [VNet.__init__] with channel
    counts of at least 1, on batched (five-dimensional) input.  It returns on every batch
    [n; n_channels; d; h; w] with extents of at least 16 on which the
    normalisation accepts each of the five levels, and on no other
    five-dimensional input.  It returns five feature maps: level [i] has
    [n_filters * 2^i] channels and the extents of the input halved [i]
    times, rounding down.  The dropout applied to the last level when
    [has_dropout] is set changes no shape. *)
Theorem VNet_encoder_pyramid :
  forall m nch ncl nf nm,
    1 <= nch -> 1 <= nf ->
    VNet_built nch ncl nf nm m ->
    (forall x n d h w,
        shape x = [n; nch; d; h; w] -> 16 <= d -> 16 <= h -> 16 <= w ->
        norms_pass (VNet.training m) nm
          (pyramid_shapes n (VNet_chns nf) [d; h; w]) ->
        returns_with (VNet.encoder m x)
          (fun fs =>
             map shape fs = pyramid_shapes n (VNet_chns nf) [d; h; w])) /\
    (forall x,
        List.length (shape x) = 5 ->
        on_return (VNet.encoder m x)
          (fun fs => exists n d h w,
             shape x = [n; nch; d; h; w] /\
             16 <= d /\ 16 <= h /\ 16 <= w /\
             norms_pass (VNet.training m) nm
               (pyramid_shapes n (VNet_chns nf) [d; h; w]) /\
             map shape fs = pyramid_shapes n (VNet_chns nf) [d; h; w])).
Proof.
  intros m nch ncl nf nm _ _ Hm. split.
  - intros x n d h w Hx Hd Hh Hw Hn. eapply VNet_encoder_returns; eauto.
  - intros x _. eapply VNet_encoder_inv; eauto.
Qed.

Lemma VNet_encoder_pyramid_witness :
  let x := input_of 1 1 [16; 35; 20] in
  returns_with (VNet.encoder vnet_1_2 x)
    (fun fs =>
       map shape fs
         = [[1; 16; 16; 35; 20]; [1; 32; 8; 17; 10]; [1; 64; 4; 8; 5];
            [1; 128; 2; 4; 2]; [1; 256; 1; 2; 1]]) /\
  on_return (VNet.encoder vnet_1_2 x)
    (fun fs => exists n d h w,
       shape x = [n; 1; d; h; w] /\
       16 <= d /\ 16 <= h /\ 16 <= w /\
       norms_pass (VNet.training vnet_1_2) "none"
         (pyramid_shapes n (VNet_chns 16) [d; h; w]) /\
       map shape fs = pyramid_shapes n (VNet_chns 16) [d; h; w]).
Proof.
  cbv zeta. split.
  - refine (proj1 (@VNet_encoder_pyramid vnet_1_2 1 2 16 "none"
                     (le_n 1) ltac:(lia) _)
              (input_of 1 1 [16; 35; 20]) 1 16 35 20 eq_refl _ _ _ _).
    + unfold VNet_built. repeat split; reflexivity.
    + lia.
    + lia.
    + lia.
    + unfold norms_pass. repeat constructor.
  - refine (proj2 (@VNet_encoder_pyramid vnet_1_2 1 2 16 "none"
                     (le_n 1) ltac:(lia) _)
              (input_of 1 1 [16; 35; 20]) eq_refl).
    unfold VNet_built. repeat split; reflexivity.
Defined.

(** X13.  The VNet decoder (of a model with channel and class counts of
    at least 1) restores the resolution of the encoder input, and only
    for extents that are multiples of 16: on the feature list
    that the encoder returned for a batched (five-dimensional) input,
    which then is some [n; n_channels; d; h; w], the decoder returns
    exactly when 16 divides [d], [h] and [w], and its result then has shape
    [n; n_classes; d; h; w], whatever [no_drop] is. *)
Theorem VNet_decoder_restores_resolution :
  forall m nch ncl nf nm x fs nd (w0 w1 : World bool),
    1 <= nch -> 1 <= ncl -> 1 <= nf ->
    VNet_built nch ncl nf nm m ->
    List.length (shape x) = 5 ->
    VNet.encoder m x w0 = (w1, Ok fs) ->
    exists n d h w,
      shape x = [n; nch; d; h; w] /\
      (d mod 16 = 0 -> h mod 16 = 0 -> w mod 16 = 0 ->
       returns_with (VNet.decoder m fs nd)
         (fun t => shape t = [n; ncl; d; h; w])) /\
      on_return (VNet.decoder m fs nd)
        (fun t => d mod 16 = 0 /\ h mod 16 = 0 /\ w mod 16 = 0 /\
                  shape t = [n; ncl; d; h; w]).
Proof.
  intros m nch ncl nf nm x fs nd w0 w1 _ _ _ Hm _ E.
  destruct (@VNet_encoder_inv m nch ncl nf nm x Hm _ _ _ E)
    as (n & d & h & wd & Hx & Hd & Hh & Hw & Hn & Hfs).
  exists n, d, h, wd. split; [exact Hx |]. split.
  - intros Md Mh Mw. eapply VNet_decoder_on_pyramid; eauto.
  - eapply VNet_decoder_on_pyramid_inv; eauto.
Qed.

Lemma VNet_decoder_restores_resolution_witness :
  let r := VNet.encoder vnet_1_2 (input_of 2 1 [16; 32; 16]) (world0 true) in
  match snd r with
  | Ok fs =>
      returns_with (VNet.decoder vnet_1_2 fs false)
        (fun t => shape t = [2; 2; 16; 32; 16])
  | Raise _ => False
  end.
Proof.
  cbv zeta.
  destruct (VNet.encoder vnet_1_2 (input_of 2 1 [16; 32; 16]) (world0 true))
    as [w1 [fs | e]] eqn:E; cbn [snd].
  - destruct (@VNet_decoder_restores_resolution vnet_1_2 1 2 16 "none"
                (input_of 2 1 [16; 32; 16]) fs false (world0 true) w1
                (le_n 1) ltac:(lia) ltac:(lia) vnet_1_2_blocks eq_refl E)
      as (n & d & h & w & Hx & Hret & _).
    cbn in Hx. injection Hx as <- <- <- <-. apply Hret; reflexivity.
  - vm_compute in E. discriminate.
Defined.

(* ================================================================== *)
(** ** [VNet.forward]: shapes per mode *)

Lemma VNet_forward_plain_eq m x td fp ty :
  fp = false \/ (ty <> "normal" /\ ty <> "strong")%string ->
  VNet.forward m x td fp ty
    = (saved <- (if td
                 then has_dropout <- (get_self : M bool bool) ;;
                      set_self false ;;; ret (Some has_dropout)
                 else ret None) ;;
       features <- VNet.encoder m x ;;
       out <- VNet.decoder m features false ;;
       (if td
        then match saved with
             | Some has_dropout => set_self has_dropout
             | None => ret tt
             end
        else ret tt) ;;;
       ret (Single out)).
Proof.
  intros [-> | [Hn Hs]]; unfold VNet.forward; cbv zeta; [reflexivity |].
  apply String.eqb_neq in Hn, Hs. rewrite Hn, Hs.
  destruct fp; reflexivity.
Qed.

Lemma rw_prelude (td : bool) :
  returns_with
    (if td
     then has_dropout <- (get_self : M bool bool) ;;
          set_self false ;;; ret (Some has_dropout)
     else ret None)
    (fun _ => True).
Proof.
  destruct td; [| now apply rw_ret].
  eapply rw_bind; [apply rw_get_self |]. intros hd _.
  eapply rw_bind; [apply rw_set_self |]. intros _ _. now apply rw_ret.
Qed.

(** X14.  Outside the two perturbation modes [VNet.forward] returns one
    tensor, for either value of [turnoff_drop].  For a model built by
    [VNet.__init__] with channel and class counts of at least 1 and a
    batched (five-dimensional) input it returns
    exactly on the batches [n; n_channels; d; h; w] whose extents are
    positive multiples of 16 and on which the normalisation accepts the
    five encoder levels; the result has shape [n; n_classes; d; h; w]. *)
Theorem VNet_forward_plain :
  forall m nch ncl nf nm x td fp ty,
    1 <= nch -> 1 <= ncl -> 1 <= nf ->
    VNet_built nch ncl nf nm m ->
    fp = false \/ (ty <> "normal" /\ ty <> "strong")%string ->
    (forall n d h w,
        shape x = [n; nch; d; h; w] ->
        16 <= d -> 16 <= h -> 16 <= w ->
        d mod 16 = 0 -> h mod 16 = 0 -> w mod 16 = 0 ->
        norms_pass (VNet.training m) nm
          (pyramid_shapes n (VNet_chns nf) [d; h; w]) ->
        returns_with (VNet.forward m x td fp ty)
          (fun o => exists t,
             o = Single t /\ shape t = [n; ncl; d; h; w])) /\
    (List.length (shape x) = 5 ->
     on_return (VNet.forward m x td fp ty)
       (fun o => exists t n d h w,
          o = Single t /\ shape x = [n; nch; d; h; w] /\
          16 <= d /\ 16 <= h /\ 16 <= w /\
          d mod 16 = 0 /\ h mod 16 = 0 /\ w mod 16 = 0 /\
          norms_pass (VNet.training m) nm
            (pyramid_shapes n (VNet_chns nf) [d; h; w]) /\
          shape t = [n; ncl; d; h; w])).
Proof.
  intros m nch ncl nf nm x td fp ty _ _ _ Hm Hmode.
  rewrite (VNet_forward_plain_eq m x td Hmode). split.
  - intros n d h w Hx Hd Hh Hw Md Mh Mw Hn.
    eapply rw_bind; [apply rw_prelude |]. intros saved _.
    eapply rw_bind; [eapply VNet_encoder_returns; eauto |].
    intros fs Hfs. cbv beta in Hfs.
    eapply rw_bind; [eapply VNet_decoder_on_pyramid; eauto |].
    intros t Ht. eapply rw_bind with (P := fun _ => True).
    { destruct td; [| now apply rw_ret].
      destruct saved; [apply rw_set_self | now apply rw_ret]. }
    intros _ _. apply rw_ret. eauto.
  - intros _ w0 w' o H. inv_bind H. clear E. inv_bind H. inv_bind H.
    inv_bind H. clear E1. apply ret_inv in H as [_ ->].
    destruct (@VNet_encoder_inv m nch ncl nf nm x Hm _ _ _ E)
      as (n & d & h & wd & Hx & Hd & Hh & Hw & Hn & Hfs).
    destruct (@VNet_decoder_on_pyramid_inv m nch ncl nf nm _ n d h wd false
                Hm Hfs Hd Hh Hw _ _ _ E0) as (Md & Mh & Mw & Ht).
    exists a1, n, d, h, wd. auto 12.
Qed.

Lemma VNet_forward_plain_witness :
  let x := input_of 1 1 [16; 16; 32] in
  returns_with (VNet.forward vnet_1_2 x true false "normal")
    (fun o => exists t, o = Single t /\ shape t = [1; 2; 16; 16; 32]) /\
  on_return (VNet.forward vnet_1_2 x true false "normal")
    (fun o => exists t n d h w,
       o = Single t /\ shape x = [n; 1; d; h; w] /\
       16 <= d /\ 16 <= h /\ 16 <= w /\
       d mod 16 = 0 /\ h mod 16 = 0 /\ w mod 16 = 0 /\
       norms_pass (VNet.training vnet_1_2) "none"
         (pyramid_shapes n (VNet_chns 16) [d; h; w]) /\
       shape t = [n; 2; d; h; w]).
Proof.
  cbv zeta. split.
  - refine (proj1 (@VNet_forward_plain vnet_1_2 1 2 16 "none"
                     (input_of 1 1 [16; 16; 32]) true false "normal"
                     (le_n 1) ltac:(lia) ltac:(lia)
                     _ (or_introl eq_refl))
              1 16 16 32 eq_refl _ _ _ _ _ _ _).
    + unfold VNet_built. repeat split; reflexivity.
    + lia.
    + lia.
    + lia.
    + reflexivity.
    + reflexivity.
    + reflexivity.
    + unfold norms_pass. repeat constructor.
  - refine (proj2 (@VNet_forward_plain vnet_1_2 1 2 16 "none"
                     (input_of 1 1 [16; 16; 32]) true false "normal"
                     (le_n 1) ltac:(lia) ltac:(lia)
                     _ (or_introl eq_refl)) eq_refl).
    unfold VNet_built. repeat split; reflexivity.
Defined.







(* ================================================================== *)
(** ** [has_dropout] after a call of [VNet.forward] *)

Lemma stable_of_frame {Self A} (m : M Self A) : frame m -> self_stable m.
Proof. intros H w. apply (H w). Qed.

Lemma stable_of_logs {Self A} ev (m : M Self A) :
  logs_once ev m -> self_stable m.
Proof. intros H w. apply (H w). Qed.

Lemma stable_bind {Self A B} (m : M Self A) (f : A -> M Self B) :
  self_stable m -> (forall a, self_stable (f a)) -> self_stable (bind m f).
Proof.
  intros Hm Hf w. unfold bind. specialize (Hm w).
  destruct (m w) as [w1 [a | e]]; cbn [fst] in *.
  - now rewrite Hf.
  - exact Hm.
Qed.

Ltac stable_steps :=
  repeat first
    [ match goal with
      | |- self_stable (bind (VNet.decoder _ _ _) _) =>
          apply stable_bind;
          [eapply stable_of_logs; apply VNetLog.decoder_logs | intros]
      | |- self_stable (VNet.decoder _ _ _) =>
          eapply stable_of_logs; apply VNetLog.decoder_logs
      end
    | apply stable_of_frame; solve [frame_steps]
    | apply stable_bind; [| intros] ].

Lemma VNet_normal_stable m features :
  self_stable
    (features_perturbed <-
       mapM (fun feat => apply_layer (VNet.training m) (VNet.dropout m) feat)
         features ;;
     combined_features <-
       mapM (fun fp => torch_cat 0 (fst fp) (snd fp))
         (combine features features_perturbed) ;;
     outs <- VNet.decoder m combined_features true ;;
     cs <- chunk2 outs ;;
     ret (Tuple cs)).
Proof. stable_steps. Qed.

Lemma VNet_strong_stable m features :
  self_stable
    (halves <- VNet.split_halves features ;;
     masked <- mapM (VNet.mask_pair (7 # 10)%Q)
                 (combine (map fst halves) (map snd halves)) ;;
     pred_u_s1_clean <- VNet.decoder m (map fst halves) false ;;
     pred_u_s2_clean <- VNet.decoder m (map snd halves) false ;;
     pred_u_s1_weak <-
       VNet.decoder m (map (fun t => fst (fst t)) masked) false ;;
     pred_u_s2_strong <-
       VNet.decoder m (map (fun t => snd (fst t)) masked) false ;;
     pred_complete <- VNet.decoder m (map snd masked) false ;;
     ret (Tuple [pred_u_s1_clean; pred_u_s2_clean; pred_u_s1_weak;
                 pred_u_s2_strong; pred_complete])).
Proof.
  apply stable_bind;
    [apply stable_of_frame; apply VNetLog.frame_vnet_split_halves |].
  intros halves. apply stable_bind.
  { apply stable_of_frame. apply frame_mapM. intros.
    apply VNetLog.frame_vnet_mask_pair. }
  intros masked. stable_steps.
Qed.

(** X17.  What a call of [VNet.forward] leaves in [self.has_dropout].
    Without [turnoff_drop] the attribute is never changed.  With
    [turnoff_drop] it is put back to its old value only when the call
    reaches its last lines ([need_fp] false or [input_type] naming neither
    perturbation mode) and returns; after a return from the ["normal"] or
    ["strong"] branch, and after any exception raised inside the call, it is
    [False]. *)
Theorem VNet_forward_has_dropout :
  forall m x td fp ty (w : World bool),
    self_attrs (fst (VNet.forward m x td fp ty w))
      = if td
        then if plain_mode fp ty
                && is_ok (snd (VNet.forward m x td fp ty w))
             then self_attrs w
             else false
        else self_attrs w.
Proof.
  intros m x td fp ty w. unfold VNet.forward. cbv zeta.
  destruct td.
  - set (w0 := mkWorld false (rng w) (trace w)).
    assert (Epre :
      (has_dropout <- (get_self : M bool bool) ;;
       set_self false ;;; ret (Some has_dropout)) w
        = (w0, Ok (Some (self_attrs w)))) by reflexivity.
    rewrite (bind_Ok _ Epre).
    destruct (VNet.encoder m x w0) as [w1 [fs | e]] eqn:Ee.
    + rewrite (bind_Ok _ Ee).
      assert (H1 : self_attrs w1 = false).
      { pose proof (VNetLog.encoder_logs m x w0) as [_ H].
        rewrite Ee in H. exact H. }
      assert (Htail : forall wt rt,
        (out <- VNet.decoder m fs false ;;
         set_self (self_attrs w) ;;; ret (Single out)) w1 = (wt, rt) ->
        self_attrs wt = if is_ok rt then self_attrs w else false).
      { intros wt rt Ht.
        destruct (VNet.decoder m fs false w1) as [w2 [out | e]] eqn:Ed.
        - rewrite (bind_Ok _ Ed) in Ht. cbn in Ht.
          injection Ht as <- <-. reflexivity.
        - rewrite (bind_Raise _ Ed) in Ht. injection Ht as <- <-.
          pose proof (VNetLog.decoder_logs m fs false w1) as [_ H].
          rewrite Ed in H. cbn [fst is_ok] in *. congruence. }
      unfold plain_mode. destruct fp; cbn [negb orb].
      * destruct (ty =? "normal")%string; cbn [negb andb].
        -- rewrite (VNet_normal_stable m fs w1). exact H1.
        -- destruct (ty =? "strong")%string; cbn [negb andb].
           ++ rewrite (VNet_strong_stable m fs w1). exact H1.
           ++ apply Htail. apply surjective_pairing.
      * apply Htail. apply surjective_pairing.
    + rewrite (bind_Raise _ Ee). cbn [fst snd is_ok].
      rewrite andb_false_r.
      pose proof (VNetLog.encoder_logs m x w0) as [_ H].
      rewrite Ee in H. exact H.
  - assert (Hs : self_stable
      (features <- VNet.encoder m x ;;
       if fp
       then if (ty =? "normal")%string
            then
              features_perturbed <-
                mapM (fun feat =>
                        apply_layer (VNet.training m) (VNet.dropout m) feat)
                  features ;;
              combined_features <-
                mapM (fun fp0 => torch_cat 0 (fst fp0) (snd fp0))
                  (combine features features_perturbed) ;;
              outs <- VNet.decoder m combined_features true ;;
              cs <- chunk2 outs ;;
              ret (Tuple cs)
            else if (ty =? "strong")%string
                 then
                   halves <- VNet.split_halves features ;;
                   masked <- mapM (VNet.mask_pair (7 # 10)%Q)
                               (combine (map fst halves) (map snd halves)) ;;
                   pred_u_s1_clean <- VNet.decoder m (map fst halves) false ;;
                   pred_u_s2_clean <- VNet.decoder m (map snd halves) false ;;
                   pred_u_s1_weak <-
                     VNet.decoder m (map (fun t => fst (fst t)) masked)
                       false ;;
                   pred_u_s2_strong <-
                     VNet.decoder m (map (fun t => snd (fst t)) masked)
                       false ;;
                   pred_complete <- VNet.decoder m (map snd masked) false ;;
                   ret (Tuple [pred_u_s1_clean; pred_u_s2_clean;
                               pred_u_s1_weak; pred_u_s2_strong;
                               pred_complete])
                 else
                   out <- VNet.decoder m features false ;;
                   ret tt ;;; ret (Single out)
       else out <- VNet.decoder m features false ;;
            ret tt ;;; ret (Single out))).
    { apply stable_bind;
        [eapply stable_of_logs; apply VNetLog.encoder_logs |].
      intros features. destruct fp.
      - destruct (ty =? "normal")%string; [apply VNet_normal_stable |].
        destruct (ty =? "strong")%string; [apply VNet_strong_stable |].
        stable_steps.
      - stable_steps. }
    exact (Hs w).
Qed.

(* ================================================================== *)
(** ** The blocks that [VNet] does not instantiate *)

Lemma Residual_stages_S name i todo stages fin fout nm :
  VNetBlocks.ResidualConvBlock_stages name i (S todo) stages fin fout nm
    = (norm <-- VNet.norm_ops (VNet.stage_name name i) nm fout ;;
       rest <-- VNetBlocks.ResidualConvBlock_stages name (S i) todo stages
                  fin fout nm ;;
       Ok (Conv (VNet.stage_name name i) 3 (if i =? 0 then fin else fout)
             fout 3 1 1
           :: norm ++ (if negb (i =? stages - 1) then [ReLU] else []) ++ rest))%res.
Proof. reflexivity. Qed.

Lemma seq_shape_relu_opt tr (b : bool) rest s :
  seq_shape tr ((if b then [ReLU] else []) ++ rest) s = seq_shape tr rest s.
Proof. destruct b; reflexivity. Qed.

Lemma Residual_stages_shape tr name stages fin fout nm n d h w :
  1 <= d -> 1 <= h -> 1 <= w -> norm_passes tr nm n fout [d; h; w] ->
  forall todo i ops,
    VNetBlocks.ResidualConvBlock_stages name i (S todo) stages fin fout nm
      = Ok ops ->
    seq_shape tr ops [n; if i =? 0 then fin else fout; d; h; w]
      = Ok [n; fout; d; h; w].
Proof.
  intros Hd Hh Hw Hnorm.
  induction todo as [| todo IH]; intros i ops H;
    rewrite Residual_stages_S in H;
    destruct (VNet.norm_ops (VNet.stage_name name i) nm fout)
      as [norm |] eqn:En; try discriminate; cbn [rbind] in H;
    destruct (VNetBlocks.ResidualConvBlock_stages name (S i) _ stages fin
                fout nm) as [rest |] eqn:Er; try discriminate;
    cbn [rbind] in H; injection H as <-;
    cbn [seq_shape]; rewrite layer_conv3_3d by assumption;
    rewrite seq_shape_app;
    rewrite (proj1 (@norm_ops_spec tr _ _ _ _ n [d; h; w] En eq_refl) Hnorm);
    rewrite seq_shape_relu_opt.
  - cbn in Er. injection Er as <-. reflexivity.
  - apply (IH (S i)) in Er. exact Er.
Qed.

Lemma Residual_stages_inv tr name stages fin fout nm :
  forall todo i ops s s',
    VNetBlocks.ResidualConvBlock_stages name i (S todo) stages fin fout nm
      = Ok ops ->
    seq_shape tr ops s = Ok s' ->
    exists n d h w,
      s = [n; if i =? 0 then fin else fout; d; h; w] /\
      s' = [n; fout; d; h; w] /\ 1 <= d /\ 1 <= h /\ 1 <= w /\
      norm_passes tr nm n fout [d; h; w].
Proof.
  induction todo as [| todo IH]; intros i ops s s' H Hs;
    rewrite Residual_stages_S in H;
    destruct (VNet.norm_ops (VNet.stage_name name i) nm fout)
      as [norm |] eqn:En; try discriminate; cbn [rbind] in H;
    destruct (VNetBlocks.ResidualConvBlock_stages name (S i) _ stages fin
                fout nm) as [rest |] eqn:Er; try discriminate;
    cbn [rbind] in H; injection H as <-;
    cbn [seq_shape] in Hs;
    destruct (layer_shape tr _ s) as [s1 |] eqn:E1; try discriminate;
    apply layer_conv_inv in E1 as (n & sp & sp' & -> & Hl & Hm & ->);
    apply map_res_same_inv in Hm as [-> Hsp];
    destruct (length3 _ Hl) as (d & h & w & ->);
    rewrite seq_shape_app in Hs;
    destruct (seq_shape tr norm _) as [s2 |] eqn:E2; try discriminate;
    apply (proj2 (@norm_ops_spec tr _ _ _ _ n [d; h; w] En eq_refl)) in E2
      as [-> Hnorm];
    rewrite seq_shape_relu_opt in Hs;
    inversion Hsp as [| ? ? Hd Hsp1]; inversion Hsp1 as [| ? ? Hh Hsp2];
    inversion Hsp2 as [| ? ? Hw _]; subst.
  - cbn in Er. injection Er as <-. cbn in Hs. injection Hs as <-.
    exists n, d, h, w. auto 10.
  - destruct (IH (S i) _ _ _ Er Hs)
      as (n' & d' & h' & w' & Hs1 & -> & _).
    cbn [Nat.eqb] in Hs1. injection Hs1 as <- <- <- <-.
    exists n, d, h, w. auto 10.
Qed.

Lemma broadcast_channels n a b d h w :
  broadcast [n; a; d; h; w] [n; b; d; h; w]
    = if a =? b then Ok [n; a; d; h; w]
      else if a =? 1 then Ok [n; b; d; h; w]
      else if b =? 1 then Ok [n; a; d; h; w]
      else Raise RuntimeError.
Proof.
  unfold broadcast. cbn [rev app].
  rewrite !broadcast_rev_cons. cbn [broadcast_rev].
  rewrite !Nat.eqb_refl.
  destruct (a =? b); [reflexivity |].
  destruct (a =? 1); [reflexivity |].
  destruct (b =? 1); reflexivity.
Qed.

Lemma norm_ops_plain name nm c norm :
  VNet.norm_ops name nm c = Ok norm ->
  filter is_relu norm = [] /\ filter is_conv norm = [].
Proof.
  unfold VNet.norm_ops, GroupNorm_init. intros H.
  repeat match type of H with
         | context [if ?b then _ else _] => destruct b
         end;
    try discriminate; cbn [rbind] in H; injection H as <-; split; reflexivity.
Qed.

Lemma Residual_stages_count name stages fin fout nm :
  forall todo i ops,
    i + todo = stages ->
    VNetBlocks.ResidualConvBlock_stages name i todo stages fin fout nm
      = Ok ops ->
    List.length (filter is_relu ops) = todo - 1 /\
    List.length (filter is_conv ops) = todo.
Proof.
  induction todo as [| todo IH]; intros i ops Hi H.
  - cbn in H. injection H as <-. split; reflexivity.
  - rewrite Residual_stages_S in H.
    destruct (VNet.norm_ops (VNet.stage_name name i) nm fout)
      as [norm |] eqn:En; try discriminate; cbn [rbind] in H.
    destruct (VNetBlocks.ResidualConvBlock_stages name (S i) todo stages fin
                fout nm) as [rest |] eqn:Er; try discriminate.
    cbn [rbind] in H. injection H as <-.
    destruct (@norm_ops_plain _ _ _ _ En) as [Hr Hc].
    destruct (IH (S i) rest ltac:(lia) Er) as [IHr IHc].
    cbn [filter is_relu is_conv]. rewrite !filter_app, Hr, Hc.
    cbn [app List.length]. rewrite !length_app, IHr, IHc.
    destruct (i =? stages - 1) eqn:E; cbn [negb filter is_relu is_conv
                                           List.length].
    + apply Nat.eqb_eq in E. split; lia.
    + apply Nat.eqb_neq in E. split; lia.
Qed.

Lemma residual_sum_shape n fin fout d h w :
  fout = fin \/ fout = 1 \/ fin = 1 ->
  broadcast [n; fout; d; h; w] [n; fin; d; h; w]
    = Ok [n; if fout =? 1 then fin else fout; d; h; w].
Proof.
  intros H. rewrite broadcast_channels.
  destruct (fout =? fin) eqn:E1.
  - apply Nat.eqb_eq in E1. subst fout. now destruct (fin =? 1).
  - apply Nat.eqb_neq in E1.
    destruct (fout =? 1) eqn:E2; [reflexivity |].
    apply Nat.eqb_neq in E2.
    destruct (fin =? 1) eqn:E3; [reflexivity |].
    apply Nat.eqb_neq in E3. lia.
Qed.

Lemma residual_sum_inv n fin fout d h w s :
  broadcast [n; fout; d; h; w] [n; fin; d; h; w] = Ok s ->
  (fout = fin \/ fout = 1 \/ fin = 1) /\
  s = [n; if fout =? 1 then fin else fout; d; h; w].
Proof.
  rewrite broadcast_channels.
  destruct (fout =? fin) eqn:E1.
  - apply Nat.eqb_eq in E1. subst fout. intros H. injection H as <-.
    split; [auto |]. now destruct (fin =? 1).
  - destruct (fout =? 1) eqn:E2.
    + apply Nat.eqb_eq in E2. intros H. injection H as <-. auto.
    + destruct (fin =? 1) eqn:E3; [| discriminate].
      apply Nat.eqb_eq in E3. intros H. injection H as <-. auto.
Qed.

(** X18.  [ResidualConvBlock] of vnet.py, for channel counts of at least
    1.  Its [conv] holds [n_stages]
    convolutions and [n_stages - 1] ReLUs: the last stage gets none, the
    ReLU is applied after the residual sum.  With [n_stages = 0] the
    block computes [relu(x + x)] on any input.  With [n_stages >= 1] and
    a batched (five-dimensional) input it returns exactly on the batches
    [n; n_filters_in; d; h; w] with extents of at least 1 that the
    normalisation accepts, provided the channel counts can be added:
    [n_filters_out = n_filters_in], or one of them is 1 and is broadcast.
    The result has [n_filters_out] channels unless [n_filters_out = 1],
    when it has [n_filters_in] channels. *)
Theorem ResidualConvBlock_contract :
  forall (Self : Type) tr name stages fin fout nm rb,
    1 <= fin -> 1 <= fout ->
    VNetBlocks.ResidualConvBlock_init name stages fin fout nm = Ok rb ->
    List.length (filter is_conv (VNetBlocks.conv rb)) = stages /\
    List.length (filter is_relu (VNetBlocks.conv rb)) = stages - 1 /\
    (stages = 0 ->
     forall x,
       returns_with (VNetBlocks.ResidualConvBlock_forward (Self := Self) tr rb x)
         (fun t => shape t = shape x /\
                   expr t = EApply ReLU (EAdd (expr x) (expr x)))) /\
    (1 <= stages ->
     (forall x n d h w,
         shape x = [n; fin; d; h; w] -> 1 <= d -> 1 <= h -> 1 <= w ->
         norm_passes tr nm n fout [d; h; w] ->
         fout = fin \/ fout = 1 \/ fin = 1 ->
         returns_with
           (VNetBlocks.ResidualConvBlock_forward (Self := Self) tr rb x)
           (fun t => shape t
                     = [n; if fout =? 1 then fin else fout; d; h; w])) /\
     (forall x,
         List.length (shape x) = 5 ->
         on_return
           (VNetBlocks.ResidualConvBlock_forward (Self := Self) tr rb x)
           (fun t => exists n d h w,
              shape x = [n; fin; d; h; w] /\ 1 <= d /\ 1 <= h /\ 1 <= w /\
              norm_passes tr nm n fout [d; h; w] /\
              (fout = fin \/ fout = 1 \/ fin = 1) /\
              shape t = [n; if fout =? 1 then fin else fout; d; h; w]))).
Proof.
  intros Self tr name stages fin fout nm rb _ _ Hrb.
  unfold VNetBlocks.ResidualConvBlock_init in Hrb.
  destruct (VNetBlocks.ResidualConvBlock_stages name 0 stages stages fin fout
              nm) as [ops |] eqn:Eops; [| discriminate].
  cbn [rbind] in Hrb. injection Hrb as <-.
  unfold VNetBlocks.ResidualConvBlock_forward.
  cbn [VNetBlocks.conv VNetBlocks.relu].
  destruct (@Residual_stages_count name stages fin fout nm stages 0 ops
              eq_refl Eops) as [Hr Hc].
  split; [exact Hc |]. split; [exact Hr |]. split.
  - intros -> x w0. cbn in Eops. injection Eops as <-.
    unfold bind, torch_add, apply_layer, ret. cbn [sequential ret].
    rewrite broadcast_same. cbn [shape layer_shape].
    do 2 eexists. split; [reflexivity |]. split; reflexivity.
  - intros Hs. destruct stages as [| stages]; [lia |]. split.
    + intros x n d h w Hx Hd Hh Hw Hn Hch.
      eapply rw_bind.
      { apply rw_sequential. rewrite Hx.
        exact (@Residual_stages_shape tr name (S stages) fin fout nm n d h w
                 Hd Hh Hw Hn stages 0 ops Eops). }
      intros y Hy. eapply rw_bind.
      { apply rw_torch_add. rewrite Hy, Hx.
        apply residual_sum_shape. exact Hch. }
      intros z Hz. apply rw_apply_layer. rewrite Hz. reflexivity.
    + intros x _ w0 w' t H. inv_bind H. inv_bind H.
      apply or_sequential in E. apply or_torch_add in E0.
      apply or_apply_layer in H.
      destruct (@Residual_stages_inv tr name (S stages) fin fout nm stages 0
                  ops _ _ Eops E)
        as (n & d & h & wd & Hx & Hy & Hd & Hh & Hw & Hn).
      cbn [Nat.eqb] in Hx. rewrite Hy, Hx in E0.
      apply residual_sum_inv in E0 as [Hch Ha0].
      cbn [layer_shape] in H. injection H as H.
      exists n, d, h, wd. rewrite <- H, Ha0. auto 10.
Qed.

Lemma ResidualConvBlock_contract_witness :
  let rb := match VNetBlocks.ResidualConvBlock_init "r" 2 16 1 "none" with
            | Ok rb => rb
            | Raise _ => VNetBlocks.mkResidual [] ReLU
            end in
  let x := input_of 2 16 [4; 4; 4] in
  returns_with (VNetBlocks.ResidualConvBlock_forward (Self := unit) true rb x)
    (fun t => shape t = [2; 16; 4; 4; 4]) /\
  on_return (VNetBlocks.ResidualConvBlock_forward (Self := unit) true rb x)
    (fun t => exists n d h w,
       shape x = [n; 16; d; h; w] /\ 1 <= d /\ 1 <= h /\ 1 <= w /\
       norm_passes true "none" n 1 [d; h; w] /\
       (1 = 16 \/ 1 = 1 \/ 16 = 1) /\
       shape t = [n; if 1 =? 1 then 16 else 1; d; h; w]).
Proof.
  cbv zeta. split.
  - refine (proj1 (proj2 (proj2 (proj2
              (@ResidualConvBlock_contract unit true "r" 2 16 1 "none" _
                 ltac:(lia) (le_n 1) eq_refl))) _)
              (input_of 2 16 [4; 4; 4]) 2 4 4 4 eq_refl _ _ _ _ _).
    + lia.
    + lia.
    + lia.
    + lia.
    + exact I.
    + right. left. reflexivity.
  - refine (proj2 (proj2 (proj2 (proj2
              (@ResidualConvBlock_contract unit true "r" 2 16 1 "none" _
                 ltac:(lia) (le_n 1) eq_refl))) _)
              (input_of 2 16 [4; 4; 4]) eq_refl).
    lia.
Defined.



(* ================================================================== *)
(** ** What the constructors accept *)

Lemma Dropout_init_spec kind p :
  match Dropout_init kind p with
  | Ok l => l = Dropout kind p /\ valid_p p
  | Raise e => e = ValueError /\ ~ valid_p p
  end.
Proof.
  unfold Dropout_init, valid_p.
  destruct (PrimFloat.ltb p 0 || PrimFloat.ltb 1 p)%bool.
  - split; [reflexivity | discriminate].
  - split; reflexivity.
Qed.

Lemma dropout_type_spec ty :
  match VNet.dropout_type ty with
  | Ok _ => In ty dropout_type_keys
  | Raise e => e = KeyError /\ ~ In ty dropout_type_keys
  end.
Proof.
  unfold VNet.dropout_type, dropout_type_keys.
  destruct (ty =? "dropout")%string eqn:E1;
    [apply String.eqb_eq in E1; subst; cbn; auto |].
  destruct (ty =? "alpha")%string eqn:E2;
    [apply String.eqb_eq in E2; subst; cbn; auto |].
  destruct (ty =? "feature")%string eqn:E3;
    [apply String.eqb_eq in E3; subst; cbn; auto |].
  apply String.eqb_neq in E1, E2, E3.
  split; [reflexivity |]. cbn. intros [H | [H | [H | []]]]; congruence.
Qed.

Lemma VNet_pert_init_spec p ty :
  match VNet.PertDropout_init p ty with
  | Ok _ =>
      In ty dropout_type_keys /\
      valid_p (0.5 - p / 2)%float /\ valid_p (0.5 + p / 2)%float
  | Raise e =>
      (e = KeyError /\ ~ In ty dropout_type_keys) \/
      (e = ValueError /\ In ty dropout_type_keys /\
       ~ (valid_p (0.5 - p / 2)%float /\ valid_p (0.5 + p / 2)%float))
  end.
Proof.
  unfold VNet.PertDropout_init. cbv zeta.
  pose proof (dropout_type_spec ty) as Hk.
  destruct (VNet.dropout_type ty) as [k | e]; cbn [rbind].
  - pose proof (Dropout_init_spec k (0.5 - p / 2)) as Hw.
    destruct (Dropout_init k (0.5 - p / 2)) as [weak | e].
    + destruct Hw as (_ & Hw). cbn [rbind].
      pose proof (Dropout_init_spec k (0.5 + p / 2)) as Hs.
      destruct (Dropout_init k (0.5 + p / 2)) as [strong | e].
      * destruct Hs as (_ & Hs). cbn [rbind]. auto.
      * destruct Hs as [-> Hs]. cbn [rbind]. right.
        split; [reflexivity |]. split; [exact Hk |]. tauto.
    + destruct Hw as [-> Hw]. cbn [rbind]. right.
      split; [reflexivity |]. split; [exact Hk |]. tauto.
  - left. exact Hk.
Qed.

Lemma norm_ops_ok name nm c :
  In nm valid_norms -> (nm = "groupnorm"%string -> c mod 16 = 0) ->
  exists norm, VNet.norm_ops name nm c = Ok norm.
Proof.
  unfold valid_norms. intros [<- | [<- | [<- | [<- | []]]]] Hg;
    unfold VNet.norm_ops; cbn [String.eqb Ascii.eqb Bool.eqb negb];
    try (eexists; reflexivity).
  unfold GroupNorm_init. rewrite (Hg eq_refl). cbn. eexists. reflexivity.
Qed.

Lemma ConvBlock_stages_ok name fin fout nm :
  In nm valid_norms -> (nm = "groupnorm"%string -> fout mod 16 = 0) ->
  forall todo i,
    exists ops, VNet.ConvBlock_stages name i todo fin fout nm = Ok ops.
Proof.
  intros Hv Hg. induction todo as [| todo IH]; intros i.
  - eexists. reflexivity.
  - rewrite ConvBlock_stages_S.
    destruct (norm_ops_ok (VNet.stage_name name i) fout Hv Hg) as [norm ->].
    destruct (IH (S i)) as [rest ->]. cbn [rbind]. eexists. reflexivity.
Qed.

Lemma resample_norm_ok name nm c :
  In nm valid_norms -> (nm = "groupnorm"%string -> c mod 16 = 0) ->
  (nm =? "none")%string = false ->
  exists norm, VNet.resample_norm name nm c = Ok norm.
Proof.
  unfold valid_norms. intros [<- | [<- | [<- | [<- | []]]]] Hg Hn;
    try discriminate;
    unfold VNet.resample_norm; cbn [String.eqb Ascii.eqb Bool.eqb];
    try (eexists; reflexivity).
  unfold GroupNorm_init. rewrite (Hg eq_refl). cbn. eexists. reflexivity.
Qed.

Lemma Downsampling_ok name fin fout st nm :
  In nm valid_norms -> (nm = "groupnorm"%string -> fout mod 16 = 0) ->
  exists ops, VNet.DownsamplingConvBlock_init name fin fout st nm = Ok ops.
Proof.
  intros Hv Hg. unfold VNet.DownsamplingConvBlock_init. cbv zeta.
  destruct (nm =? "none")%string eqn:En; cbn [negb];
    [eexists; reflexivity |].
  destruct (resample_norm_ok name fout Hv Hg En) as [norm ->].
  cbn [rbind]. eexists. reflexivity.
Qed.

Lemma Upsampling_deconv_ok name fin fout st nm :
  In nm valid_norms -> (nm = "groupnorm"%string -> fout mod 16 = 0) ->
  exists ops, VNet.UpsamplingDeconvBlock_init name fin fout st nm = Ok ops.
Proof.
  intros Hv Hg. unfold VNet.UpsamplingDeconvBlock_init. cbv zeta.
  destruct (nm =? "none")%string eqn:En; cbn [negb];
    [eexists; reflexivity |].
  destruct (resample_norm_ok name fout Hv Hg En) as [norm ->].
  cbn [rbind]. eexists. reflexivity.
Qed.

Lemma VNet_init_ok nch ncl nf nm hd gap ty pd :
  VNet.PertDropout_init gap ty = Ok pd ->
  In nm valid_norms -> (nm = "groupnorm"%string -> nf mod 16 = 0) ->
  exists m, VNet.VNet_init nch ncl nf nm hd gap ty = Ok (m, hd).
Proof.
  intros Hpd Hv Hg. unfold VNet.VNet_init, VNet.ConvBlock_init. cbv zeta.
  rewrite Hpd. cbn [rbind].
  repeat match goal with
  | |- exists m,
         rbind (VNet.ConvBlock_stages ?name 0 ?st ?fin ?fout nm) _ = _ =>
      let H := fresh in
      destruct (@ConvBlock_stages_ok name fin fout nm Hv
                  ltac:(intros Hgn; specialize (Hg Hgn); lia) st 0)
        as [? H];
      rewrite H; cbn [rbind]
  | |- exists m,
         rbind (VNet.DownsamplingConvBlock_init ?name ?fin ?fout ?st nm) _
         = _ =>
      let H := fresh in
      destruct (@Downsampling_ok name fin fout st nm Hv
                  ltac:(intros Hgn; specialize (Hg Hgn); lia))
        as [? H];
      rewrite H; cbn [rbind]
  | |- exists m,
         rbind (VNet.UpsamplingDeconvBlock_init ?name ?fin ?fout ?st nm) _
         = _ =>
      let H := fresh in
      destruct (@Upsampling_deconv_ok name fin fout st nm Hv
                  ltac:(intros Hgn; specialize (Hg Hgn); lia))
        as [? H];
      rewrite H; cbn [rbind]
  end.
  change (Dropout_init Drop3d 0.5) with (Ok (Dropout Drop3d 0.5)).
  cbn [rbind]. eexists. reflexivity.
Qed.

(** X21.  How [VNet.__init__] ends, and in which order it can fail, for
    channel counts from 1 to [max_channels] at every layer.  It raises
    [KeyError] when [pert_type] is not a key of [dropout_type], whatever
    the other arguments are; otherwise [ValueError] when [nn.Dropout]
    rejects one of the doubles [0.5 - pert_gap / 2] and
    [0.5 + pert_gap / 2]; otherwise [AssertionError] when [normalization]
    is not one of the four accepted values; otherwise [ValueError] when
    [normalization] is ["groupnorm"] and 16 does not divide [n_filters]
    (GroupNorm with 16 groups).  In every other case the model is
    constructed, in training mode, with [has_dropout] as given. *)
Theorem VNet_init_outcome :
  forall nch ncl nf nm hd gap ty,
    modest nch -> modest ncl -> modest nf -> modest (nf * 16) ->
    let bottom := (0.5 - gap / 2)%float in
    let top := (0.5 + gap / 2)%float in
    match VNet.VNet_init nch ncl nf nm hd gap ty with
    | Ok (m, hd') =>
        hd' = hd /\ VNet.training m = true /\ VNet_built nch ncl nf nm m /\
        In ty dropout_type_keys /\ valid_p bottom /\ valid_p top /\
        In nm valid_norms /\ (nm = "groupnorm"%string -> nf mod 16 = 0)
    | Raise e =>
        (e = KeyError /\ ~ In ty dropout_type_keys) \/
        (e = ValueError /\ In ty dropout_type_keys /\
         ~ (valid_p bottom /\ valid_p top)) \/
        (e = AssertionError /\ In ty dropout_type_keys /\
         valid_p bottom /\ valid_p top /\ ~ In nm valid_norms) \/
        (e = ValueError /\ In ty dropout_type_keys /\
         valid_p bottom /\ valid_p top /\
         nm = "groupnorm"%string /\ nf mod 16 <> 0)
    end.
Proof.
  intros nch ncl nf nm hd gap ty _ _ _ _. cbv zeta.
  pose proof (VNet_pert_init_spec gap ty) as Hp.
  destruct (VNet.PertDropout_init gap ty) as [pd | ep] eqn:Epd.
  - destruct Hp as (Hk & Hlo & Hhi).
    assert (Hb1 : forall e,
      VNet.ConvBlock_init "block_one" 1 nch nf nm = Raise e ->
      VNet.VNet_init nch ncl nf nm hd gap ty = Raise e).
    { intros e He. unfold VNet.VNet_init. cbv zeta.
      rewrite Epd. cbn [rbind]. rewrite He. reflexivity. }
    destruct (in_dec string_dec nm valid_norms) as [Hv | Hv].
    + destruct (string_dec nm "groupnorm") as [Hgn | Hgn].
      * destruct (Nat.eq_dec (nf mod 16) 0) as [Hm | Hm].
        -- destruct (@VNet_init_ok nch ncl nf nm hd gap ty pd Epd Hv
                       (fun _ => Hm)) as [m Em].
           rewrite Em. destruct (VNet_init_built _ _ _ _ _ _ _ Em)
             as (Hbuilt & _ & Htr). auto 10.
        -- rewrite (Hb1 ValueError).
           ++ do 3 right. auto 10.
           ++ subst nm. unfold VNet.ConvBlock_init.
              rewrite ConvBlock_stages_S. unfold VNet.norm_ops.
              cbn [String.eqb Ascii.eqb Bool.eqb]. unfold GroupNorm_init.
              apply Nat.eqb_neq in Hm. rewrite Hm. reflexivity.
      * destruct (@VNet_init_ok nch ncl nf nm hd gap ty pd Epd Hv
                    (fun H => False_ind _ (Hgn H))) as [m Em].
        rewrite Em. destruct (VNet_init_built _ _ _ _ _ _ _ Em)
          as (Hbuilt & _ & Htr).
        repeat (split; [assumption || reflexivity |]). intros H.
        contradiction.
    + rewrite (Hb1 AssertionError).
      * right. right. left. auto 10.
      * unfold VNet.ConvBlock_init.
        apply ConvBlock_stages_assert. split; [lia | exact Hv].
  - assert (E : VNet.VNet_init nch ncl nf nm hd gap ty = Raise ep).
    { unfold VNet.VNet_init. cbv zeta. rewrite Epd. reflexivity. }
    rewrite E. destruct Hp as [Hp | Hp]; [left | right; left]; exact Hp.
Qed.

Lemma VNet_init_outcome_witness :
  (VNet.training vnet_1_2 = true /\ VNet_built 1 2 16 "none" vnet_1_2) /\
  VNet.VNet_init 1 2 16 "groupnorm" false 0.5%float "gaussian"
    = Raise KeyError.
Proof.
  assert (M1 : modest 1) by (unfold modest, max_channels; lia).
  assert (M2 : modest 2) by (unfold modest, max_channels; lia).
  assert (M16 : modest 16) by (unfold modest, max_channels; lia).
  assert (M256 : modest (16 * 16)) by (unfold modest, max_channels; cbn; lia).
  split.
  - pose proof (@VNet_init_outcome 1 2 16 "none" false 0.5%float "dropout"
                  M1 M2 M16 M256) as H.
    cbv zeta in H.
    destruct (VNet.VNet_init 1 2 16 "none" false 0.5 "dropout")
      as [[m hd'] | e] eqn:E; [| vm_compute in E; discriminate].
    assert (Hm : m = vnet_1_2).
    { unfold vnet_1_2. rewrite E. reflexivity. }
    subst m. destruct H as (_ & Ht & Hb & _). exact (conj Ht Hb).
  - pose proof (@VNet_init_outcome 1 2 16 "groupnorm" false 0.5%float
                  "gaussian" M1 M2 M16 M256) as H.
    cbv zeta in H.
    destruct (VNet.VNet_init 1 2 16 "groupnorm" false 0.5 "gaussian")
      as [[m hd'] | e] eqn:E; [vm_compute in E; discriminate |].
    destruct H as [[-> _] | [(_ & Hk & _) | [(_ & Hk & _) | (_ & Hk & _)]]];
      try reflexivity;
      exfalso; cbn in Hk; destruct Hk as [Hk | [Hk | [Hk | []]]];
      discriminate.
Defined.

(* ================================================================== *)
(** ** The constructors of unet.py *)

Lemma UNet_ConvBlock_init_spec name cin cout p :
  match UNet.ConvBlock_init name cin cout p with
  | Ok _ => valid_p p
  | Raise e => e = ValueError /\ ~ valid_p p
  end.
Proof.
  unfold UNet.ConvBlock_init, valid_p.
  pose proof (Dropout_init_spec PlainDrop p) as H.
  destruct (Dropout_init PlainDrop p); cbn [rbind].
  - tauto.
  - exact H.
Qed.

Lemma UNet_DownBlock_init_spec name cin cout p :
  match UNet.DownBlock_init name cin cout p with
  | Ok _ => valid_p p
  | Raise e => e = ValueError /\ ~ valid_p p
  end.
Proof.
  unfold UNet.DownBlock_init.
  pose proof (UNet_ConvBlock_init_spec (name ++ ".1") cin cout p) as H.
  destruct (UNet.ConvBlock_init (name ++ ".1") cin cout p); cbn [rbind];
    exact H.
Qed.

(** X22.  [UNet(in_chns, class_num)] does not raise, for channel and
    class counts from 1 to [max_channels].  The model it returns is in
    training mode, its encoder and decoder are the ones [Encoder] and
    [Decoder] build from the same [params] (features 16, 32, 64, 128,
    256), and although [params['bilinear']] is [False] all four [UpBlock]s
    of the decoder take the bilinear path, because [Decoder] never passes
    the flag on. *)
Theorem UNet_init_outcome :
  forall in_chns class_num,
    modest in_chns -> modest class_num ->
    exists m params,
      UNet.UNet_init in_chns class_num = Ok m /\
      UNet.Encoder_init params = Ok (UNet.encoder m) /\
      UNet.Decoder_init params = Ok (UNet.decoder m) /\
      UNet.PertDropout_init 0.5%float = Ok (UNet.pert m) /\
      UNet.training m = true /\
      UNet.in_chns params = in_chns /\
      UNet.class_num params = class_num /\
      UNet.feature_chns params = [16; 32; 64; 128; 256] /\
      UNet.bilinear params = false /\
      Forall (fun ub => is_bilinear ub = true)
             (UNet_up_blocks (UNet.decoder m)).
Proof.
  intros in_chns class_num _ _.
  eexists. exists (UNet.mkParams in_chns [16; 32; 64; 128; 256]
              [0.05; 0.1; 0.2; 0.3; 0.5]%float
              class_num false "relu").
  split; [reflexivity |].
  repeat split; repeat constructor.
Qed.

Lemma UNet_init_outcome_witness :
  exists m params,
    UNet.UNet_init 1 4 = Ok m /\
    UNet.Encoder_init params = Ok (UNet.encoder m) /\
    UNet.Decoder_init params = Ok (UNet.decoder m) /\
    UNet.PertDropout_init 0.5%float = Ok (UNet.pert m) /\
    UNet.training m = true /\
    UNet.in_chns params = 1 /\
    UNet.class_num params = 4 /\
    UNet.feature_chns params = [16; 32; 64; 128; 256] /\
    UNet.bilinear params = false /\
    Forall (fun ub => is_bilinear ub = true)
           (UNet_up_blocks (UNet.decoder m)).
Proof.
  apply (@UNet_init_outcome 1 4); unfold modest, max_channels; lia.
Defined.

(** X23.  How [Encoder.__init__] ends on a [params] dict that holds the
    keys it reads, with channel counts from 1 to [max_channels].  It raises
    [AssertionError] exactly when [feature_chns] does not have five
    entries.  Otherwise block [k] (for k = 0..4, in this order) reads
    [dropout[k]]: a list that is too short gives [IndexError], a
    probability that [nn.Dropout] rejects ([p < 0] or [p > 1]) gives
    [ValueError]; the first block that fails decides.  The encoder is
    built exactly when the first five dropout entries exist and are
    accepted; further entries are never read. *)
Theorem UNet_Encoder_init_outcome :
  forall params,
    modest (UNet.in_chns params) ->
    Forall modest (UNet.feature_chns params) ->
    let ft := UNet.feature_chns params in
    let dp := UNet.dropout params in
    match UNet.Encoder_init params with
    | Ok enc =>
        List.length ft = 5 /\ 5 <= List.length dp /\
        Forall valid_p (firstn 5 dp) /\ UNet.enc_params enc = params
    | Raise e =>
        (e = AssertionError /\ List.length ft <> 5) \/
        (List.length ft = 5 /\
         exists k,
           k < 5 /\ k <= List.length dp /\ Forall valid_p (firstn k dp) /\
           match nth_error dp k with
           | None => e = IndexError
           | Some p => e = ValueError /\ ~ valid_p p
           end)
    end.
Proof.
  intros [ic ft dp cn bl af] _ _. cbv zeta.
  cbn [UNet.feature_chns UNet.dropout].
  unfold UNet.Encoder_init.
  cbn [UNet.feature_chns UNet.dropout UNet.in_chns].
  destruct ft as [| c0 [| c1 [| c2 [| c3 [| c4 [| c5 ft]]]]]];
    try (left; split; [reflexivity | cbn [List.length]; lia]).
  cbn [List.length Nat.eqb negb py_index nth_error rbind].
  destruct dp as [| p0 dp]; cbn [py_index nth_error rbind].
  { right. split; [reflexivity |]. exists 0. cbn. repeat split; auto; lia. }
  pose proof (UNet_ConvBlock_init_spec "encoder.in_conv" ic c0 p0) as H0.
  destruct (UNet.ConvBlock_init "encoder.in_conv" ic c0 p0) as [b0 | e0];
    cbn [rbind].
  2:{ right. split; [reflexivity |]. exists 0. cbn [List.length firstn nth_error].
      repeat split; auto; try lia; apply H0. }
  destruct dp as [| p1 dp]; cbn [py_index nth_error rbind].
  { right. split; [reflexivity |]. exists 1. cbn [List.length firstn nth_error].
    repeat split; auto; lia. }
  pose proof (UNet_DownBlock_init_spec "encoder.down1" c0 c1 p1) as H1.
  destruct (UNet.DownBlock_init "encoder.down1" c0 c1 p1) as [b1 | e1];
    cbn [rbind].
  2:{ right. split; [reflexivity |]. exists 1. cbn [List.length firstn nth_error].
      repeat split; auto; try lia; apply H1. }
  destruct dp as [| p2 dp]; cbn [py_index nth_error rbind].
  { right. split; [reflexivity |]. exists 2. cbn [List.length firstn nth_error].
    repeat split; auto; lia. }
  pose proof (UNet_DownBlock_init_spec "encoder.down2" c1 c2 p2) as H2.
  destruct (UNet.DownBlock_init "encoder.down2" c1 c2 p2) as [b2 | e2];
    cbn [rbind].
  2:{ right. split; [reflexivity |]. exists 2. cbn [List.length firstn nth_error].
      repeat split; auto; try lia; apply H2. }
  destruct dp as [| p3 dp]; cbn [py_index nth_error rbind].
  { right. split; [reflexivity |]. exists 3. cbn [List.length firstn nth_error].
    repeat split; auto; lia. }
  pose proof (UNet_DownBlock_init_spec "encoder.down3" c2 c3 p3) as H3.
  destruct (UNet.DownBlock_init "encoder.down3" c2 c3 p3) as [b3 | e3];
    cbn [rbind].
  2:{ right. split; [reflexivity |]. exists 3. cbn [List.length firstn nth_error].
      repeat split; auto; try lia; apply H3. }
  destruct dp as [| p4 dp]; cbn [py_index nth_error rbind].
  { right. split; [reflexivity |]. exists 4. cbn [List.length firstn nth_error].
    repeat split; auto; lia. }
  pose proof (UNet_DownBlock_init_spec "encoder.down4" c3 c4 p4) as H4.
  destruct (UNet.DownBlock_init "encoder.down4" c3 c4 p4) as [b4 | e4];
    cbn [rbind].
  2:{ right. split; [reflexivity |]. exists 4. cbn [List.length firstn nth_error].
      repeat split; auto; try lia; apply H4. }
  cbn [List.length firstn UNet.enc_params].
  split; [reflexivity | split; [lia | split; [| reflexivity]]].
  repeat (apply Forall_cons; [assumption |]). apply Forall_nil.
Qed.

Lemma UNet_Encoder_init_outcome_witness :
  UNet.Encoder_init
    (UNet.mkParams 1 [16; 32; 64; 128; 256] [0.05; 0.1; 1.5]%float 4 false
       "relu") = Raise ValueError /\
  UNet.Encoder_init
    (UNet.mkParams 1 [16; 32; 64; 128; 256] [0.05; 0.1]%float 4 false
       "relu") = Raise IndexError.
Proof.
  assert (M1 : modest 1) by (unfold modest, max_channels; lia).
  assert (Mf : Forall modest [16; 32; 64; 128; 256]).
  { repeat constructor; unfold max_channels; lia. }
  split.
  - pose proof (@UNet_Encoder_init_outcome
                  (UNet.mkParams 1 [16; 32; 64; 128; 256]
                     [0.05; 0.1; 1.5]%float 4 false "relu") M1 Mf) as H.
    cbv zeta in H.
    destruct (UNet.Encoder_init _) as [enc | e] eqn:E;
      [vm_compute in E; discriminate |].
    destruct H as [[_ H] | [_ (k & Hk & _ & _ & H)]];
      [cbn in H; lia |].
    cbn [UNet.dropout] in H.
    destruct k as [| [| [| k]]]; cbn [nth_error] in H;
      try (destruct H as [-> _]; reflexivity);
      vm_compute in E; congruence.
  - pose proof (@UNet_Encoder_init_outcome
                  (UNet.mkParams 1 [16; 32; 64; 128; 256]
                     [0.05; 0.1]%float 4 false "relu") M1 Mf) as H.
    cbv zeta in H.
    destruct (UNet.Encoder_init _) as [enc | e] eqn:E;
      [vm_compute in E; discriminate |].
    vm_compute in E. congruence.
Defined.

(** X24.  How [Decoder.__init__] ends on a [params] dict that holds the
    keys it reads, with channel and class counts from 1 to [max_channels],
    and what it reads.  The only exception it raises is the
    [AssertionError] of a [feature_chns] that does not have five entries.
    Otherwise it is built, every one of its four [UpBlock]s takes the
    bilinear path (the [bilinear] flag of [params] is stored and never
    passed on), and its blocks depend on [feature_chns] and [class_num]
    alone: any other [params] with the same two entries gives the same
    blocks. *)
Theorem UNet_Decoder_init_outcome :
  forall params,
    Forall modest (UNet.feature_chns params) ->
    modest (UNet.class_num params) ->
    match UNet.Decoder_init params with
    | Ok d =>
        List.length (UNet.feature_chns params) = 5 /\
        UNet.dec_params d = params /\
        Forall (fun ub => is_bilinear ub = true) (UNet_up_blocks d) /\
        forall params',
          UNet.feature_chns params' = UNet.feature_chns params ->
          UNet.class_num params' = UNet.class_num params ->
          exists d',
            UNet.Decoder_init params' = Ok d' /\
            UNet_up_blocks d' = UNet_up_blocks d /\
            UNet.out_conv d' = UNet.out_conv d
    | Raise e =>
        e = AssertionError /\ List.length (UNet.feature_chns params) <> 5
    end.
Proof.
  intros [ic ft dp cn bl af] _ _.
  unfold UNet.Decoder_init. cbn [UNet.feature_chns UNet.class_num].
  destruct ft as [| c0 [| c1 [| c2 [| c3 [| c4 [| c5 ft]]]]]];
    try (split; [reflexivity | cbn [List.length]; lia]).
  cbn. split; [reflexivity | split; [reflexivity | split]].
  - repeat constructor.
  - intros [ic' ft' dp' cn' bl' af']. cbn. intros -> ->.
    eexists. split; [reflexivity |]. split; reflexivity.
Qed.

Lemma UNet_Decoder_init_outcome_witness :
  Forall (fun ub => is_bilinear ub = true)
         (UNet_up_blocks (UNet.decoder unet_1_4)) /\
  UNet.Decoder_init
    (UNet.mkParams 1 [16; 32; 64] [0.5]%float 4 true "relu")
    = Raise AssertionError.
Proof.
  assert (M4 : modest 4) by (unfold modest, max_channels; lia).
  split.
  - assert (Mf : Forall modest [16; 32; 64; 128; 256]).
    { repeat constructor; unfold max_channels; lia. }
    pose proof (@UNet_Decoder_init_outcome
                  (UNet.enc_params (UNet.encoder unet_1_4)) Mf M4) as H.
    destruct (UNet.Decoder_init (UNet.enc_params (UNet.encoder unet_1_4)))
      as [d | e] eqn:E; [| vm_compute in E; discriminate].
    assert (Hd : d = UNet.decoder unet_1_4).
    { vm_compute in E. injection E as <-. reflexivity. }
    subst d. exact (proj1 (proj2 (proj2 H))).
  - assert (Mf : Forall modest [16; 32; 64]).
    { repeat constructor; unfold max_channels; lia. }
    pose proof (@UNet_Decoder_init_outcome
                  (UNet.mkParams 1 [16; 32; 64] [0.5]%float 4 true "relu")
                  Mf M4) as H.
    destruct (UNet.Decoder_init _) as [d | e] eqn:E;
      [vm_compute in E; discriminate |].
    destruct H as [-> _]. reflexivity.
Defined.

(* ================================================================== *)
(** ** Random draws of a forward call in evaluation mode *)

Section RngFacts.
Context {Self : Type}.

Lemma rs_ret {A} (a : A) : rng_stable (ret (Self := Self) a).
Proof. intros w. reflexivity. Qed.

Lemma rs_raise {A} e : rng_stable (raise (Self := Self) (A := A) e).
Proof. intros w. reflexivity. Qed.

Lemma rs_lift {A} (r : Result A) : rng_stable (lift (Self := Self) r).
Proof. intros w. reflexivity. Qed.

Lemma rs_log ev : rng_stable (log (Self := Self) ev).
Proof. intros w. reflexivity. Qed.

Lemma rs_get_self : rng_stable (get_self (Self := Self)).
Proof. intros w. reflexivity. Qed.

Lemma rs_set_self s : rng_stable (set_self (Self := Self) s).
Proof. intros w. reflexivity. Qed.

Lemma rs_bind {A B} (m : M Self A) (f : A -> M Self B) :
  rng_stable m -> (forall a, rng_stable (f a)) -> rng_stable (bind m f).
Proof.
  intros Hm Hf w. unfold bind. specialize (Hm w).
  destruct (m w) as [w1 [a | e]]; cbn [fst] in *.
  - now rewrite Hf.
  - exact Hm.
Qed.

Lemma rs_mapM {A B} (f : A -> M Self B) l :
  (forall a, rng_stable (f a)) -> rng_stable (mapM f l).
Proof.
  intros Hf. induction l as [| a l IH]; cbn [mapM].
  - apply rs_ret.
  - apply rs_bind; [apply Hf |]. intros b.
    apply rs_bind; [exact IH |]. intros bs. apply rs_ret.
Qed.

Lemma rs_apply_layer_eval l t :
  rng_stable (apply_layer (Self := Self) false l t).
Proof.
  unfold apply_layer. destruct (layer_shape false l (shape t)).
  - destruct l; apply rs_ret.
  - apply rs_raise.
Qed.

Lemma rs_sequential_eval ops : forall t,
  rng_stable (sequential (Self := Self) false ops t).
Proof.
  induction ops as [| l ops IH]; intros t; cbn [sequential].
  - apply rs_ret.
  - apply rs_bind; [apply rs_apply_layer_eval | exact IH].
Qed.

Lemma rs_torch_cat d a b : rng_stable (torch_cat (Self := Self) d a b).
Proof.
  unfold torch_cat. destruct (cat_shape d (shape a) (shape b));
    [apply rs_ret | apply rs_raise].
Qed.

Lemma rs_chunk2 t : rng_stable (chunk2 (Self := Self) t).
Proof.
  unfold chunk2. destruct (shape t); [apply rs_raise | apply rs_ret].
Qed.

Lemma rs_unpack2 l : rng_stable (unpack2 (Self := Self) l).
Proof.
  unfold unpack2. destruct l as [| a [| b [| c l]]];
    try apply rs_raise. apply rs_ret.
Qed.

Lemma rs_torch_mul a b : rng_stable (torch_mul (Self := Self) a b).
Proof.
  unfold torch_mul. destruct (broadcast (shape a) (shape b));
    [apply rs_ret | apply rs_raise].
Qed.

Lemma rs_torch_add a b : rng_stable (torch_add (Self := Self) a b).
Proof.
  unfold torch_add. destruct (broadcast (shape a) (shape b));
    [apply rs_ret | apply rs_raise].
Qed.

Lemma rs_feat_index l i : rng_stable (feat_index (Self := Self) l i).
Proof. apply rs_lift. Qed.

Lemma draws_stable {A} (m : M Self A) : rng_stable m -> draws 0 m.
Proof.
  intros H w w' a E. specialize (H w). rewrite E in H. cbn [fst] in H. lia.
Qed.

Lemma draws_eq {A} j k (m : M Self A) : j = k -> draws j m -> draws k m.
Proof. now intros ->. Qed.

(** Sequencing adds the draws; what the first part returns may be used to
    count the draws of the second. *)
Lemma draws_bind {A B} (P : A -> Prop) j k (m : M Self A)
    (f : A -> M Self B) :
  draws j m -> on_return m P -> (forall a, P a -> draws k (f a)) ->
  draws (j + k) (bind m f).
Proof.
  intros Hm HP Hf w w' b H. apply bind_inv in H as (w1 & a & E & H).
  rewrite (Hf a (HP _ _ _ E) _ _ _ H), (Hm _ _ _ E). lia.
Qed.

Lemma draws_fresh : draws 1 (fresh (Self := Self)).
Proof. intros w w' a H. unfold fresh in H. inversion H. cbn. lia. Qed.

Lemma draws_rand_mask p t : draws 1 (rand_mask (Self := Self) p t).
Proof.
  unfold rand_mask.
  eapply (draws_bind (P := fun _ => True) (j := 1) (k := 0));
    [apply draws_fresh | easy |].
  intros a _. apply draws_stable, rs_ret.
Qed.

(** A dropout layer that is in training mode draws once per call. *)
Lemma draws_dropout_train kind p t :
  draws 1 (apply_layer (Self := Self) true (Dropout kind p) t).
Proof.
  unfold apply_layer. cbn [layer_shape].
  eapply (draws_bind (P := fun _ => True) (j := 1) (k := 0));
    [apply draws_fresh | easy |].
  intros a _. apply draws_stable, rs_ret.
Qed.

Lemma draws_mapM {A B} k (f : A -> M Self B) :
  (forall a, draws k (f a)) ->
  forall l, draws (k * List.length l) (mapM f l).
Proof.
  intros Hf. induction l as [| a l IH]; cbn [mapM List.length].
  - rewrite Nat.mul_0_r. apply draws_stable, rs_ret.
  - apply (draws_eq (j := k + (k * List.length l + 0))); [lia |].
    apply (draws_bind (P := fun _ => True)); [apply Hf | easy |].
    intros b _.
    apply (draws_bind (P := fun _ => True)); [exact IH | easy |].
    intros bs _. apply draws_stable, rs_ret.
Qed.

Lemma mapM_length {A B} (f : A -> M Self B) l :
  on_return (mapM f l) (fun bs => List.length bs = List.length l).
Proof.
  intros w w' bs H. apply mapM_inv in H.
  symmetry. eapply Forall2_length. exact H.
Qed.

(** [f1, f2 = feats.chunk(2)] over a feature list. *)
Lemma rs_split_halves (features : list Tensor) :
  rng_stable
    (mapM (fun feats => bind (chunk2 (Self := Self) feats)
                          (fun cs => unpack2 cs)) features).
Proof.
  apply rs_mapM. intros t. apply rs_bind; [apply rs_chunk2 |].
  intros cs. apply rs_unpack2.
Qed.

(** One iteration of the masking loop draws one mask. *)
Lemma draws_mask_pair p_keep (f12 : Tensor * Tensor) :
  draws 1
    (let '(f1, f2) := f12 in
     bind (rand_mask (Self := Self) p_keep f1) (fun mask =>
     bind (torch_mul f1 mask) (fun weak_f =>
     bind (torch_mul f2 (one_minus mask)) (fun strong_f =>
     bind (torch_add weak_f strong_f) (fun complete_f =>
     ret (weak_f, strong_f, complete_f)))))).
Proof.
  destruct f12 as [f1 f2].
  apply (draws_bind (P := fun _ => True) (j := 1) (k := 0));
    [apply draws_rand_mask | easy |].
  intros mask _. apply draws_stable.
  apply rs_bind; [apply rs_torch_mul | intros].
  apply rs_bind; [apply rs_torch_mul | intros].
  apply rs_bind; [apply rs_torch_add | intros]. apply rs_ret.
Qed.
End RngFacts.

Create HintDb rngs.

#[export] Hint Resolve rs_ret rs_raise rs_lift rs_log rs_get_self rs_set_self
  rs_apply_layer_eval rs_sequential_eval rs_torch_cat rs_chunk2 rs_unpack2
  rs_torch_mul rs_torch_add rs_feat_index : rngs.

(** Decompose a goal [rng_stable m] along the binds of [m]. *)
Ltac rng_steps :=
  repeat first
    [ apply rs_bind; [| intros ]
    | apply rs_mapM; intros
    | progress auto with rngs
    | match goal with
      | |- rng_stable (match ?x with _ => _ end) => destruct x
      | |- rng_stable (if ?b then _ else _) => destruct b
      | |- rng_stable (let '(_, _) := ?x in _) => destruct x
      end ].

Lemma rs_UNet_Encoder_eval {Self} enc x :
  rng_stable (UNet.Encoder_forward (Self := Self) false enc x).
Proof.
  unfold UNet.Encoder_forward, UNet.ConvBlock_forward, UNet.DownBlock_forward.
  rng_steps.
Qed.

Lemma rs_UNet_Decoder_eval {Self} dec fs :
  rng_stable (UNet.Decoder_forward (Self := Self) false dec fs).
Proof.
  unfold UNet.Decoder_forward, UNet.UpBlock_forward, UNet.ConvBlock_forward.
  rng_steps.
Qed.

Lemma UNet_Encoder_length {Self} tr enc x :
  on_return (UNet.Encoder_forward (Self := Self) tr enc x)
    (fun fs => List.length fs = 5).
Proof.
  intros w w' fs H. unfold UNet.Encoder_forward in H.
  do 6 inv_bind H. apply ret_inv in H as [_ ->]. reflexivity.
Qed.

Lemma rs_VNet_encoder_eval m x :
  VNet.training m = false -> rng_stable (VNet.encoder m x).
Proof.
  intros Htr. unfold VNet.encoder. rewrite Htr. cbv zeta. rng_steps.
Qed.

Lemma rs_VNet_decoder_eval m fs no_drop :
  VNet.training m = false -> rng_stable (VNet.decoder m fs no_drop).
Proof.
  intros Htr. unfold VNet.decoder. rewrite Htr. cbv zeta. rng_steps.
Qed.

Lemma VNet_encoder_length m x :
  on_return (VNet.encoder m x) (fun fs => List.length fs = 5).
Proof.
  intros w w' fs H. unfold VNet.encoder in H. cbv zeta in H.
  do 12 inv_bind H. apply ret_inv in H as [_ ->]. reflexivity.
Qed.

(** X25.  Randomness of [UNet.forward] under [model.eval()].  Outside the
    two perturbation modes the call draws no random number at all, whether
    it returns or raises.  In the ["normal"] mode a returning call has
    drawn exactly five times: the [nn.Dropout2d(0.5)] applied to the five
    encoder features is constructed inside [forward], so it is in training
    mode whatever the mode of the model.  In the ["strong"] mode a
    returning call has drawn exactly five masks. *)
Theorem UNet_eval_randomness :
  forall m x fp ty,
    UNet.training m = false ->
    if plain_mode fp ty then rng_stable (UNet.forward m x fp ty)
    else draws 5 (UNet.forward m x fp ty).
Proof.
  intros m x fp ty Htr. unfold UNet.forward, plain_mode. rewrite Htr.
  cbv zeta.
  assert (Hplain : rng_stable
    (feature <- UNet.Encoder_forward (Self := unit) false (UNet.encoder m) x ;;
     output <- UNet.Decoder_forward false (UNet.decoder m) feature ;;
     ret (Single output))).
  { apply rs_bind; [apply rs_UNet_Encoder_eval | intros fs].
    apply rs_bind; [apply rs_UNet_Decoder_eval | intros]. apply rs_ret. }
  destruct fp; cbn [negb orb]; [| exact Hplain].
  destruct (ty =? "normal")%string; cbn [negb andb].
  - apply (draws_eq (j := 0 + 5)); [reflexivity |].
    eapply draws_bind;
      [apply draws_stable, rs_UNet_Encoder_eval
      | apply UNet_Encoder_length |].
    intros fs Hfs. cbv beta in Hfs.
    apply (draws_eq (j := 1 * List.length fs + 0)); [lia |].
    apply (draws_bind (P := fun _ => True)); [| easy |].
    + apply draws_mapM. intros feat.
      apply (draws_bind (P := fun _ => True) (j := 1) (k := 0));
        [apply draws_dropout_train | easy |].
      intros d _. apply draws_stable, rs_torch_cat.
    + intros cat _. apply draws_stable.
      apply rs_bind; [apply rs_UNet_Decoder_eval | intros].
      apply rs_bind; [apply rs_chunk2 | intros]. apply rs_ret.
  - destruct (ty =? "strong")%string; cbn [negb]; [| exact Hplain].
    apply (draws_eq (j := 0 + 5)); [reflexivity |].
    eapply draws_bind;
      [apply draws_stable, rs_UNet_Encoder_eval
      | apply UNet_Encoder_length |].
    intros fs Hfs. cbv beta in Hfs.
    apply (draws_eq (j := 0 + 5)); [reflexivity |].
    eapply draws_bind;
      [apply draws_stable; unfold UNet.split_halves; apply rs_split_halves
      | apply mapM_length |].
    intros halves Hh. cbv beta in Hh. rewrite combine_fst_snd.
    apply (draws_eq (j := 1 * List.length halves + 0)); [lia |].
    apply (draws_bind (P := fun _ => True)); [| easy |].
    + apply draws_mapM. intros f12. apply draws_mask_pair.
    + intros masked _. apply draws_stable.
      repeat (apply rs_bind; [apply rs_UNet_Decoder_eval | intros]).
      apply rs_ret.
Qed.

Lemma UNet_eval_randomness_witness :
  is_ok (snd (UNet.forward (UNet_eval unet_1_4) (input_of 2 1 [16; 16])
                true "normal" (world0 tt))) = true /\
  rng (fst (UNet.forward (UNet_eval unet_1_4) (input_of 2 1 [16; 16])
              true "normal" (world0 tt))) = 5.
Proof.
  destruct (UNet.forward (UNet_eval unet_1_4) (input_of 2 1 [16; 16])
              true "normal" (world0 tt)) as [w' [o | e]] eqn:E;
    [| vm_compute in E; discriminate].
  split; [reflexivity |]. cbn [fst].
  exact (@UNet_eval_randomness (UNet_eval unet_1_4) (input_of 2 1 [16; 16])
           true "normal" eq_refl _ _ _ E).
Defined.

(** X26.  Randomness of [VNet.forward] under [model.eval()].  Only the
    ["strong"] mode draws random numbers: a returning call has drawn
    exactly five masks.  Every other call draws none, whether it returns
    or raises; this includes the ["normal"] mode, whose perturbation is the
    registered [self.dropout] and therefore the identity in evaluation
    mode, and every value of [has_dropout] and [turnoff_drop]. *)
Theorem VNet_eval_randomness :
  forall m x td fp ty,
    VNet.training m = false ->
    if (fp && (ty =? "strong")%string)%bool
    then draws 5 (VNet.forward m x td fp ty)
    else rng_stable (VNet.forward m x td fp ty).
Proof.
  intros m x td fp ty Htr. unfold VNet.forward. cbv zeta.
  assert (Hpre : rng_stable
    (if td
     then has_dropout <- (get_self : M bool bool) ;;
          set_self false ;;; ret (Some has_dropout)
     else ret None)).
  { rng_steps. }
  assert (Htail : forall saved features, rng_stable
    (out <- VNet.decoder m features false ;;
     (if td
      then match saved with
           | Some has_dropout => set_self has_dropout
           | None => ret tt
           end
      else ret tt) ;;;
     ret (Single out))).
  { intros saved features.
    apply rs_bind; [now apply rs_VNet_decoder_eval | intros].
    rng_steps. }
  destruct fp; cbn [andb].
  2:{ apply rs_bind; [exact Hpre | intros saved].
      apply rs_bind; [now apply rs_VNet_encoder_eval | intros fs].
      apply Htail. }
  destruct (ty =? "normal")%string eqn:En.
  - assert (Es : (ty =? "strong")%string = false).
    { apply String.eqb_eq in En. subst ty. reflexivity. }
    rewrite Es.
    apply rs_bind; [exact Hpre | intros saved].
    apply rs_bind; [now apply rs_VNet_encoder_eval | intros fs].
    rewrite Htr.
    apply rs_bind; [apply rs_mapM; intros; apply rs_apply_layer_eval |].
    intros fps.
    apply rs_bind; [apply rs_mapM; intros; apply rs_torch_cat |].
    intros cs.
    apply rs_bind; [now apply rs_VNet_decoder_eval | intros].
    apply rs_bind; [apply rs_chunk2 | intros]. apply rs_ret.
  - destruct (ty =? "strong")%string.
    + apply (draws_eq (j := 0 + 5)); [reflexivity |].
      apply (draws_bind (P := fun _ => True));
        [apply draws_stable, Hpre | easy |].
      intros saved _.
      apply (draws_eq (j := 0 + 5)); [reflexivity |].
      eapply draws_bind;
        [apply draws_stable; now apply rs_VNet_encoder_eval
        | apply VNet_encoder_length |].
      intros fs Hfs. cbv beta in Hfs.
      apply (draws_eq (j := 0 + 5)); [reflexivity |].
      eapply draws_bind;
        [apply draws_stable; unfold VNet.split_halves; apply rs_split_halves
        | apply mapM_length |].
      intros halves Hh. cbv beta in Hh. rewrite combine_fst_snd.
      apply (draws_eq (j := 1 * List.length halves + 0)); [lia |].
      apply (draws_bind (P := fun _ => True)); [| easy |].
      * apply draws_mapM. intros f12. apply draws_mask_pair.
      * intros masked _. apply draws_stable.
        repeat (apply rs_bind; [now apply rs_VNet_decoder_eval | intros]).
        apply rs_ret.
    + apply rs_bind; [exact Hpre | intros saved].
      apply rs_bind; [now apply rs_VNet_encoder_eval | intros fs].
      apply Htail.
Qed.

Lemma VNet_eval_randomness_witness :
  is_ok (snd (VNet.forward (VNet_eval vnet_1_2) (input_of 4 1 [16; 16; 16])
                false true "strong" (world0 false))) = true /\
  rng (fst (VNet.forward (VNet_eval vnet_1_2) (input_of 4 1 [16; 16; 16])
              false true "strong" (world0 false))) = 5.
Proof.
  destruct (VNet.forward (VNet_eval vnet_1_2) (input_of 4 1 [16; 16; 16])
              false true "strong" (world0 false)) as [w' [o | e]] eqn:E;
    [| vm_compute in E; discriminate].
  split; [reflexivity |]. cbn [fst].
  exact (@VNet_eval_randomness (VNet_eval vnet_1_2)
           (input_of 4 1 [16; 16; 16]) false true "strong" eq_refl _ _ _ E).
Defined.
